(** * skilletlib / panoply.py : the configuration diff and skillet generator

    A shallow embedding of the offline part of [Panoply]
    (src/skilletlib/panoply.py): [generate_skillet_from_configs],
    [__check_element], [__split_xpath], [__order_snippets],
    [__filter_snippets_by_xpath], [__check_children_are_list],
    [__clean_uuid] and [generate_set_cli_from_configs].

    Conventions.
    - A parsed document is an [element] tree (what [etree.fromstring] returns):
      tag, attributes in document order, [text], children, [tail].  Comments
      and processing instructions are not modelled.
    - xpaths are strings, built exactly as the f-strings of the source build
      them.
    - Python exceptions are the [Raise] case of [result].
    - The collaborators are libraries outside the repository.  lxml's
      [Element.xpath] is modelled by [xpath] below for the fragment of XPath
      the source produces, and [etree.tostring] by [Serialize.tostring];
      xmldiff's [diff_trees], the random number generator and pan-python's
      [PanConfig] with its [set_cli] are section variables. *)

From Stdlib Require Import String Ascii List Bool Arith ZArith Lia DecimalString Permutation.
Import ListNotations.

Open Scope list_scope.
Open Scope string_scope.

(** ** Exceptions and the error monad *)

Inductive exn : Type :=
| XPathEvalError   (* lxml.etree.XPathEvalError: the expression is not valid *)
| AttributeError.  (* 'NoneType' object has no attribute 'strip' *)

Inductive result (A : Type) : Type :=
| Ok (a : A)
| Raise (e : exn).

Arguments Ok {A} a.
Arguments Raise {A} e.

Definition bind {A B : Type} (m : result A) (k : A -> result B) : result B :=
  match m with
  | Ok a => k a
  | Raise e => Raise e
  end.

Notation "x <- m ;; k" := (bind m (fun x => k))
  (at level 61, m at next level, right associativity).

(** ** Python string operations *)

Module Str.

Definition DQUOTE : ascii := ascii_of_nat 34.
Definition dq : string := String DQUOTE "".
Definition NEWLINE : ascii := ascii_of_nat 10.
Definition nl : string := String NEWLINE "".

(** [str(n)] for a non-negative int. *)
Definition of_nat (n : nat) : string := NilEmpty.string_of_uint (Nat.to_uint n).

(** [sub in s] *)
Fixpoint contains (sub s : string) : bool :=
  String.prefix sub s ||
  match s with
  | "" => false
  | String _ r => contains sub r
  end.

Fixpoint drop (n : nat) (s : string) : string :=
  match n, s with
  | O, _ => s
  | S k, String _ r => drop k r
  | S _, "" => ""
  end.

(** [sep.join(parts)] *)
Fixpoint join (sep : string) (parts : list string) : string :=
  match parts with
  | [] => ""
  | [p] => p
  | p :: rest => p ++ sep ++ join sep rest
  end.

(** Characters [str.strip()] removes (the ASCII ones: tab, line feed,
    vertical tab, form feed, carriage return, the four separators 28-31
    and space). *)
Definition isspace (c : ascii) : bool :=
  let n := nat_of_ascii c in
  ((9 <=? n)%nat && (n <=? 13)%nat) || ((28 <=? n)%nat && (n <=? 32)%nat).

Fixpoint lstrip (s : string) : string :=
  match s with
  | String c r => if isspace c then lstrip r else s
  | "" => ""
  end.

(** [rstrip]: a character is kept when it is not a space or when something
    that is kept follows it. *)
Fixpoint rstrip (s : string) : string :=
  match s with
  | "" => ""
  | String c r =>
      match rstrip r with
      | "" => if isspace c then "" else String c ""
      | r' => String c r'
      end
  end.

(** [s.strip()] *)
Definition strip (s : string) : string := rstrip (lstrip s).

(** [s.replace(old, new)] for a non-empty [old]: the occurrences are
    replaced from left to right and do not overlap.  [skip] counts the
    characters of an occurrence that are still to be dropped. *)
Fixpoint replace_from (old new : string) (skip : nat) (s : string) : string :=
  match s with
  | "" => ""
  | String c r =>
      match skip with
      | S k => replace_from old new k r
      | O =>
          if String.prefix old s
          then new ++ replace_from old new (String.length old - 1) r
          else String c (replace_from old new 0 r)
      end
  end.

Definition replace (old new s : string) : string := replace_from old new 0 s.

(** [re.sub(r'^<p>', repl, s)] for a literal pattern [p] anchored at the
    start: at most one replacement. *)
Definition sub_prefix (p repl s : string) : string :=
  if String.prefix p s then repl ++ drop (String.length p) s else s.

Definition is_digit (c : ascii) : bool :=
  let n := nat_of_ascii c in (48 <=? n)%nat && (n <=? 57)%nat.

Fixpoint all_digits (s : string) : bool :=
  match s with
  | "" => true
  | String c r => is_digit c && all_digits r
  end.

(** The value of a string of decimal digits, read from the left. *)
Fixpoint to_nat_from (acc : nat) (s : string) : nat :=
  match s with
  | "" => acc
  | String c r => to_nat_from (10 * acc + (nat_of_ascii c - 48)) r
  end.

Definition to_nat (s : string) : nat := to_nat_from 0 s.

(** [s] cut at the first occurrence of [c]: what is before it and what is
    after it. *)
Fixpoint cut (c : ascii) (s : string) : option (string * string) :=
  match s with
  | "" => None
  | String a r =>
      if Ascii.eqb a c then Some ("", r)
      else match cut c r with
           | Some (before, after) => Some (String a before, after)
           | None => None
           end
  end.

Fixpoint count (c : ascii) (s : string) : nat :=
  match s with
  | "" => 0
  | String a r => (if Ascii.eqb a c then 1 else 0) + count c r
  end.

End Str.

(** ** Documents *)

(** An lxml element.  [text] is the text before the first child, [tail] the
    text after the element's end tag; both are [None] when absent. *)
#[warnings="-register-all"]
Inductive element : Type :=
| Element (tag : string) (attrib : list (string * string)) (text : option string)
          (children : list element) (tail : option string).

Definition el_tag (e : element) : string := let 'Element t _ _ _ _ := e in t.
Definition el_attrib (e : element) : list (string * string) := let 'Element _ a _ _ _ := e in a.
Definition el_text (e : element) : option string := let 'Element _ _ x _ _ := e in x.
Definition el_children (e : element) : list element := let 'Element _ _ _ c _ := e in c.
Definition el_tail (e : element) : option string := let 'Element _ _ _ _ x := e in x.

(** [a == b] on optional text ([None] is Python's [None]). *)
Definition text_eqb (a b : option string) : bool :=
  match a, b with
  | None, None => true
  | Some x, Some y => String.eqb x y
  | _, _ => false
  end.

Definition attrib_eqb (a b : list (string * string)) : bool :=
  (fix go (a b : list (string * string)) : bool :=
     match a, b with
     | [], [] => true
     | (k, v) :: a', (k', v') :: b' => String.eqb k k' && String.eqb v v' && go a' b'
     | _, _ => false
     end) a b.

Fixpoint element_eqb (a b : element) {struct a} : bool :=
  match a, b with
  | Element t at_ x cs tl, Element t' at' x' cs' tl' =>
      String.eqb t t' && attrib_eqb at_ at' && text_eqb x x' && text_eqb tl tl' &&
      (fix all2 (l : list element) (l' : list element) {struct l} : bool :=
         match l, l' with
         | [], [] => true
         | c :: r, c' :: r' => element_eqb c c' && all2 r r'
         | _, _ => false
         end) cs cs'
  end.

(** ** The XPath fragment of [Element.xpath]

    The expressions the source evaluates have the shape
    [./step/step/...], each step a tag name with at most one predicate:
    tag, tag[@k=QvQ], tag[text()=QvQ] or tag[n], where Q stands for the
    double quote character.  That fragment is modelled here; any other step
    is refused with [XPathEvalError], as lxml refuses tag[] and
    tag[@a=Q1Q @b=Q2Q]. *)

Module XPath.

Inductive predicate : Type :=
| NoPredicate
| AttrEquals (k v : string)   (* @k=QvQ *)
| TextEquals (v : string)     (* text()=QvQ *)
| Position (n : nat).         (* [n], counted from 1 *)

Record step : Type := Step { step_tag : string; step_pred : predicate }.

(** The steps of an expression: it is cut at every slash that is not inside
    a double-quoted literal.  [inq] tells whether the scan is inside one. *)
Fixpoint split_steps (inq : bool) (s : string) : list string :=
  match s with
  | "" => [""]
  | String c r =>
      let inq' := if Ascii.eqb c Str.DQUOTE then negb inq else inq in
      if Ascii.eqb c "/" && negb inq then "" :: split_steps inq' r
      else match split_steps inq' r with
           | h :: t => String c h :: t
           | [] => [String c ""]
           end
  end.

(** Whether the scan of [s], started in state [inq], ends inside a
    literal. *)
Fixpoint quote_state (inq : bool) (s : string) : bool :=
  match s with
  | "" => inq
  | String c r => quote_state (if Ascii.eqb c Str.DQUOTE then negb inq else inq) r
  end.

(** A double-quoted literal and nothing after it. *)
Definition parse_literal (s : string) : option string :=
  match s with
  | String c r =>
      if Ascii.eqb c Str.DQUOTE then
        match Str.cut Str.DQUOTE r with
        | Some (v, "") => Some v
        | _ => None
        end
      else None
  | "" => None
  end.

Definition parse_predicate (s : string) : option predicate :=
  match s with
  | String "@" r =>
      match Str.cut "=" r with
      | Some (String c k, lit) =>
          match parse_literal lit with
          | Some v => Some (AttrEquals (String c k) v)
          | None => None
          end
      | _ => None
      end
  | _ =>
      if String.prefix "text()=" s then
        match parse_literal (Str.drop 7 s) with
        | Some v => Some (TextEquals v)
        | None => None
        end
      else if Str.all_digits s && negb (String.eqb s "") then Some (Position (Str.to_nat s))
      else None
  end.

(** [s] without its last character, when that character is [c]. *)
Fixpoint without_last (c : ascii) (s : string) : option string :=
  match s with
  | "" => None
  | String a "" => if Ascii.eqb a c then Some "" else None
  | String a r =>
      match without_last c r with
      | Some r' => Some (String a r')
      | None => None
      end
  end.

Definition parse_step (s : string) : option step :=
  match Str.cut "[" s with
  | None => if String.eqb s "" then None else Some (Step s NoPredicate)
  | Some ("", _) => None
  | Some (t, r) =>
      match without_last "]" r with
      | Some inner =>
          match parse_predicate inner with
          | Some p => Some (Step t p)
          | None => None
          end
      | None => None
      end
  end.

(** The text nodes that are children of [e]: its [text] and the [tail] of
    each of its children. *)
Definition text_nodes (e : element) : list string :=
  (match el_text e with Some x => [x] | None => [] end) ++
  flat_map (fun c => match el_tail c with Some x => [x] | None => [] end) (el_children e).

Fixpoint get (k : string) (attrib : list (string * string)) : option string :=
  match attrib with
  | [] => None
  | (k', v) :: r => if String.eqb k' k then Some v else get k r
  end.

Definition holds (p : predicate) (e : element) : bool :=
  match p with
  | NoPredicate => true
  | AttrEquals k v =>
      match get k (el_attrib e) with
      | Some v' => String.eqb v' v
      | None => false
      end
  | TextEquals v => existsb (String.eqb v) (text_nodes e)
  | Position _ => true
  end.

(** The children [cs] of one node that a step selects, in document
    order. *)
Definition select (st : step) (cs : list element) : list element :=
  let named := filter (fun c => String.eqb (el_tag c) (step_tag st)) cs in
  match step_pred st with
  | Position 0 => []
  | Position (S k) =>
      match nth_error named k with
      | Some c => [c]
      | None => []
      end
  | p => filter (holds p) named
  end.

Definition apply_step (st : step) (nodes : list element) : list element :=
  flat_map (fun n => select st (el_children n)) nodes.

Fixpoint eval_steps (steps : list string) (nodes : list element) : result (list element) :=
  match steps with
  | [] => Ok nodes
  | s :: rest =>
      match parse_step s with
      | Some st => eval_steps rest (apply_step st nodes)
      | None => Raise XPathEvalError
      end
  end.

End XPath.

(** [doc.xpath(path)] with [doc] the context node. *)
Definition xpath (doc : element) (path : string) : result (list element) :=
  match XPath.split_steps false path with
  | "." :: steps => XPath.eval_steps steps [doc]
  | _ => Raise XPathEvalError
  end.

(** ** Serialisation: [etree.tostring(e).decode()]

    Markup characters are escaped as lxml escapes them; the element's [tail]
    is part of the output. *)

Module Serialize.

Definition escape_text_char (c : ascii) : string :=
  if Ascii.eqb c "&" then "&amp;"
  else if Ascii.eqb c "<" then "&lt;"
  else if Ascii.eqb c ">" then "&gt;"
  else String c "".

Definition escape_attr_char (c : ascii) : string :=
  if Ascii.eqb c Str.DQUOTE then "&quot;" else escape_text_char c.

Fixpoint escape (f : ascii -> string) (s : string) : string :=
  match s with
  | "" => ""
  | String c r => f c ++ escape f r
  end.

Definition opt_text (x : option string) : string :=
  match x with
  | Some s => escape escape_text_char s
  | None => ""
  end.

Definition attributes (attrib : list (string * string)) : string :=
  String.concat ""
    (map (fun kv => " " ++ fst kv ++ "=" ++ Str.dq ++ escape escape_attr_char (snd kv) ++ Str.dq)
         attrib).

Fixpoint tostring (e : element) : string :=
  match e with
  | Element tag attrib text children tail =>
      (match text, children with
       | None, [] => "<" ++ tag ++ attributes attrib ++ "/>"
       | _, _ =>
           "<" ++ tag ++ attributes attrib ++ ">" ++ opt_text text ++
           (fix all (cs : list element) : string :=
              match cs with
              | [] => ""
              | c :: r => tostring c ++ all r
              end) children ++
           "</" ++ tag ++ ">"
       end) ++ opt_text tail
  end.

End Serialize.

(** ** [__check_children_are_list] *)

(** The loop over the children; [found_tag_name] starts as the empty
    string. *)
Fixpoint same_tag_loop (found_tag_name : string) (c : list element) : bool :=
  match c with
  | [] => true
  | child :: rest =>
      if String.eqb found_tag_name "" then same_tag_loop (el_tag child) rest
      else if negb (String.eqb found_tag_name (el_tag child)) then false
      else same_tag_loop found_tag_name rest
  end.

Definition check_children_are_list (c : list element) : bool :=
  if (List.length c <=? 1)%nat then false else same_tag_loop "" c.

(** ** The path entry of a child (the body of the loop of [__check_element]
    up to [n_xpath]) *)

(** [attribs]: one @k=QvQ per attribute other than [uuid], in attribute
    order. *)
Fixpoint attribs_of (attrib : list (string * string)) : list string :=
  match attrib with
  | [] => []
  | (k, v) :: r =>
      if negb (String.eqb k "uuid")
      then ("@" ++ k ++ "=" ++ Str.dq ++ v ++ Str.dq) :: attribs_of r
      else attribs_of r
  end.

Definition path_entry (is_list : bool) (index : nat) (e : element) : result string :=
  match el_attrib e with
  | _ :: _ =>
      let attrib_str := Str.join " " (attribs_of (el_attrib e)) in
      Ok (el_tag e ++ "[" ++ attrib_str ++ "]")
  | [] =>
      if is_list then
        match el_text e with
        | None => Raise AttributeError          (* e.text.strip() on None *)
        | Some t =>
            if negb (String.eqb (Str.strip t) "")
            then Ok (el_tag e ++ "[text()=" ++ Str.dq ++ Str.strip t ++ Str.dq ++ "]")
            else Ok (el_tag e ++ "[" ++ Str.of_nat index ++ "]")
        end
      else Ok (el_tag e)
  end.

(** ** [__split_xpath] *)

(** [re.split] on a slash followed, up to the end of the string, by complete
    pairs of double quotes only (the lookahead of the pattern): the string is
    cut at every slash that has an even number of double quotes after it.  [cur] is
    the part being read. *)
Fixpoint re_split (cur : string) (s : string) : list string :=
  match s with
  | "" => [cur]
  | String c r =>
      if Ascii.eqb c "/" && Nat.even (Str.count Str.DQUOTE r)
      then cur :: re_split "" r
      else re_split (cur ++ String c "") r
  end.

Definition split_xpath (xpath : string) : string * string :=
  let xpath_parts := re_split "" xpath in
  let new_xpath := Str.join "/" (removelast xpath_parts) in
  let entry := last xpath_parts "" in
  (new_xpath, entry).

(** [re.sub(r'\[.*\]', '', entry)]: on each line, what lies between the
    first opening bracket and the last closing bracket after it is removed,
    brackets included (the dot does not match a line feed). *)
Fixpoint bracket_span (s : string) : nat :=
  match s with
  | "" => 0
  | String c r =>
      if Ascii.eqb c Str.NEWLINE then 0
      else match bracket_span r with
           | S k => S (S k)
           | O => if Ascii.eqb c "]" then 1 else 0
           end
  end.

Fixpoint sub_brackets_from (skip : nat) (s : string) : string :=
  match s with
  | "" => ""
  | String c r =>
      match skip with
      | S k => sub_brackets_from k r
      | O =>
          if Ascii.eqb c "[" then
            match bracket_span r with
            | O => String c (sub_brackets_from 0 r)
            | S k => sub_brackets_from (S k) r
            end
          else String c (sub_brackets_from 0 r)
      end
  end.

Definition sub_brackets (s : string) : string := sub_brackets_from 0 s.

(** ** Snippets and [__order_snippets] *)

Record snippet : Type := Snippet {
  name : string;
  xpath_ : string;        (* snippet['xpath'] *)
  element_ : string;      (* snippet['element'] *)
  full_xpath : string
}.

Definition snippet_eqb (a b : snippet) : bool :=
  String.eqb (name a) (name b) && String.eqb (xpath_ a) (xpath_ b) &&
  String.eqb (element_ a) (element_ b) && String.eqb (full_xpath a) (full_xpath b).

(** [s in l] *)
Definition snippet_in (s : snippet) (l : list snippet) : bool := existsb (snippet_eqb s) l.

Definition filter_snippets_by_xpath (snippets : list snippet) (xpath : string) : list snippet :=
  filter (fun s => Str.contains xpath (full_xpath s)) snippets.

(** The list [xpaths] of [__order_snippets].  In the source no comma
    follows ['/shared/'], so Python joins it with the next literal. *)
Definition xpaths : list string :=
  [ "/shared/certificate";
    "/shared/ssl-tls-service-profile";
    "/shared/tag";
    "/shared/profiles";
    "/shared/reports";
    "/shared/" ++ "/tag/entry";
    "/deviceconfig/system";
    "/network/interface"; "/network/virtual-wire"; "/network/vlan";
    "/network/ike"; "/network/tunnel";
    "/network/virtual-router"; "/network/profiles/zone-protection-profile"; "/zone/entry";
    "/profiles/custom-url-category";
    "/address/entry" ].

Definition post_xpaths : list string := [ "/rulebase" ].

Definition order_snippets (snippets : list snippet) : list snippet :=
  let ordered_snippets :=
    fold_left (fun acc x => (acc ++ filter_snippets_by_xpath snippets x)%list) xpaths [] in
  let post_snippets :=
    fold_left (fun acc p => (acc ++ filter_snippets_by_xpath snippets p)%list) post_xpaths [] in
  let ordered_snippets :=
    fold_left (fun acc s =>
                 if negb (snippet_in s acc) && negb (snippet_in s post_snippets)
                 then (acc ++ [s])%list else acc)
              snippets ordered_snippets in
  fold_left (fun acc ps => if negb (snippet_in ps acc) then (acc ++ [ps])%list else acc)
            post_snippets ordered_snippets.

(** ** [__clean_uuid] *)

Definition pop_uuid (attrib : list (string * string)) : list (string * string) :=
  filter (fun kv => negb (String.eqb (fst kv) "uuid")) attrib.

(** What the loop over [findall('.//*[@uuid]')] leaves of a descendant. *)
Fixpoint pop_uuid_deep (e : element) : element :=
  match e with
  | Element tag attrib text children tail =>
      Element tag (pop_uuid attrib) text (map pop_uuid_deep children) tail
  end.

(** [.//*] selects the descendants of the context node, not the node
    itself: its own attributes are left as they are. *)
Definition clean_uuid (changed_element : option element) : option element :=
  match changed_element with
  | None => None
  | Some (Element tag attrib text children tail) =>
      Some (Element tag attrib text (map pop_uuid_deep children) tail)
  end.

(** ** [__check_element] and [generate_skillet_from_configs] *)

Section Skillet.

(** xmldiff's [diff_trees(left, right, diff_options)] with the options of
    the source ([F] 0.1, accurate ratio mode, fast match): the list of edit
    actions; only its length is looked at. *)
Variable Action : Type.
Variable diff_trees : element -> element -> list Action.

(** [random_int k]: the value of [int(random.random() * 1000000)] at the
    k-th draw of a call (counted from 0). *)
Variable random_int : nat -> nat.

Fixpoint check_element (el : element) (xpath_ : string) (pc : element)
         (not_founds : list string) {struct el} : result (list string) :=
  match el with
  | Element _ _ el_text_ children _ =>
      found_elements <- xpath pc xpath_ ;;
      match found_elements with
      | found_element :: _ =>
          if (List.length children =? 0)%nat then
            if negb (text_eqb (el_text found_element) el_text_)
            then Ok (not_founds ++ [xpath_])%list
            else Ok not_founds
          else
            let walk (is_list : bool) :=
              (fix each (es : list element) (index : nat) (not_founds : list string)
                 {struct es} : result (list string) :=
                 match es with
                 | [] => Ok not_founds
                 | e :: es' =>
                     entry <- path_entry is_list index e ;;
                     let n_xpath := xpath_ ++ "/" ++ entry in
                     new_not_founds <- check_element e n_xpath pc [] ;;
                     each es' (index + 1) (not_founds ++ new_not_founds)%list
                 end) children 1 not_founds in
            if check_children_are_list children then
              if (List.length (diff_trees found_element el) =? 0)%nat
              then Ok not_founds
              else walk true
            else walk false
      | [] => Ok (not_founds ++ [xpath_])%list
      end
  end.

(** The loop of [check_element] over the children of [el], named so that
    statements can speak of it; [check_element_eq] below shows it is that
    loop. *)
Definition check_children (xpath_ : string) (pc : element) (is_list : bool)
  : list element -> nat -> list string -> result (list string) :=
  fix each (es : list element) (index : nat) (not_founds : list string)
    {struct es} : result (list string) :=
    match es with
    | [] => Ok not_founds
    | e :: es' =>
        entry <- path_entry is_list index e ;;
        let n_xpath := xpath_ ++ "/" ++ entry in
        new_not_founds <- check_element e n_xpath pc [] ;;
        each es' (index + 1) (not_founds ++ new_not_founds)%list
    end.

(** The first loop of [generate_skillet_from_configs]: the children of the
    latest document are checked one after the other. *)
Fixpoint collect_not_found (cs : list element) (previous_doc : element)
         (not_found_xpaths : list string) : result (list string) :=
  match cs with
  | [] => Ok not_found_xpaths
  | c :: rest =>
      let o_xpath := "." ++ "/" ++ el_tag c in
      these_not_found_xpaths <- check_element c o_xpath previous_doc [] ;;
      collect_not_found rest previous_doc (not_found_xpaths ++ these_not_found_xpaths)%list
  end.

Definition ignored_xpaths : list string :=
  [ "/config/mgt-config/users/entry[@name=" ++ Str.dq ++ "admin" ++ Str.dq ++ "]" ].

(** The second loop: [draws] counts the random numbers drawn so far. *)
Fixpoint assemble (latest_doc : element) (xs : list string) (draws : nat)
         (snippets : list snippet) : result (list snippet) :=
  match xs with
  | [] => Ok snippets
  | x :: rest =>
      let '(set_xpath, entry) := split_xpath x in
      let set_xpath := Str.sub_prefix "./" "/config/" set_xpath in
      let full_relative_xpath := Str.sub_prefix "/config/" "\./" x in
      let tag := sub_brackets entry in
      if existsb (String.eqb set_xpath) ignored_xpaths then
        assemble latest_doc rest draws snippets
      else
        changed_elements <- xpath latest_doc x ;;
        match changed_elements with
        | [] => assemble latest_doc rest draws snippets
        | changed_element :: _ =>
            let xml_string := Serialize.tostring changed_element in
            let random_name := Str.of_nat (random_int draws) in
            let snippet :=
              {| name := tag ++ "-" ++ random_name;
                 xpath_ := set_xpath;
                 element_ := Str.strip xml_string;
                 full_xpath := full_relative_xpath |} in
            assemble latest_doc rest (draws + 1) (snippets ++ [snippet])%list
        end
  end.

(** [previous_doc] and [latest_doc] are the two configurations as
    [etree.fromstring] parsed them. *)
Definition generate_skillet_from_configs (previous_doc latest_doc : element)
  : result (list snippet) :=
  not_found_xpaths <- collect_not_found (el_children latest_doc) previous_doc [] ;;
  snippets <- assemble latest_doc not_found_xpaths 0 [] ;;
  Ok (order_snippets snippets).

End Skillet.

(** ** Python exceptions outside the walk

    The functions below raise other exceptions than the two of the walk;
    [outcome] is what a call gives: a value or an exception. *)

Inductive py_exn : Type :=
| PyAttributeError                  (* an attribute of None is asked for *)
| PyTypeError                       (* None is iterated or searched *)
| PyIndexError
| PyValueError
| PyKeyError (key : string)
| PanConfigError (msg : string)
| PanoplyException (msg : string).

Inductive outcome (A : Type) : Type :=
| Return (a : A)
| Throw (e : py_exn).

Arguments Return {A} a.
Arguments Throw {A} e.

(** ** [generate_set_cli_from_configs] *)

Section SetCli.

(** pan-python's [PanConfig]: the constructor, which can raise, and
    [set_cli c] for [c.set_cli('set ', xpath='./')], the set commands of a
    configuration, which returns Python's None (here [None]) when the
    xpath selects no node, as for a root without child element. *)
Variable config : Type.
Variable PanConfig : string -> outcome config.
Variable set_cli : config -> outcome (option (list string)).

Definition clean_cmd (cmd : string) : string :=
  Str.replace "vsys vsys1 " ""
    (Str.replace Str.nl " "
       (Str.replace "devices localhost.localdomain " "" cmd)).

(** The loop over [l_set].  The test [cmd not in p_set] raises TypeError
    when [p_set] is None. *)
Fixpoint set_cli_diffs (p_set : option (list string)) (l_set : list string)
         (diffs : list string) : outcome (list string) :=
  match l_set with
  | [] => Return diffs
  | cmd :: rest =>
      match p_set with
      | None => Throw PyTypeError
      | Some p =>
          if negb (existsb (String.eqb cmd) p) && negb (Str.contains "set readonly" cmd)
          then set_cli_diffs p_set rest (diffs ++ [clean_cmd cmd])%list
          else set_cli_diffs p_set rest diffs
      end
  end.

Definition generate_set_cli_from_configs (previous_config latest_config : string)
  : outcome (list string) :=
  match PanConfig previous_config with
  | Throw e => Throw e
  | Return p_config =>
      match PanConfig latest_config with
      | Throw e => Throw e
      | Return l_config =>
          match set_cli p_config with
          | Throw e => Throw e
          | Return p_set =>
              match set_cli l_config with
              | Throw e => Throw e
              | Return None => Throw PyTypeError        (* for cmd in None *)
              | Return (Some l_set) => set_cli_diffs p_set l_set []
              end
          end
      end
  end.

End SetCli.

(** ** Vocabulary of the statements *)

(** [e.iter()]: the element and its descendants, in document order. *)
Fixpoint descendants (e : element) : list element :=
  match e with
  | Element _ _ _ children _ => e :: flat_map descendants children
  end.

(** [s.endswith(suffix)] *)
Definition endswith (suffix s : string) : bool :=
  String.eqb (Str.drop (String.length s - String.length suffix) s) suffix.

(** [q] is the path of a strict descendant of the node at path [p]. *)
Definition descendant_path (p q : string) : Prop :=
  exists rest, q = p ++ "/" ++ rest.

(** A path entry that reads as one XPath step: no slash outside a quoted
    literal, and every literal closed. *)
Definition single_step (s : string) : bool :=
  match XPath.split_steps false s with
  | [s'] => String.eqb s' s && negb (XPath.quote_state false s)
  | _ => false
  end.

(** The path entries the loop of [__check_element] builds for the children
    [es], the first of which has index [index]; a child whose entry cannot be
    built contributes none. *)
Fixpoint child_entries (is_list : bool) (index : nat) (es : list element) : list string :=
  match es with
  | [] => []
  | e :: r =>
      match path_entry is_list index e with
      | Ok s => s :: child_entries is_list (index + 1) r
      | Raise _ => child_entries is_list (index + 1) r
      end
  end.

Fixpoint distinct (l : list string) : bool :=
  match l with
  | [] => true
  | s :: r => negb (existsb (String.eqb s) r) && distinct r
  end.

Definition distinct_steps (l : list string) : bool :=
  forallb single_step l && distinct l.

(** Below [el], siblings never share a path entry.  The children of a node
    are given list entries exactly when they are a list of identical tags. *)
Fixpoint distinct_paths (el : element) : bool :=
  match el with
  | Element _ _ _ children _ =>
      distinct_steps (child_entries (check_children_are_list children) 1 children) &&
      (fix all (cs : list element) : bool :=
         match cs with
         | [] => true
         | c :: r => distinct_paths c && all r
         end) children
  end.

(** The same for a document, whose children are addressed by their tag. *)
Definition document_distinct_paths (doc : element) : bool :=
  distinct_steps (map el_tag (el_children doc)) &&
  forallb distinct_paths (el_children doc).

(** The entry [s] is a valid step that selects [c] first among [siblings]. *)
Definition selects_first (s : string) (siblings : list element) (c : element) : bool :=
  single_step s &&
  match XPath.parse_step s with
  | Some st =>
      match XPath.select st siblings with
      | c' :: _ => element_eqb c' c
      | [] => false
      end
  | None => false
  end.

Fixpoint entries_select_first (siblings : list element) (index : nat) (es : list element)
  : bool :=
  match es with
  | [] => true
  | e :: r =>
      match path_entry false index e with
      | Ok s => selects_first s siblings e
      | Raise _ => false
      end && entries_select_first siblings (index + 1) r
  end.

(** Below [el], wherever the children of a node are not a list of identical
    tags, the entry of each child selects that child before its siblings. *)
Fixpoint self_addressed (el : element) : bool :=
  match el with
  | Element _ _ _ children _ =>
      if check_children_are_list children then true
      else
        entries_select_first children 1 children &&
        (fix all (cs : list element) : bool :=
           match cs with
           | [] => true
           | c :: r => self_addressed c && all r
           end) children
  end.

Definition document_self_addressed (doc : element) : bool :=
  forallb (fun c => selects_first (el_tag c) (el_children doc) c && self_addressed c)
          (el_children doc).

(** What a snippet carries besides its random name. *)
Definition snippet_body (s : snippet) : string * string * string :=
  (xpath_ s, element_ s, full_xpath s).

(** The container path of a changed xpath, as the second loop of
    [generate_skillet_from_configs] computes it. *)
Definition container_path (x : string) : string :=
  Str.sub_prefix "./" "/config/" (fst (split_xpath x)).

(** A changed xpath the second loop turns into a snippet: its container is
    not ignored and it resolves to a node of the latest document. *)
Definition emitted (latest_doc : element) (x : string) : bool :=
  negb (existsb (String.eqb (container_path x)) ignored_xpaths) &&
  match xpath latest_doc x with
  | Ok (_ :: _) => true
  | _ => false
  end.

(** The container path of the built-in admin account, whose changes are
    never to be emitted. *)
Definition admin_account_path : string :=
  "/config/mgt-config/users/entry[@name=" ++ Str.dq ++ "admin" ++ Str.dq ++ "]".

Definition expected_body (latest_doc : element) (x : string) : string * string * string :=
  (container_path x,
   match xpath latest_doc x with
   | Ok (changed_element :: _) => Str.strip (Serialize.tostring changed_element)
   | _ => ""
   end,
   Str.sub_prefix "/config/" "\./" x).

(** [built el xp leaf q]: starting from [el] at the xpath [xp], the walk
    builds the xpath [q] for the element [leaf], going down through children
    by their path entries. *)
Inductive built : element -> string -> element -> string -> Prop :=
| built_here (el : element) (xp : string) : built el xp el xp
| built_below (el : element) (xp : string) (i : nat) (c : element) (s : string)
              (leaf : element) (q : string) :
    nth_error (el_children el) i = Some c ->
    path_entry (check_children_are_list (el_children el)) (S i) c = Ok s ->
    built c (xp ++ "/" ++ s) leaf q ->
    built el xp leaf q.

(** [q] is the xpath the walk of [generate_skillet_from_configs] builds for
    the element [leaf] of the document [doc]. *)
Definition xpath_built_for (doc leaf : element) (q : string) : Prop :=
  exists top, In top (el_children doc) /\ built top ("." ++ "/" ++ el_tag top) leaf q.

(** [reported pc el xp q]: walking [el] at the xpath [xp] against the
    previous document [pc] can report the path [q].  A path is reported
    where the walk stops: at a node whose xpath resolves to nothing in [pc],
    or at a childless node whose text differs from that of the first node
    its xpath resolves to.  Below a node that is found, the walk goes on in
    its children, entered by their path entries. *)
Inductive reported (pc : element) : element -> string -> string -> Prop :=
| reported_absent (el : element) (xp : string) :
    xpath pc xp = Ok [] ->
    reported pc el xp xp
| reported_text (el : element) (xp : string) (found : element) (others : list element) :
    xpath pc xp = Ok (found :: others) ->
    el_children el = [] ->
    el_text found <> el_text el ->
    reported pc el xp xp
| reported_below (el : element) (xp : string) (found : element) (others : list element)
                 (i : nat) (c : element) (s q : string) :
    xpath pc xp = Ok (found :: others) ->
    nth_error (el_children el) i = Some c ->
    path_entry (check_children_are_list (el_children el)) (S i) c = Ok s ->
    reported pc c (xp ++ "/" ++ s) q ->
    reported pc el xp q.

(** What a call of [check_element] on [el] returns is its [not_founds]
    followed by paths reported for [el]. *)
Definition sound_at (Action : Type) (diff_trees : element -> element -> list Action)
           (pc el : element) : Prop :=
  forall xp nf r,
    check_element Action diff_trees el xp pc nf = Ok r ->
    exists new, r = (nf ++ new)%list /\ Forall (reported pc el xp) new.

(** The path made of [xp] and the steps [steps] after it. *)
Fixpoint path_from (xp : string) (steps : list string) : string :=
  match steps with
  | [] => xp
  | s :: r => path_from (xp ++ "/" ++ s) r
  end.

(** ** Sample collaborators and documents *)

Module Sample.

(** A differ that reports one action exactly when the two trees differ. *)
Definition tree_differ (left right : element) : list unit :=
  if element_eqb left right then [] else [tt].

Definition draws (k : nat) : nat := 4242 + k.

Definition leaf (tag : string) (text : string) : element :=
  Element tag [] (Some text) [] None.

Definition empty (tag : string) : element := Element tag [] None [] None.

Definition node (tag : string) (children : list element) : element :=
  Element tag [] None children None.

Definition entry (nm : string) (children : list element) : element :=
  Element "entry" [("name", nm)] None children None.

(** Scenario A: config/network, then config/network/interface/entry eth1. *)
Definition previous_A : element := node "config" [empty "network"].
Definition latest_A : element :=
  node "config" [node "network" [node "interface" [entry "eth1" []]]].

(** Scenario B: a list of three entries a, b, c. *)
Definition list_B : element := node "address" [entry "a" []; entry "b" []; entry "c" []].
Definition config_B : element := node "config" [list_B].

(** Two children of x share the tag a, with b between them. *)
Definition repeated_tag : element :=
  node "config" [node "x" [leaf "a" "1"; empty "b"; leaf "a" "2"]].

Definition previous_nested : element :=
  node "config" [node "x" [node "a" [leaf "c" "old"]]].
Definition latest_nested : element :=
  node "config" [node "x" [node "a" [leaf "c" "new"]; empty "b"; leaf "a" "zzz"]].

(** A change of text and a new node, under distinct tags. *)
Definition latest_distinct : element :=
  node "config" [node "x" [node "a" [leaf "c" "new"]; empty "b"]].

(** A document with an interface entry and a list of addresses. *)
Definition config_full : element :=
  node "config"
    [node "network" [node "interface" [entry "eth1" [leaf "ip" "10.0.0.1"]]];
     list_B;
     node "deviceconfig" [leaf "hostname" "fw"; leaf "domain" "lab"]].

(** A list of members, the second of which lost its text. *)
Definition members_before : element := node "x" [leaf "m" "1"; leaf "m" "2"].
Definition members_after : element := node "x" [leaf "m" "1"; empty "m"].
Definition previous_members : element := node "config" [members_before].
Definition latest_members : element := node "config" [members_after].

(** A new rule that carries a uuid. *)
Definition previous_rules : element := node "config" [empty "rulebase"].
Definition rule_r1 : element :=
  Element "entry" [("name", "r1"); ("uuid", "u-1")] None [leaf "action" "allow"] None.
Definition latest_rules : element := node "config" [node "rulebase" [rule_r1]].

(** A snippet for a custom URL category of the shared profiles. *)
Definition url_category : snippet :=
  {| name := "entry-7";
     xpath_ := "/config/shared/profiles/custom-url-category";
     element_ := "<entry name=" ++ Str.dq ++ "blocked" ++ Str.dq ++ "/>";
     full_xpath := "./shared/profiles/custom-url-category/entry[@name="
                   ++ Str.dq ++ "blocked" ++ Str.dq ++ "]" |}.

(** Scenario D: a security rule and a shared tag. *)
Definition rule_snippet : snippet :=
  {| name := "entry-1";
     xpath_ := "/config/devices/entry/vsys/entry/rulebase/security/rules";
     element_ := "<entry name=" ++ Str.dq ++ "allow-web" ++ Str.dq ++ "/>";
     full_xpath := "./devices/entry/vsys/entry/rulebase/security/rules/entry[@name="
                   ++ Str.dq ++ "allow-web" ++ Str.dq ++ "]" |}.
Definition tag_snippet : snippet :=
  {| name := "entry-2";
     xpath_ := "/config/shared/tag";
     element_ := "<entry name=" ++ Str.dq ++ "web" ++ Str.dq ++ "/>";
     full_xpath := "./shared/tag/entry[@name=" ++ Str.dq ++ "web" ++ Str.dq ++ "]" |}.

(** A change below the built-in admin account, one that resolves and one
    that does not. *)
Definition latest_users : element :=
  node "config"
    [node "mgt-config" [node "users" [entry "admin" [leaf "phash" "x"]]];
     node "shared" [leaf "tag" "t"]].
Definition changes_users : list string :=
  [ "./mgt-config/users/entry[@name=" ++ Str.dq ++ "admin" ++ Str.dq ++ "]/phash";
    "./shared/tag";
    "./shared/missing" ].

(** A change below the built-in admin account, a list member whose text
    is padded with blanks, and a new tag.  The walk builds the xpath of the
    member from its stripped text, so that the xpath finds no node with
    that text in the latest document. *)
Definition previous_skips : element :=
  node "config"
    [node "mgt-config" [node "users" [entry "admin" [leaf "phash" "old"]]];
     node "x" [leaf "m" "a"; leaf "m" "b"];
     empty "shared"].
Definition latest_skips : element :=
  node "config"
    [node "mgt-config" [node "users" [entry "admin" [leaf "phash" "new"]]];
     node "x" [leaf "m" "a"; leaf "m" " c "];
     node "shared" [leaf "tag" "t"]].
Definition changes_skips : list string :=
  [ "./mgt-config/users/entry[@name=" ++ Str.dq ++ "admin" ++ Str.dq ++ "]/phash";
    "./x/m[text()=" ++ Str.dq ++ "c" ++ Str.dq ++ "]";
    "./shared/tag" ].

(** A stand-in for [PanConfig]: it accepts every text, gives no command
    list for the configuration without child element, and fixed lists for
    two named configurations. *)
Definition PanConfig (config : string) : outcome string := Return config.

Definition set_cli (config : string) : outcome (option (list string)) :=
  if String.eqb config "<config/>" then Return None
  else if String.eqb config "previous"
  then Return (Some [ "set deviceconfig system hostname fw" ])
  else Return (Some
         [ "set deviceconfig system hostname fw";
           "set devices localhost.localdomain vsys vsys1 address a ip-netmask 10.0.0.1";
           "set readonly max-internal-id 5" ]).

End Sample.

(** * The functions that talk to the device

    The calls to the device (pan-python's [PanXapi]) are outside the
    repository; what they answer is an input of the model.  Python
    exceptions are those of [py_exn], results those of [outcome]. *)

(** ** [sanitize_element] *)

Definition starts_with_space (s : string) : bool :=
  match s with
  | String d _ => Str.isspace d
  | "" => false
  end.

(** [re.sub(r'\n\s+', '', element)]: a line feed that is followed by white
    space is removed together with all the white space after it.
    [dropping] tells that the scan is inside such a run.  (White space is
    the ASCII part of what the pattern class matches.) *)
Fixpoint drop_newline_runs (dropping : bool) (s : string) : string :=
  match s with
  | "" => ""
  | String c r =>
      if dropping && Str.isspace c then drop_newline_runs true r
      else if Ascii.eqb c Str.NEWLINE && starts_with_space r then drop_newline_runs true r
      else String c (drop_newline_runs false r)
  end.

Definition sanitize_element (element : string) : string :=
  let element := drop_newline_runs false element in
  Str.replace Str.nl "" element.

(** The characters of [s] that satisfy [p], in order. *)
Fixpoint keep (p : ascii -> bool) (s : string) : string :=
  match s with
  | "" => ""
  | String c r => if p c then String c (keep p r) else keep p r
  end.

(** ** Queries on the answers of the device *)

(** [e.find('./tag')]: the first child with that tag. *)
Definition find_child (tag : string) (e : element) : option element :=
  hd_error (filter (fun c => String.eqb (el_tag c) tag) (el_children e)).

(** [e.findall('.//tag')]: the elements below [e] with that tag, in
    document order. *)
Definition findall_below (tag : string) (e : element) : list element :=
  filter (fun c => String.eqb (el_tag c) tag) (flat_map descendants (el_children e)).

(** [e.find('.//tag')] *)
Definition find_below (tag : string) (e : element) : option element :=
  hd_error (findall_below tag e).

(** [s.split(c)] for a separator of one character. *)
Fixpoint split_on (c : ascii) (s : string) : list string :=
  match s with
  | "" => [""]
  | String a r =>
      if Ascii.eqb a c then "" :: split_on c r
      else match split_on c r with
           | h :: t => String a h :: t
           | [] => [String a ""]
           end
  end.

(** ** [check_content_updates] *)

Section ContentUpdates.

(** Python's [int] on a string: [None] stands for ValueError. *)
Variable int : string -> option Z.

Record latest : Type := Latest {
  latest_version : string;
  latest_version_first : Z;
  latest_version_second : Z;
  latest_version_current : option string
}.

Definition no_version : latest :=
  {| latest_version := "";
     latest_version_first := 0;
     latest_version_second := 0;
     latest_version_current := Some "no" |}.

(** The body of the loop over the entries. *)
Definition consider (st : latest) (entry : element) : outcome latest :=
  match find_child "version" entry with
  | None => Throw PyAttributeError
  | Some version_element =>
      match find_child "current" entry with
      | None => Throw PyAttributeError
      | Some current_element =>
          match el_text version_element with
          | None => Throw PyAttributeError            (* version.split on None *)
          | Some version =>
              let version_parts := split_on "-" version in
              match int (hd "" version_parts) with
              | None => Throw PyValueError
              | Some version_first =>
                  match tl version_parts with
                  | [] => Throw PyIndexError
                  | second :: _ =>
                      match int second with
                      | None => Throw PyValueError
                      | Some version_second =>
                          if (version_first >? latest_version_first st)%Z
                             && (version_second >? latest_version_second st)%Z
                          then Return {| latest_version := version;
                                         latest_version_first := version_first;
                                         latest_version_second := version_second;
                                         latest_version_current := el_text current_element |}
                          else Return st
                      end
                  end
              end
          end
      end
  end.

Fixpoint scan_entries (entries : list element) (st : latest) : outcome latest :=
  match entries with
  | [] => Return st
  | entry :: rest =>
      match consider st entry with
      | Return st' => scan_entries rest st'
      | Throw e => Throw e
      end
  end.

(** [op] is what the request to the device gave: [None] when it raised
    PanXapiError, else the root element of the answer ([None] when there is
    none).  The result [None] is Python's None. *)
Definition check_content_updates (op : option (option element)) : outcome (option string) :=
  match op with
  | None => Return None
  | Some None => Throw PyAttributeError
  | Some (Some er) =>
      match scan_entries (findall_below "entry" er) no_version with
      | Throw e => Throw e
      | Return st =>
          if text_eqb (latest_version_current st) (Some "yes")
          then Return None
          else Return (Some (latest_version st))
      end
  end.

(** The two numbers of the version of an entry, when it has them. *)
Definition version_numbers (entry : element) : option (Z * Z) :=
  match find_child "version" entry with
  | Some version_element =>
      match el_text version_element with
      | Some version =>
          match split_on "-" version with
          | first :: second :: _ =>
              match int first, int second with
              | Some a, Some b => Some (a, b)
              | _, _ => None
              end
          | _ => None
          end
      | None => None
      end
  | None => None
  end.

(** The texts of the version and of the current child of an entry. *)
Definition entry_version (entry : element) : option string :=
  match find_child "version" entry with
  | Some version_element => el_text version_element
  | None => None
  end.

Definition entry_current (entry : element) : option string :=
  match find_child "current" entry with
  | Some current_element => el_text current_element
  | None => None
  end.

(** No entry has both numbers above [a] and [b]. *)
Definition unsurpassed (entries : list element) (a b : Z) : Prop :=
  forall e a' b', In e entries -> version_numbers e = Some (a', b') ->
    (a' <= a)%Z \/ (b' <= b)%Z.

End ContentUpdates.

(** ** [wait_for_job] and [wait_for_device_ready]

    A run of either loop is determined by what each pass observes: the
    answer of the device and the reading of the clock.  The model runs the
    loop over a finite list of passes; [None] means that the loop is still
    going after the last of them. *)

Section Waiting.

Variable time : Type.
(** [later a b]: the reading [a] is greater than [b]. *)
Variable later : time -> time -> bool.

Inductive job_pass : Type :=
| JobOpRaises                      (* the request raises PanXapiError *)
| JobAnswer (status : string) (element_result : option element) (now : time).

Fixpoint wait_for_job (timeout_mark : time) (passes : list job_pass)
  : option (outcome bool) :=
  match passes with
  | [] => None
  | JobOpRaises :: _ => Some (Return false)
  | JobAnswer status element_result now :: rest =>
      if String.eqb status "success" then
        match element_result with
        | None => Some (Throw PyAttributeError)
        | Some job_element =>
            match find_below "status" job_element with
            | Some job_status_element =>
                if text_eqb (el_text job_status_element) (Some "FIN")
                then Some (Return true)
                else wait_for_job timeout_mark rest
            | None => Some (Return false)
            end
        end
      else if later now timeout_mark then Some (Return false)
      else wait_for_job timeout_mark rest
  end.

Inductive ready_pass : Type :=
| ReadyLoginRaises                 (* the request raises TargetLoginException *)
| ReadyOpRaises (now : time)       (* the request raises PanXapiError *)
| ReadyAnswer (status : string) (resp : option string) (now : time).

Fixpoint wait_for_device_ready (timeout_mark : time) (passes : list ready_pass)
  : option (outcome bool) :=
  match passes with
  | [] => None
  | ReadyLoginRaises :: _ => Some (Return false)
  | ReadyOpRaises now :: rest =>
      if later now timeout_mark then Some (Return false)
      else wait_for_device_ready timeout_mark rest
  | ReadyAnswer status resp now :: rest =>
      if String.eqb status "success" then
        match resp with
        | None => Some (Throw PyAttributeError)          (* resp.strip() on None *)
        | Some r =>
            if String.eqb (Str.strip r) "yes" then Some (Return true)
            else if later now timeout_mark then Some (Return false)
            else wait_for_device_ready timeout_mark rest
        end
      else if later now timeout_mark then Some (Return false)
      else wait_for_device_ready timeout_mark rest
  end.

(** A pass in which the device answers with success and a status that is
    not FIN: the job is still going. *)
Definition job_running (p : job_pass) : bool :=
  match p with
  | JobAnswer status (Some job_element) _ =>
      String.eqb status "success"
      && match find_below "status" job_element with
         | Some job_status_element =>
             negb (text_eqb (el_text job_status_element) (Some "FIN"))
         | None => false
         end
  | _ => false
  end.

(** The clock reading of a pass, when the pass reads the clock. *)
Definition ready_clock (p : ready_pass) : option time :=
  match p with
  | ReadyLoginRaises => None
  | ReadyOpRaises now => Some now
  | ReadyAnswer _ _ now => Some now
  end.

End Waiting.

(** ** Further vocabulary *)

(** Whether the full path of [s] contains one of the [prefixes]. *)
Definition in_class (prefixes : list string) (s : snippet) : bool :=
  existsb (fun x => Str.contains x (full_xpath s)) prefixes.

(** Every character of [s] satisfies [p]. *)
Fixpoint all_chars (p : ascii -> bool) (s : string) : bool :=
  match s with
  | "" => true
  | String c r => p c && all_chars p r
  end.

(** Characters that neither cut a path nor open a literal. *)
Definition mild_char (c : ascii) : bool :=
  negb (Ascii.eqb c "/") && negb (Ascii.eqb c Str.DQUOTE).

(** Characters of a plain name: no slash, double quote, opening bracket,
    equals sign or line feed (XML names have none of them). *)
Definition plain_char (c : ascii) : bool :=
  mild_char c && negb (Ascii.eqb c "[") && negb (Ascii.eqb c "=")
  && negb (Ascii.eqb c Str.NEWLINE).

Definition not_newline (c : ascii) : bool := negb (Ascii.eqb c Str.NEWLINE).

(** Characters of a plain value: no double quote and no line feed. *)
Definition value_char (c : ascii) : bool :=
  negb (Ascii.eqb c Str.DQUOTE) && negb (Ascii.eqb c Str.NEWLINE).

(** An element with a plain tag, plain attribute names, and plain attribute
    values and text. *)
Definition plain_names (e : element) : bool :=
  all_chars plain_char (el_tag e)
  && forallb (fun kv => all_chars plain_char (fst kv) && all_chars value_char (snd kv))
             (el_attrib e)
  && match el_text e with
     | Some t => all_chars value_char t
     | None => true
     end.

(** Whether a scan of [s] started in state [inq] meets no slash outside a
    literal. *)
Fixpoint no_cut (inq : bool) (s : string) : bool :=
  match s with
  | "" => true
  | String c r =>
      negb (Ascii.eqb c "/" && negb inq)
      && no_cut (if Ascii.eqb c Str.DQUOTE then negb inq else inq) r
  end.

(** A piece of a step: started outside a literal, it is not cut and ends
    outside a literal. *)
Definition piece (s : string) : Prop :=
  no_cut false s = true /\ XPath.quote_state false s = false.

(** ** Further samples *)

Module Fixture.

(** An address whose name contains a slash. *)
Definition slash_entry : element :=
  Element "entry" [("name", "net/24")] None [] None.

(** An entry of a candidate configuration, with the attributes the device
    adds to changed nodes. *)
Definition dirty_entry : element :=
  Element "entry" [("name", "rule1"); ("admin", "admin"); ("dirtyId", "4")] None [] None.

(** A configuration with two new top-level nodes and an empty one to
    compare with. *)
Definition empty_config : element := Element "config" [] None [] None.
Definition two_nodes : element :=
  Element "config" [] None
    [Element "shared" [] None [Element "tag" [] None [] None] None;
     Element "devices" [] None [] None] None.

(** Python's int on the strings of decimal digits (versions are made of
    such strings); every other string is refused here. *)
Definition int_of_digits (s : string) : option Z :=
  match s with
  | "" => None
  | _ => if Str.all_digits s then Some (Z.of_nat (Str.to_nat s)) else None
  end.

(** An answer to the check for content updates. *)
Definition update (version current : string) : element :=
  Element "entry" []
    None
    [Element "version" [] (Some version) [] None;
     Element "current" [] (Some current) [] None] None.

Definition updates : element :=
  Element "response" [("status", "success")] None
    [Element "result" [] None
       [Element "content-updates" [] None
          [update "8300-6100" "no"; update "8320-6300" "yes"; update "8310-6200" "no"]
          None] None] None.

(** The same answer when none of the updates is installed, and an answer
    whose only entry has a version that starts with a zero. *)
Definition new_updates : element :=
  Element "response" [("status", "success")] None
    [Element "result" [] None
       [Element "content-updates" [] None
          [update "8300-6100" "no"; update "8320-6300" "no"; update "8310-6200" "no"]
          None] None] None.

Definition no_updates : element :=
  Element "response" [("status", "success")] None
    [Element "result" [] None
       [Element "content-updates" [] None [update "0-6100" "yes"] None] None] None.

(** An entry of such an answer without version. *)
Definition broken_updates : element :=
  Element "response" [] None
    [Element "result" [] None
       [update "8300-6100" "no";
        Element "entry" [] None [Element "current" [] (Some "no") [] None] None]
       None] None.

(** The answer of the device about a job, with the given status. *)
Definition job (status : string) : element :=
  Element "result" [] None
    [Element "job" [] None
       [Element "id" [] (Some "12") [] None;
        Element "status" [] (Some status) [] None;
        Element "progress" [] (Some "40") [] None] None] None.

End Fixture.

(** * Properties *)

(** ** Elements: induction and equality *)

Lemma element_rect' (P : element -> Prop)
  (step : forall tag attrib text children tail,
      Forall P children -> P (Element tag attrib text children tail)) :
  forall e, P e.
Proof.
  fix IH 1. intros [tag attrib text children tail].
  apply step. induction children as [|c r IHr]; constructor.
  - apply IH.
  - exact IHr.
Qed.

Lemma text_eqb_eq (a b : option string) : text_eqb a b = true <-> a = b.
Proof.
  destruct a as [x|], b as [y|]; simpl; try (split; congruence).
  rewrite String.eqb_eq. split; congruence.
Qed.

Lemma text_eqb_refl (a : option string) : text_eqb a a = true.
Proof. apply text_eqb_eq. reflexivity. Qed.

Lemma attrib_eqb_eq (a b : list (string * string)) : attrib_eqb a b = true <-> a = b.
Proof.
  revert b. induction a as [|[k v] a IH]; intros [|[k' v'] b]; simpl;
    try (split; congruence).
  rewrite !andb_true_iff, !String.eqb_eq.
  change ((fix go (a b : list (string * string)) : bool :=
             match a, b with
             | [], [] => true
             | (k, v) :: a', (k', v') :: b' => String.eqb k k' && String.eqb v v' && go a' b'
             | _, _ => false
             end) a b) with (attrib_eqb a b).
  rewrite IH. split.
  - intros [[-> ->] ->]. reflexivity.
  - intros H. inversion H. auto.
Qed.

Lemma element_eqb_eq (a b : element) : element_eqb a b = true <-> a = b.
Proof.
  revert b. induction a as [t at_ x cs tl IH] using element_rect'.
  intros [t' at' x' cs' tl']. simpl.
  rewrite !andb_true_iff, String.eqb_eq, attrib_eqb_eq, !text_eqb_eq.
  assert (Hcs : forall cs',
             (fix all2 (l l' : list element) {struct l} : bool :=
                match l, l' with
                | [], [] => true
                | c :: r, c' :: r' => element_eqb c c' && all2 r r'
                | _, _ => false
                end) cs cs' = true <-> cs = cs').
  { clear - IH. induction IH as [|c r Hc _ IHr]; intros [|c' r'];
      try (split; congruence).
    rewrite andb_true_iff, Hc, IHr. split.
    - intros [-> ->]. reflexivity.
    - intros H. inversion H. auto. }
  rewrite Hcs. split.
  - intros [[[[-> ->] ->] ->] ->]. reflexivity.
  - intros H. inversion H. auto.
Qed.

Lemma element_eqb_refl (a : element) : element_eqb a a = true.
Proof. apply element_eqb_eq. reflexivity. Qed.

(** ** Ordering a single snippet *)

Lemma snippet_eqb_eq (a b : snippet) : snippet_eqb a b = true <-> a = b.
Proof.
  destruct a, b. unfold snippet_eqb. simpl.
  rewrite !andb_true_iff, !String.eqb_eq. split.
  - intros [[[-> ->] ->] ->]. reflexivity.
  - intros H. inversion H. auto.
Qed.

Lemma snippet_in_In (s : snippet) (l : list snippet) : snippet_in s l = true <-> In s l.
Proof.
  unfold snippet_in. rewrite existsb_exists. split.
  - intros [x [Hx E]]. apply snippet_eqb_eq in E. subst. exact Hx.
  - intros H. exists s. split; [exact H|]. apply snippet_eqb_eq. reflexivity.
Qed.

(** The number of prefixes of [l] contained in the full path of [s]. *)
Definition matching (l : list string) (s : snippet) : nat :=
  List.length (filter (fun x => Str.contains x (full_xpath s)) l).

Lemma collect_single (s : snippet) (l : list string) (acc : list snippet) :
  fold_left (fun acc x => (acc ++ filter_snippets_by_xpath [s] x)%list) l acc
  = (acc ++ repeat s (matching l s))%list.
Proof.
  revert acc. induction l as [|x l IH]; intros acc; simpl.
  - unfold matching. simpl. symmetry. apply app_nil_r.
  - rewrite IH. unfold matching, filter_snippets_by_xpath. simpl.
    destruct (Str.contains x (full_xpath s)); simpl.
    + rewrite <- app_assoc. reflexivity.
    + rewrite app_nil_r. reflexivity.
Qed.

Lemma append_post_known (s : snippet) (j : nat) (acc : list snippet) :
  In s acc ->
  fold_left (fun acc ps => if negb (snippet_in ps acc) then (acc ++ [ps])%list else acc)
            (repeat s j) acc = acc.
Proof.
  intros Hin. induction j as [|j IH]; simpl; [reflexivity|].
  apply snippet_in_In in Hin. rewrite Hin. simpl. exact IH.
Qed.

(** A list of one snippet is ordered into as many copies of it as priority
    prefixes occur in its full path, and one copy when none does. *)
Lemma order_snippets_single (s : snippet) :
  order_snippets [s] = repeat s (Nat.max 1 (matching xpaths s)).
Proof.
  unfold order_snippets. rewrite !collect_single. simpl app. cbn [fold_left].
  destruct (matching xpaths s) as [|k].
  - simpl repeat at 1 2. cbn [snippet_in existsb negb andb].
    destruct (matching post_xpaths s) as [|j].
    + reflexivity.
    + assert (Hin : snippet_in s (repeat s (S j)) = true)
        by (apply snippet_in_In; simpl; auto).
      rewrite Hin. cbn [negb repeat fold_left snippet_in existsb app].
      apply append_post_known. simpl. auto.
  - assert (Hin : snippet_in s (repeat s (S k)) = true)
      by (apply snippet_in_In; simpl; auto).
    rewrite Hin. cbn [negb andb].
    rewrite append_post_known by (simpl; auto).
    destruct k; reflexivity.
Qed.

(** Scenario D: the tag entry is placed before the rulebase entry. *)
Lemma scenario_D_tag_before_rule :
  order_snippets [Sample.rule_snippet; Sample.tag_snippet]
  = [Sample.tag_snippet; Sample.rule_snippet].
Proof. reflexivity. Qed.

(** The concatenated literal of the priority list matches no path with
    single slashes: a shared address is not in a priority class and keeps
    its place among the unmatched snippets. *)
Lemma shared_catch_all_is_absent :
  existsb (String.eqb "/shared/") xpaths = false
  /\ existsb (String.eqb "/tag/entry") xpaths = false
  /\ existsb (String.eqb "/shared//tag/entry") xpaths = true.
Proof. repeat split; reflexivity. Qed.

(** ** [__split_xpath] *)

(** A slash inside a quoted attribute value does not split the path. *)
Lemma split_xpath_quoted_slash :
  split_xpath ("./address/entry[@name=" ++ Str.dq ++ "a/b" ++ Str.dq ++ "]/ip-netmask")
  = ("./address/entry[@name=" ++ Str.dq ++ "a/b" ++ Str.dq ++ "]", "ip-netmask").
Proof. reflexivity. Qed.

(** ** The scenarios of the specification *)

Section Scenarios.

Variable Action : Type.
Variable diff_trees : element -> element -> list Action.
Variable random_int : nat -> nat.

Let generate := generate_skillet_from_configs Action diff_trees random_int.

(** C2, as amended.  In scenario A the interface node is absent from the
    previous document, so the walk stops there: the diff returns exactly one
    snippet, whose container path is /config/network, whose full path ends in
    /network/interface and whose element is the whole interface node with
    its entry inside. *)
Theorem scenario_A_new_parent_is_emitted :
  exists s : snippet,
    generate Sample.previous_A Sample.latest_A = Ok [s] /\
    name s = "interface-" ++ Str.of_nat (random_int 0) /\
    xpath_ s = "/config/network" /\
    endswith "/network/interface" (full_xpath s) = true /\
    element_ s = "<interface><entry name=" ++ Str.dq ++ "eth1" ++ Str.dq ++ "/></interface>".
Proof.
  exists {| name := "interface-" ++ Str.of_nat (random_int 0);
            xpath_ := "/config/network";
            element_ := Serialize.tostring
                          (Sample.node "interface" [Sample.entry "eth1" []]);
            full_xpath := "./network/interface" |}.
  split; [|repeat split; reflexivity].
  assert (Hc : collect_not_found Action diff_trees (el_children Sample.latest_A)
                 Sample.previous_A [] = Ok ["./network/interface"]) by reflexivity.
  unfold generate, generate_skillet_from_configs. rewrite Hc. cbn [bind].
  match goal with
  | |- bind ?m _ = Ok [?s] => assert (Ha : m = Ok [s]) by reflexivity; rewrite Ha
  end.
  cbn [bind]. rewrite order_snippets_single. reflexivity.
Qed.

(** C7, at its failing input: the element of the snippet emitted for a new
    rule still carries the uuid attribute of the rule; [clean_uuid] is never
    applied by [generate_skillet_from_configs]. *)
Theorem new_rule_keeps_its_uuid :
  exists s : snippet,
    generate Sample.previous_rules Sample.latest_rules = Ok [s] /\
    element_ s = Serialize.tostring Sample.rule_r1 /\
    Str.contains ("uuid=" ++ Str.dq ++ "u-1" ++ Str.dq) (element_ s) = true.
Proof.
  exists {| name := "entry-" ++ Str.of_nat (random_int 0);
            xpath_ := "/config/rulebase";
            element_ := Serialize.tostring Sample.rule_r1;
            full_xpath := "./rulebase/entry[@name=" ++ Str.dq ++ "r1" ++ Str.dq ++ "]" |}.
  split; [|split; reflexivity].
  assert (Hc : collect_not_found Action diff_trees (el_children Sample.latest_rules)
                 Sample.previous_rules []
               = Ok ["./rulebase/entry[@name=" ++ Str.dq ++ "r1" ++ Str.dq ++ "]"])
    by reflexivity.
  unfold generate, generate_skillet_from_configs. rewrite Hc. cbn [bind].
  match goal with
  | |- bind ?m _ = Ok [?s] => assert (Ha : m = Ok [s]) by reflexivity; rewrite Ha
  end.
  cbn [bind]. rewrite order_snippets_single. reflexivity.
Qed.

(** C9, at its failing input: in a list of members that differs from the
    previous one, a member without attributes and without text makes the
    walk raise AttributeError instead of giving it its index. *)
Theorem list_member_without_text_raises :
  diff_trees Sample.members_before Sample.members_after <> [] ->
  generate Sample.previous_members Sample.latest_members = Raise AttributeError.
Proof.
  intros Hdiff.
  destruct (diff_trees Sample.members_before Sample.members_after) as [|a l] eqn:E.
  - contradiction.
  - unfold generate, generate_skillet_from_configs. simpl.
    change (Element "x" [] None [Sample.leaf "m" "1"; Sample.empty "m"] None)
      with Sample.members_after.
    rewrite E. reflexivity.
Qed.

End Scenarios.

(** C2, as stated, fails: the only snippet of scenario A has neither a
    container path ending in /network/interface nor the bare entry as its
    element. *)
Lemma scenario_A_not_the_entry :
  exists s : snippet,
    generate_skillet_from_configs unit Sample.tree_differ Sample.draws
      Sample.previous_A Sample.latest_A = Ok [s] /\
    endswith "/network/interface" (xpath_ s) = false /\
    String.eqb (element_ s) ("<entry name=" ++ Str.dq ++ "eth1" ++ Str.dq ++ "/>") = false.
Proof.
  exists {| name := "interface-4242";
            xpath_ := "/config/network";
            element_ := Serialize.tostring
                          (Sample.node "interface" [Sample.entry "eth1" []]);
            full_xpath := "./network/interface" |}.
  repeat split; reflexivity.
Qed.

Lemma list_member_without_text_raises_witness :
  Sample.tree_differ Sample.members_before Sample.members_after <> [] /\
  generate_skillet_from_configs unit Sample.tree_differ Sample.draws
    Sample.previous_members Sample.latest_members = Raise AttributeError.
Proof.
  assert (H : Sample.tree_differ Sample.members_before Sample.members_after <> [])
    by (vm_compute; discriminate).
  split; [exact H|].
  exact (list_member_without_text_raises unit Sample.tree_differ Sample.draws H).
Defined.

(** ** [__clean_uuid] *)

Lemma clean_uuid_None : clean_uuid None = None.
Proof. reflexivity. Qed.

(** The node handed to [clean_uuid] keeps its own uuid: only its
    descendants are visited. *)
Lemma clean_uuid_keeps_own_uuid :
  clean_uuid (Some Sample.rule_r1) = Some Sample.rule_r1.
Proof. reflexivity. Qed.

(** ** [__order_snippets] *)

(** C5, at its failing input: a snippet whose full path contains two of the
    priority prefixes (/shared/profiles and /profiles/custom-url-category)
    is output once for each of them. *)
Theorem order_snippets_repeats_a_snippet :
  order_snippets [Sample.url_category] = [Sample.url_category; Sample.url_category].
Proof. reflexivity. Qed.

(** ** [generate_set_cli_from_configs] *)

Lemma existsb_eqb_In (x : string) (l : list string) :
  existsb (String.eqb x) l = true <-> In x l.
Proof.
  rewrite existsb_exists. split.
  - intros [y [Hy E]]. apply String.eqb_eq in E. subst. exact Hy.
  - intros H. exists x. split; [exact H|]. apply String.eqb_refl.
Qed.

Lemma count_append (c : ascii) (a b : string) :
  Str.count c (a ++ b) = Str.count c a + Str.count c b.
Proof.
  induction a as [|x a IH]; simpl; [reflexivity|]. rewrite IH. lia.
Qed.




Section SetCliProperties.

Variable config : Type.
Variable PanConfig : string -> outcome config.
Variable set_cli : config -> outcome (option (list string)).



(** Without a list of commands the call raises: for the latest
    configuration always, for the previous one as soon as the latest has a
    command. *)
Lemma set_cli_none_raises (previous_config latest_config : string)
      (p_config l_config : config) (p_set : option (list string))
      (cmd : string) (l_set : list string) :
  PanConfig previous_config = Return p_config ->
  PanConfig latest_config = Return l_config ->
  (set_cli p_config = Return p_set /\ set_cli l_config = Return None)
  \/ (set_cli p_config = Return None /\ set_cli l_config = Return (Some (cmd :: l_set))) ->
  generate_set_cli_from_configs config PanConfig set_cli previous_config latest_config
  = Throw PyTypeError.
Proof.
  intros Hp Hl [[Hps Hls]|[Hps Hls]]; unfold generate_set_cli_from_configs;
    rewrite Hp, Hl, Hps, Hls; reflexivity.
Qed.

End SetCliProperties.


(** Of three commands of the latest configuration, one is also a command
    of the previous one and one is read-only. *)
Lemma set_cli_diff_example :
  generate_set_cli_from_configs string Sample.PanConfig Sample.set_cli "previous" "latest"
  = Return [ "set address a ip-netmask 10.0.0.1" ].
Proof. reflexivity. Qed.


(** ** The walk of [__check_element] *)

Lemma homogeneous_is_list (cs : list element) (t : string) :
  2 <= List.length cs ->
  (forall c, In c cs -> el_tag c = t) ->
  check_children_are_list cs = true.
Proof.
  intros Hlen Htag. unfold check_children_are_list.
  destruct (Nat.leb_spec (List.length cs) 1) as [H|_]; [lia|].
  clear Hlen.
  assert (G : forall f, f = "" \/ f = t -> same_tag_loop f cs = true).
  { induction cs as [|c r IH]; intros f Hf; simpl; [reflexivity|].
    assert (Hc : el_tag c = t) by (apply Htag; left; reflexivity).
    assert (Hr : forall c', In c' r -> el_tag c' = t)
      by (intros c' Hin; apply Htag; right; exact Hin).
    destruct (String.eqb_spec f "") as [E|E].
    - apply IH; [exact Hr|]. right. exact Hc.
    - destruct Hf as [Hf|Hf]; [contradiction|]. subst f.
      rewrite Hc, String.eqb_refl. simpl. apply IH; [exact Hr|]. right. reflexivity. }
  apply G. left. reflexivity.
Qed.

Lemma same_tag_loop_tags (cs : list element) :
  (forall c, In c cs -> el_tag c <> "") ->
  forall f, f <> "" -> same_tag_loop f cs = true -> forall c, In c cs -> el_tag c = f.
Proof.
  induction cs as [|e cs IH]; intros Hne f Hf H c Hin; [contradiction|].
  cbn [same_tag_loop] in H.
  destruct (String.eqb_spec f "") as [E|_]; [contradiction|].
  destruct (String.eqb_spec f (el_tag e)) as [E|E]; [|discriminate].
  cbn [negb] in H. destruct Hin as [->|Hin]; [symmetry; exact E|].
  apply (IH (fun c' Hc' => Hne c' (or_intror Hc')) f Hf H c Hin).
Qed.

(** The classifier of section 4.2: for children with proper (non-empty)
    tags, the answer is yes exactly when there are two or more of them and
    they all have the same tag. *)
Lemma check_children_are_list_spec (cs : list element) :
  (forall c, In c cs -> el_tag c <> "") ->
  (check_children_are_list cs = true <->
   2 <= List.length cs /\ exists t, forall c, In c cs -> el_tag c = t).
Proof.
  intros Hne. split.
  - unfold check_children_are_list.
    destruct (Nat.leb_spec (List.length cs) 1) as [_|Hlen]; [discriminate|].
    intros H. split; [lia|].
    destruct cs as [|e cs]; [simpl in Hlen; lia|].
    exists (el_tag e). cbn [same_tag_loop] in H. rewrite String.eqb_refl in H.
    intros c [<-|Hin]; [reflexivity|].
    apply (same_tag_loop_tags cs (fun c' Hc' => Hne c' (or_intror Hc')) (el_tag e));
      auto.
    apply Hne. left. reflexivity.
  - intros [Hlen [t Ht]]. exact (homogeneous_is_list cs t Hlen Ht).
Qed.

Lemma check_children_are_list_spec_witness :
  (forall c, In c (el_children Sample.list_B) -> el_tag c <> "")
  /\ (check_children_are_list (el_children Sample.list_B) = true <->
      2 <= List.length (el_children Sample.list_B) /\
      exists t, forall c, In c (el_children Sample.list_B) -> el_tag c = t).
Proof.
  assert (H : forall c, In c (el_children Sample.list_B) -> el_tag c <> "").
  { simpl. intros c [<-|[<-|[<-|[]]]]; discriminate. }
  split; [exact H|]. exact (check_children_are_list_spec _ H).
Defined.

Section Walk.

Variable Action : Type.
Variable diff_trees : element -> element -> list Action.
Variable random_int : nat -> nat.

Lemma check_element_eq (el : element) (xp : string) (pc : element) (nf : list string) :
  check_element Action diff_trees el xp pc nf =
  (found_elements <- xpath pc xp ;;
   match found_elements with
   | found_element :: _ =>
       if (List.length (el_children el) =? 0)%nat then
         if negb (text_eqb (el_text found_element) (el_text el))
         then Ok (nf ++ [xp])%list
         else Ok nf
       else if check_children_are_list (el_children el) then
         if (List.length (diff_trees found_element el) =? 0)%nat
         then Ok nf
         else check_children Action diff_trees xp pc true (el_children el) 1 nf
       else check_children Action diff_trees xp pc false (el_children el) 1 nf
   | [] => Ok (nf ++ [xp])%list
   end).
Proof. destruct el. reflexivity. Qed.

Lemma check_children_eq (xp : string) (pc : element) (is_list : bool)
      (e : element) (es : list element) (index : nat) (nf : list string) :
  check_children Action diff_trees xp pc is_list (e :: es) index nf =
  (entry <- path_entry is_list index e ;;
   new_not_founds <- check_element Action diff_trees e (xp ++ "/" ++ entry) pc [] ;;
   check_children Action diff_trees xp pc is_list es (index + 1)
     (nf ++ new_not_founds)%list).
Proof. reflexivity. Qed.

(** C6.  When the xpath of a node resolves in the previous document, the
    children of the node are two or more elements of one tag, and the tree
    diff of the previous and the latest node reports no difference, the
    comparator adds no path for the node or anything below it.  In
    particular the unchanged list of three entries of scenario B yields no
    snippet. *)
Theorem unchanged_list_adds_nothing :
  (forall (el pc found : element) (others : list element) (xp t : string)
          (nf : list string),
      xpath pc xp = Ok (found :: others) ->
      2 <= List.length (el_children el) ->
      (forall c, In c (el_children el) -> el_tag c = t) ->
      diff_trees found el = [] ->
      check_element Action diff_trees el xp pc nf = Ok nf)
  /\
  (diff_trees Sample.list_B Sample.list_B = [] ->
   generate_skillet_from_configs Action diff_trees random_int
     Sample.config_B Sample.config_B = Ok []).
Proof.
  assert (G : forall (el pc found : element) (others : list element) (xp t : string)
                     (nf : list string),
             xpath pc xp = Ok (found :: others) ->
             2 <= List.length (el_children el) ->
             (forall c, In c (el_children el) -> el_tag c = t) ->
             diff_trees found el = [] ->
             check_element Action diff_trees el xp pc nf = Ok nf).
  { intros el pc found others xp t nf Hx Hlen Htag Hdiff.
    rewrite check_element_eq, Hx. cbn [bind].
    destruct (Nat.eqb_spec (List.length (el_children el)) 0) as [E|_]; [lia|].
    rewrite (homogeneous_is_list _ t Hlen Htag), Hdiff. reflexivity. }
  split; [exact G|].
  intros Hdiff. unfold generate_skillet_from_configs.
  cbn [Sample.config_B Sample.node el_children collect_not_found].
  rewrite (G Sample.list_B _ Sample.list_B [] _ "entry" []).
  - reflexivity.
  - reflexivity.
  - simpl. lia.
  - simpl. intros c [<-|[<-|[<-|[]]]]; reflexivity.
  - exact Hdiff.
Qed.

End Walk.

Lemma unchanged_list_adds_nothing_witness :
  check_element unit Sample.tree_differ Sample.list_B "./address" Sample.config_B
    ["./earlier"] = Ok ["./earlier"]
  /\
  generate_skillet_from_configs unit Sample.tree_differ Sample.draws
    Sample.config_B Sample.config_B = Ok [].
Proof.
  destruct (unchanged_list_adds_nothing unit Sample.tree_differ Sample.draws)
    as [Hlist Hscenario].
  split.
  - apply (Hlist Sample.list_B Sample.config_B Sample.list_B [] "./address" "entry").
    + reflexivity.
    + simpl. lia.
    + simpl. intros c [<-|[<-|[<-|[]]]]; reflexivity.
    + reflexivity.
  - apply Hscenario. reflexivity.
Defined.

(** ** Steps of an xpath *)

Lemma append_assoc (a b c : string) : (a ++ b) ++ c = a ++ (b ++ c).
Proof. induction a as [|x a IH]; simpl; [reflexivity|]. rewrite IH. reflexivity. Qed.

Lemma append_nil_r (a : string) : a ++ "" = a.
Proof. induction a as [|x a IH]; simpl; [reflexivity|]. rewrite IH. reflexivity. Qed.

Lemma append_length (a b : string) :
  String.length (a ++ b) = String.length a + String.length b.
Proof. induction a as [|x a IH]; simpl; [reflexivity|]. rewrite IH. reflexivity. Qed.

Lemma split_steps_not_nil (inq : bool) (s : string) : XPath.split_steps inq s <> [].
Proof.
  destruct s as [|c r]; simpl; [discriminate|].
  destruct (Ascii.eqb c "/" && negb inq); [discriminate|].
  destruct (XPath.split_steps _ r); discriminate.
Qed.

Lemma quote_state_append (inq : bool) (a b : string) :
  XPath.quote_state inq (a ++ b) = XPath.quote_state (XPath.quote_state inq a) b.
Proof.
  revert inq. induction a as [|c a IH]; intros inq; simpl; [reflexivity|]. apply IH.
Qed.

(** A slash met outside a literal starts a new step. *)
Lemma split_steps_slash (inq : bool) (p s : string) :
  XPath.quote_state inq p = false ->
  XPath.split_steps inq (p ++ "/" ++ s)
  = (XPath.split_steps inq p ++ XPath.split_steps false s)%list.
Proof.
  revert inq. induction p as [|c p IH]; intros inq Hq.
  - simpl in Hq. subst inq. reflexivity.
  - cbn [XPath.quote_state] in Hq.
    change (String c p ++ "/" ++ s) with (String c (p ++ "/" ++ s)).
    cbn [XPath.split_steps]. rewrite (IH _ Hq).
    destruct (Ascii.eqb c "/" && negb inq); [reflexivity|].
    destruct (XPath.split_steps (if Ascii.eqb c Str.DQUOTE then negb inq else inq) p)
      as [|h t] eqn:E; [|reflexivity].
    exfalso. exact (split_steps_not_nil _ _ E).
Qed.

Lemma single_step_spec (s : string) :
  single_step s = true ->
  XPath.split_steps false s = [s] /\ XPath.quote_state false s = false.
Proof.
  unfold single_step. destruct (XPath.split_steps false s) as [|h [|? ?]];
    try discriminate.
  intros H. apply andb_true_iff in H. destruct H as [H1 H2].
  apply String.eqb_eq in H1. apply negb_true_iff in H2. subst. auto.
Qed.

Lemma closed_slash (xp s : string) :
  XPath.quote_state false xp = false ->
  single_step s = true ->
  XPath.quote_state false (xp ++ "/" ++ s) = false.
Proof.
  intros Hx Hs. apply single_step_spec in Hs. destruct Hs as [_ Hs].
  rewrite quote_state_append, Hx. exact Hs.
Qed.

Lemma split_steps_path_from (steps : list string) (xp : string) :
  XPath.quote_state false xp = false ->
  forallb single_step steps = true ->
  XPath.split_steps false (path_from xp steps)
  = (XPath.split_steps false xp ++ steps)%list
  /\ XPath.quote_state false (path_from xp steps) = false.
Proof.
  revert xp. induction steps as [|s r IH]; intros xp Hx Hs; cbn [path_from].
  - rewrite app_nil_r. auto.
  - cbn [forallb] in Hs. apply andb_true_iff in Hs. destruct Hs as [Hs Hr].
    destruct (IH (xp ++ "/" ++ s) (closed_slash _ _ Hx Hs) Hr) as [E Q].
    split; [|exact Q].
    rewrite E, (split_steps_slash _ _ _ Hx).
    destruct (single_step_spec _ Hs) as [-> _].
    rewrite <- app_assoc. reflexivity.
Qed.

Lemma eval_steps_app (a b : list string) (nodes : list element) :
  XPath.eval_steps (a ++ b) nodes
  = (r <- XPath.eval_steps a nodes ;; XPath.eval_steps b r).
Proof.
  revert nodes. induction a as [|s a IH]; intros nodes; simpl; [reflexivity|].
  destruct (XPath.parse_step s); [apply IH|reflexivity].
Qed.

(** Whether an expression is valid does not depend on the nodes it is
    evaluated on. *)
Lemma eval_steps_valid (steps : list string) (n1 n2 r1 : list element) :
  XPath.eval_steps steps n1 = Ok r1 -> exists r2, XPath.eval_steps steps n2 = Ok r2.
Proof.
  revert n1 n2. induction steps as [|s r IH]; intros n1 n2; simpl.
  - intros _. eexists. reflexivity.
  - destruct (XPath.parse_step s); [|discriminate]. apply IH.
Qed.

Lemma xpath_valid (d1 d2 : element) (p : string) (r1 : list element) :
  xpath d1 p = Ok r1 -> exists r2, xpath d2 p = Ok r2.
Proof.
  unfold xpath. destruct (XPath.split_steps false p) as [|h t]; [discriminate|].
  destruct (String.eqb_spec h "."); [|destruct h as [|c h]; try discriminate].
  - subst h. apply eval_steps_valid.
  - destruct c as [[] [] [] [] [] [] [] []]; try discriminate.
    destruct h; [contradiction|discriminate].
Qed.

(** Evaluating one more step. *)
Lemma xpath_slash (doc : element) (xp s : string) (nodes : list element) :
  XPath.quote_state false xp = false ->
  single_step s = true ->
  xpath doc xp = Ok nodes ->
  xpath doc (xp ++ "/" ++ s)
  = match XPath.parse_step s with
    | Some st => Ok (XPath.apply_step st nodes)
    | None => Raise XPathEvalError
    end.
Proof.
  intros Hx Hs He. unfold xpath in *.
  rewrite (split_steps_slash _ _ _ Hx).
  destruct (single_step_spec _ Hs) as [-> _].
  destruct (XPath.split_steps false xp) as [|h t]; [discriminate|].
  cbn [app].
  destruct h as [|c h]; [discriminate|].
  destruct c as [[] [] [] [] [] [] [] []]; try discriminate.
  destruct h; [|discriminate].
  rewrite eval_steps_app, He. cbn [bind XPath.eval_steps].
  destruct (XPath.parse_step s); reflexivity.
Qed.

(** ** What the walk reports *)

Lemma descendants_self (e : element) : In e (descendants e).
Proof. destruct e. simpl. left. reflexivity. Qed.

Lemma descendants_child (e c x : element) :
  In c (el_children e) -> In x (descendants c) -> In x (descendants e).
Proof.
  destruct e as [t a tx cs tl]. simpl. intros Hc Hx. right.
  apply in_flat_map. exists c. auto.
Qed.

Lemma reported_valid (pc el : element) (xp q : string) :
  reported pc el xp q -> exists nodes, xpath pc q = Ok nodes.
Proof.
  induction 1 as [el xp H | el xp f o H _ _ | el xp f o i c s q _ _ _ _ IH].
  - eexists. exact H.
  - eexists. exact H.
  - exact IH.
Qed.

Lemma reported_new_or_changed (pc el : element) (xp q : string) :
  reported pc el xp q ->
  xpath pc q = Ok [] \/
  exists found others leaf,
    xpath pc q = Ok (found :: others) /\
    built el xp leaf q /\
    el_children leaf = [] /\
    el_text found <> el_text leaf.
Proof.
  induction 1 as [el xp H | el xp f o H Hc Ht | el xp f o i c s q _ Hi Hs _ IH].
  - left. exact H.
  - right. exists f, o, el. repeat split; auto. apply built_here.
  - destruct IH as [IH|[f' [o' [leaf [H1 [H2 [H3 H4]]]]]]]; [left; exact IH|].
    right. exists f', o', leaf. repeat split; auto.
    apply built_below with i c s; assumption.
Qed.

Lemma built_descendant (el leaf : element) (xp q : string) :
  built el xp leaf q -> In leaf (descendants el).
Proof.
  induction 1 as [el xp | el xp i c s leaf q Hi _ _ IH].
  - apply descendants_self.
  - apply descendants_child with c; [|exact IH].
    apply nth_error_In with i. exact Hi.
Qed.

Section WalkSound.

Variable Action : Type.
Variable diff_trees : element -> element -> list Action.
Variable random_int : nat -> nat.

Lemma check_children_reported (pc : element) (xp : string) (is_list : bool)
      (es : list element) :
  Forall (sound_at Action diff_trees pc) es ->
  forall index nf r,
    check_children Action diff_trees xp pc is_list es index nf = Ok r ->
    exists new,
      r = (nf ++ new)%list /\
      Forall (fun q => exists i c s,
                  nth_error es i = Some c /\
                  path_entry is_list (index + i) c = Ok s /\
                  reported pc c (xp ++ "/" ++ s) q) new.
Proof.
  induction 1 as [|e es He _ IH]; intros index nf r Hr.
  - simpl in Hr. inversion Hr. exists []. rewrite app_nil_r. auto.
  - rewrite check_children_eq in Hr.
    destruct (path_entry is_list index e) as [s|] eqn:Es; [|discriminate].
    cbn [bind] in Hr.
    destruct (check_element Action diff_trees e (xp ++ "/" ++ s) pc []) as [r1|] eqn:E1;
      [|discriminate].
    cbn [bind] in Hr.
    destruct (He _ _ _ E1) as [new1 [-> F1]].
    destruct (IH _ _ _ Hr) as [new2 [-> F2]].
    exists (new1 ++ new2)%list. split; [simpl; rewrite app_assoc; reflexivity|].
    apply Forall_app. split.
    + eapply Forall_impl; [|exact F1]. intros q Hq.
      exists 0, e, s. rewrite Nat.add_0_r. auto.
    + eapply Forall_impl; [|exact F2]. intros q [i [c [s' [Hi [Hs' Hq]]]]].
      exists (S i), c, s'. repeat split; auto.
      replace (index + S i) with (index + 1 + i) by lia. exact Hs'.
Qed.

Lemma check_element_reported (pc el : element) : sound_at Action diff_trees pc el.
Proof.
  induction el as [t a tx cs tl IH] using element_rect'.
  intros xp nf r Hr. rewrite check_element_eq in Hr.
  destruct (xpath pc xp) as [[|f o]|] eqn:Ex; cbn [bind] in Hr; [| |discriminate].
  - inversion Hr. exists [xp]. split; [reflexivity|].
    constructor; [|constructor]. apply reported_absent. exact Ex.
  - cbn [el_children el_text] in Hr.
    destruct (Nat.eqb_spec (List.length cs) 0) as [El|El].
    + destruct (text_eqb (el_text f) tx) eqn:Et; cbn [negb] in Hr; inversion Hr.
      * exists []. rewrite app_nil_r. auto.
      * exists [xp]. split; [reflexivity|]. constructor; [|constructor].
        apply reported_text with f o; [exact Ex| |].
        -- destruct cs; [reflexivity|discriminate].
        -- simpl. intros E. apply text_eqb_eq in E. congruence.
    + assert (G : forall is_list,
                 is_list = check_children_are_list cs ->
                 check_children Action diff_trees xp pc is_list cs 1 nf = Ok r ->
                 exists new, r = (nf ++ new)%list /\
                             Forall (reported pc (Element t a tx cs tl) xp) new).
      { intros is_list Hl Hw.
        destruct (check_children_reported pc xp is_list cs IH _ _ _ Hw) as [new [-> F]].
        exists new. split; [reflexivity|].
        eapply Forall_impl; [|exact F]. intros q [i [c [s [Hi [Hs Hq]]]]].
        apply reported_below with f o i c s; auto.
        simpl. rewrite <- Hl. exact Hs. }
      destruct (check_children_are_list cs) eqn:Hl.
      * destruct (List.length (diff_trees f (Element t a tx cs tl)) =? 0)%nat.
        -- inversion Hr. exists []. rewrite app_nil_r. auto.
        -- apply (G true); auto.
      * apply (G false); auto.
Qed.

Lemma collect_reported (pc : element) (cs : list element) :
  forall acc r,
    collect_not_found Action diff_trees cs pc acc = Ok r ->
    exists new,
      r = (acc ++ new)%list /\
      Forall (fun q => exists i c,
                  nth_error cs i = Some c /\
                  reported pc c ("." ++ "/" ++ el_tag c) q) new.
Proof.
  induction cs as [|c cs IH]; intros acc r Hr.
  - simpl in Hr. inversion Hr. exists []. rewrite app_nil_r. auto.
  - cbn [collect_not_found] in Hr.
    destruct (check_element Action diff_trees c ("." ++ "/" ++ el_tag c) pc [])
      as [r1|] eqn:E1; [|discriminate].
    cbn [bind] in Hr.
    destruct (check_element_reported pc c _ _ _ E1) as [new1 [-> F1]].
    destruct (IH _ _ Hr) as [new2 [-> F2]].
    exists (new1 ++ new2)%list. split; [simpl; rewrite app_assoc; reflexivity|].
    apply Forall_app. split.
    + eapply Forall_impl; [|exact F1]. intros q Hq. exists 0, c. auto.
    + eapply Forall_impl; [|exact F2]. intros q [i [c' [Hi Hq]]].
      exists (S i), c'. auto.
Qed.

(** C3, as amended.  Every xpath of the change set either resolves to no
    node of the previous document, or the first node it resolves to there
    has a text different from that of a childless element of the latest
    document, one for which the walk built that xpath. *)
Theorem change_set_is_new_or_changed (previous_doc latest_doc : element)
        (changes : list string) (p : string) :
  collect_not_found Action diff_trees (el_children latest_doc) previous_doc [] = Ok changes ->
  In p changes ->
  xpath previous_doc p = Ok [] \/
  exists found others leaf,
    xpath previous_doc p = Ok (found :: others) /\
    In leaf (descendants latest_doc) /\
    xpath_built_for latest_doc leaf p /\
    el_children leaf = [] /\
    el_text found <> el_text leaf.
Proof.
  intros Hc Hp.
  destruct (collect_reported _ _ _ _ Hc) as [new [-> F]]. simpl in Hp.
  rewrite Forall_forall in F. destruct (F p Hp) as [i [c [Hi Hq]]].
  destruct (reported_new_or_changed _ _ _ _ Hq) as [H|[f [o [leaf [H1 [H2 [H3 H4]]]]]]];
    [left; exact H|].
  assert (Hin : In c (el_children latest_doc)) by (apply nth_error_In with i; exact Hi).
  right. exists f, o, leaf. repeat split; auto.
  - apply descendants_child with c; [exact Hin|].
    apply built_descendant with ("." ++ "/" ++ el_tag c) p. exact H2.
  - exists c. auto.
Qed.

End WalkSound.

Lemma change_set_is_new_or_changed_witness :
  collect_not_found unit Sample.tree_differ (el_children Sample.latest_nested)
    Sample.previous_nested [] = Ok ["./x/a/c"; "./x/b"; "./x/a"]
  /\ In "./x/b" ["./x/a/c"; "./x/b"; "./x/a"]
  /\ (xpath Sample.previous_nested "./x/b" = Ok [] \/
      exists found others leaf,
        xpath Sample.previous_nested "./x/b" = Ok (found :: others) /\
        In leaf (descendants Sample.latest_nested) /\
        xpath_built_for Sample.latest_nested leaf "./x/b" /\
        el_children leaf = [] /\
        el_text found <> el_text leaf).
Proof.
  assert (Hc : collect_not_found unit Sample.tree_differ
                 (el_children Sample.latest_nested) Sample.previous_nested []
               = Ok ["./x/a/c"; "./x/b"; "./x/a"]) by reflexivity.
  assert (Hin : In "./x/b" ["./x/a/c"; "./x/b"; "./x/a"]) by (simpl; auto).
  split; [exact Hc|]. split; [exact Hin|].
  exact (change_set_is_new_or_changed unit Sample.tree_differ
           Sample.previous_nested Sample.latest_nested _ _ Hc Hin).
Defined.

(** C3, as stated, fails: comparing a document with itself, the walk
    reports ./x/a for the second a of x, yet in both documents that xpath
    resolves first to the first a, whose text is the same on both sides. *)
Lemma repeated_tag_reported_with_equal_text :
  collect_not_found unit Sample.tree_differ (el_children Sample.repeated_tag)
    Sample.repeated_tag [] = Ok ["./x/a"]
  /\ exists in_previous in_latest others others',
       xpath Sample.repeated_tag "./x/a" = Ok (in_previous :: others) /\
       xpath Sample.repeated_tag "./x/a" = Ok (in_latest :: others') /\
       el_text in_previous = el_text in_latest.
Proof.
  split; [reflexivity|].
  exists (Sample.leaf "a" "1"), (Sample.leaf "a" "1"),
         [Sample.leaf "a" "2"], [Sample.leaf "a" "2"].
  repeat split; reflexivity.
Qed.

(** ** Assembling the snippets *)

Section Assembly.

Variable Action : Type.
Variable diff_trees : element -> element -> list Action.
Variable random_int : nat -> nat.

Lemma assemble_emits (latest_doc : element) (xs : list string) :
  Forall (fun x => exists nodes, xpath latest_doc x = Ok nodes) xs ->
  forall draws acc,
  exists out,
    assemble random_int latest_doc xs draws acc = Ok (acc ++ out)%list /\
    map snippet_body out = map (expected_body latest_doc) (filter (emitted latest_doc) xs).
Proof.
  induction 1 as [|x xs [nodes Hx] _ IH]; intros draws acc.
  - exists []. rewrite app_nil_r. split; reflexivity.
  - cbn [assemble filter]. unfold emitted at 1, container_path.
    unfold split_xpath at 1 2. cbn [fst].
    destruct (existsb
                (String.eqb
                   (Str.sub_prefix "./" "/config/"
                      (Str.join "/" (removelast (re_split "" x)))))
                ignored_xpaths) eqn:Eig; cbn [negb andb].
    + apply IH.
    + rewrite Hx. cbn [bind]. destruct nodes as [|changed others].
      * apply IH.
      * destruct (IH (draws + 1)
                    (acc ++ [ {| name := sub_brackets (last (re_split "" x) "") ++ "-"
                                         ++ Str.of_nat (random_int draws);
                                 xpath_ := Str.sub_prefix "./" "/config/"
                                             (Str.join "/" (removelast (re_split "" x)));
                                 element_ := Str.strip (Serialize.tostring changed);
                                 full_xpath := Str.sub_prefix "/config/" "\./" x |} ])%list)
          as [out [E M]].
        eexists (_ :: out). split.
        -- rewrite E, <- app_assoc. reflexivity.
        -- cbn [map]. rewrite M. f_equal.
           unfold expected_body, snippet_body, container_path, split_xpath.
           rewrite Hx. reflexivity.
Qed.

End Assembly.

(** The two kinds of skipped change, on a concrete change list: the change
    below the admin account and the one that resolves to nothing are left
    out, the one between them is emitted. *)
Lemma skipped_changes_example :
  filter (emitted Sample.latest_users) Sample.changes_users = ["./shared/tag"]
  /\ map snippet_body
       match assemble Sample.draws Sample.latest_users Sample.changes_users 0 [] with
       | Ok l => l
       | Raise _ => []
       end
     = [("/config/shared", "<tag>t</tag>", "./shared/tag")].
Proof. split; reflexivity. Qed.

(** ** Subsumption: no reported path below another *)

Lemma not_own_descendant (p : string) : ~ descendant_path p p.
Proof.
  intros [rest E]. apply (f_equal String.length) in E.
  rewrite append_length in E. simpl in E. lia.
Qed.

Lemma distinct_head (s : string) (r : list string) :
  distinct (s :: r) = true -> ~ In s r /\ distinct r = true.
Proof.
  simpl. intros H. apply andb_true_iff in H. destruct H as [H1 H2].
  split; [|exact H2]. intros Hin. apply existsb_eqb_In in Hin.
  rewrite Hin in H1. discriminate.
Qed.

Lemma distinct_nth (l : list string) :
  distinct l = true ->
  forall i j s, nth_error l i = Some s -> nth_error l j = Some s -> i = j.
Proof.
  induction l as [|x l IH]; intros Hd i j s Hi Hj.
  - destruct i; discriminate.
  - destruct (distinct_head _ _ Hd) as [Hx Hl].
    destruct i as [|i], j as [|j]; simpl in Hi, Hj.
    + reflexivity.
    + inversion Hi; subst. exfalso. apply Hx. eapply nth_error_In. exact Hj.
    + inversion Hj; subst. exfalso. apply Hx. eapply nth_error_In. exact Hi.
    + f_equal. eapply IH; eauto.
Qed.

Lemma child_entries_In (is_list : bool) (cs : list element) :
  forall k i c s,
    nth_error cs i = Some c ->
    path_entry is_list (k + i) c = Ok s ->
    In s (child_entries is_list k cs).
Proof.
  induction cs as [|e cs IH]; intros k i c s Hi Hs.
  - destruct i; discriminate.
  - destruct i as [|i]; simpl in Hi.
    + inversion Hi; subst. rewrite Nat.add_0_r in Hs.
      cbn [child_entries]. rewrite Hs. left. reflexivity.
    + assert (Hin : In s (child_entries is_list (k + 1) cs)).
      { apply IH with i c; [exact Hi|].
        replace (k + 1 + i) with (k + S i) by lia. exact Hs. }
      cbn [child_entries]. destruct (path_entry is_list k e); [right|]; exact Hin.
Qed.

Lemma child_entries_differ (is_list : bool) (cs : list element) :
  forall k i j c c' s s',
    distinct (child_entries is_list k cs) = true ->
    nth_error cs i = Some c ->
    nth_error cs j = Some c' ->
    i <> j ->
    path_entry is_list (k + i) c = Ok s ->
    path_entry is_list (k + j) c' = Ok s' ->
    s <> s'.
Proof.
  induction cs as [|e cs IH]; intros k i j c c' s s' Hd Hi Hj Hij Hs Hs'.
  - destruct i; discriminate.
  - destruct i as [|i], j as [|j]; simpl in Hi, Hj.
    + contradiction.
    + inversion Hi; subst. rewrite Nat.add_0_r in Hs.
      cbn [child_entries] in Hd. rewrite Hs in Hd.
      destruct (distinct_head _ _ Hd) as [Hx _]. intros E. apply Hx. subst s'.
      apply child_entries_In with j c'; [exact Hj|].
      replace (k + 1 + j) with (k + S j) by lia. exact Hs'.
    + inversion Hj; subst. rewrite Nat.add_0_r in Hs'.
      cbn [child_entries] in Hd. rewrite Hs' in Hd.
      destruct (distinct_head _ _ Hd) as [Hx _]. intros E. apply Hx. subst s'.
      apply child_entries_In with i c; [exact Hi|].
      replace (k + 1 + i) with (k + S i) by lia. exact Hs.
    + apply (IH (k + 1) i j c c' s s'); auto.
      * cbn [child_entries] in Hd. destruct (path_entry is_list k e); [|exact Hd].
        apply distinct_head in Hd. tauto.
      * replace (k + 1 + i) with (k + S i) by lia. exact Hs.
      * replace (k + 1 + j) with (k + S j) by lia. exact Hs'.
Qed.

Lemma distinct_paths_entries (el : element) :
  distinct_paths el = true ->
  distinct_steps
    (child_entries (check_children_are_list (el_children el)) 1 (el_children el)) = true.
Proof.
  destruct el as [t a tx cs tl]. cbn [distinct_paths el_children].
  intros H. apply andb_true_iff in H. tauto.
Qed.

Lemma distinct_paths_child (el c : element) :
  distinct_paths el = true -> In c (el_children el) -> distinct_paths c = true.
Proof.
  destruct el as [t a tx cs tl]. cbn [distinct_paths el_children].
  intros H. apply andb_true_iff in H. destruct H as [_ H].
  induction cs as [|e cs IH]; intros Hin; [contradiction|].
  apply andb_true_iff in H. destruct H as [He Hcs].
  destruct Hin as [->|Hin]; [exact He|]. apply IH; assumption.
Qed.

(** The entry built for a child of a node with distinct paths is one
    step. *)
Lemma distinct_paths_entry_single (el : element) (i : nat) (c : element) (s : string) :
  distinct_paths el = true ->
  nth_error (el_children el) i = Some c ->
  path_entry (check_children_are_list (el_children el)) (S i) c = Ok s ->
  single_step s = true.
Proof.
  intros Hd Hi Hs. apply distinct_paths_entries in Hd.
  unfold distinct_steps in Hd. apply andb_true_iff in Hd. destruct Hd as [Hd _].
  rewrite forallb_forall in Hd. apply Hd.
  apply child_entries_In with i c; [exact Hi|exact Hs].
Qed.

Lemma reported_extends (pc el : element) (xp q : string) :
  reported pc el xp q ->
  distinct_paths el = true ->
  exists steps, forallb single_step steps = true /\ q = path_from xp steps.
Proof.
  induction 1 as [el xp _ | el xp f o _ _ _ | el xp f o i c s q _ Hi Hs _ IH]; intros Hd.
  - exists []. auto.
  - exists []. auto.
  - destruct IH as [steps [Hsteps ->]].
    { apply distinct_paths_child with el; [exact Hd|].
      apply nth_error_In with i. exact Hi. }
    exists (s :: steps). split; [|reflexivity].
    cbn [forallb]. rewrite Hsteps, (distinct_paths_entry_single el i c s Hd Hi Hs).
    reflexivity.
Qed.

(** Paths that leave [xp] by different steps are not below one another. *)
Lemma different_steps_apart (xp s s' : string) (steps steps' : list string) :
  XPath.quote_state false xp = false ->
  forallb single_step (s :: steps) = true ->
  forallb single_step (s' :: steps') = true ->
  s <> s' ->
  ~ descendant_path (path_from xp (s :: steps)) (path_from xp (s' :: steps')).
Proof.
  intros Hx Hs Hs' Hne [rest E].
  destruct (split_steps_path_from _ _ Hx Hs) as [Ep Qp].
  destruct (split_steps_path_from _ _ Hx Hs') as [Eq _].
  rewrite E, (split_steps_slash _ _ _ Qp), Ep, <- app_assoc in Eq.
  apply app_inv_head in Eq. inversion Eq. contradiction.
Qed.

Lemma reported_apart (pc : element) (el : element) :
  forall xp p q,
    XPath.quote_state false xp = false ->
    distinct_paths el = true ->
    reported pc el xp p ->
    reported pc el xp q ->
    ~ descendant_path p q.
Proof.
  induction el as [t a tx cs tl IH] using element_rect'.
  intros xp p q Hx Hd Hp Hq.
  inversion Hp as [? ? Ep | ? ? fp op Ep Hcp Htp | ? ? fp op i c s ? Ep Hi Hs Hpc];
    inversion Hq as [? ? Eq | ? ? fq oq Eq Hcq Htq | ? ? fq oq j c' s' ? Eq Hj Hs' Hqc];
    subst; try apply not_own_descendant; try congruence.
  - cbn [el_children] in *. subst cs. destruct j; discriminate.
  - cbn [el_children] in *. subst cs. destruct i; discriminate.
  - assert (Ss : single_step s = true)
      by exact (distinct_paths_entry_single _ i c s Hd Hi Hs).
    assert (Ss' : single_step s' = true)
      by exact (distinct_paths_entry_single _ j c' s' Hd Hj Hs').
    assert (Dc : distinct_paths c = true).
    { apply distinct_paths_child with (Element t a tx cs tl); [exact Hd|].
      apply nth_error_In with i. exact Hi. }
    assert (Dc' : distinct_paths c' = true).
    { apply distinct_paths_child with (Element t a tx cs tl); [exact Hd|].
      apply nth_error_In with j. exact Hj. }
    destruct (Nat.eq_dec i j) as [Eij|Nij].
    + subst j. rewrite Hi in Hj. inversion Hj; subst c'.
      rewrite Hs in Hs'. inversion Hs'; subst s'.
      cbn [el_children] in Hi. rewrite Forall_forall in IH.
      apply (IH c (nth_error_In _ _ Hi) (xp ++ "/" ++ s)); auto.
      apply closed_slash; assumption.
    + destruct (reported_extends _ _ _ _ Hpc Dc) as [steps [Hsteps ->]].
      destruct (reported_extends _ _ _ _ Hqc Dc') as [steps' [Hsteps' ->]].
      apply (different_steps_apart xp s s' steps steps' Hx).
      * cbn [forallb]. rewrite Ss, Hsteps. reflexivity.
      * cbn [forallb]. rewrite Ss', Hsteps'. reflexivity.
      * apply distinct_paths_entries in Hd. unfold distinct_steps in Hd.
        apply andb_true_iff in Hd. destruct Hd as [_ Hd].
        exact (child_entries_differ _ _ 1 i j c c' s s' Hd Hi Hj Nij Hs Hs').
Qed.

Section Subsumption.

Variable Action : Type.
Variable diff_trees : element -> element -> list Action.

(** C4, as amended.  When siblings of the latest document never share a
    path entry (and each entry is one XPath step), the change set the
    comparator returns never contains a path together with the path of a
    strict descendant. *)
Theorem change_set_has_no_descendant (previous_doc latest_doc : element)
        (changes : list string) (p q : string) :
  document_distinct_paths latest_doc = true ->
  collect_not_found Action diff_trees (el_children latest_doc) previous_doc [] = Ok changes ->
  In p changes ->
  In q changes ->
  ~ descendant_path p q.
Proof.
  intros Hd Hc Hp Hq.
  destruct (collect_reported _ _ _ _ _ _ Hc) as [new [-> F]]. simpl in Hp, Hq.
  rewrite Forall_forall in F.
  destruct (F p Hp) as [i [c [Hi Rp]]]. destruct (F q Hq) as [j [c' [Hj Rq]]].
  unfold document_distinct_paths, distinct_steps in Hd.
  apply andb_true_iff in Hd. destruct Hd as [Ht Hcs].
  apply andb_true_iff in Ht. destruct Ht as [Hsingle Hdistinct].
  rewrite forallb_forall in Hsingle, Hcs.
  assert (Sc : single_step (el_tag c) = true)
    by (apply Hsingle, in_map, nth_error_In with i; exact Hi).
  assert (Sc' : single_step (el_tag c') = true)
    by (apply Hsingle, in_map, nth_error_In with j; exact Hj).
  assert (Dc : distinct_paths c = true) by (apply Hcs, nth_error_In with i; exact Hi).
  assert (Dc' : distinct_paths c' = true) by (apply Hcs, nth_error_In with j; exact Hj).
  destruct (Nat.eq_dec i j) as [Eij|Nij].
  - subst j. rewrite Hi in Hj. inversion Hj; subst c'.
    apply (reported_apart previous_doc c ("." ++ "/" ++ el_tag c)); auto.
    apply closed_slash; [reflexivity|exact Sc].
  - destruct (reported_extends _ _ _ _ Rp Dc) as [steps [Hsteps ->]].
    destruct (reported_extends _ _ _ _ Rq Dc') as [steps' [Hsteps' ->]].
    apply (different_steps_apart "." (el_tag c) (el_tag c') steps steps').
    + reflexivity.
    + cbn [forallb]. rewrite Sc, Hsteps. reflexivity.
    + cbn [forallb]. rewrite Sc', Hsteps'. reflexivity.
    + intros E. apply Nij.
      apply (distinct_nth _ Hdistinct i j (el_tag c)).
      * apply map_nth_error. exact Hi.
      * rewrite E. apply map_nth_error. exact Hj.
Qed.

End Subsumption.

Lemma change_set_has_no_descendant_witness :
  document_distinct_paths Sample.latest_distinct = true
  /\ collect_not_found unit Sample.tree_differ (el_children Sample.latest_distinct)
       Sample.previous_nested [] = Ok ["./x/a/c"; "./x/b"]
  /\ ~ descendant_path "./x/b" "./x/a/c".
Proof.
  assert (Hd : document_distinct_paths Sample.latest_distinct = true) by reflexivity.
  assert (Hc : collect_not_found unit Sample.tree_differ
                 (el_children Sample.latest_distinct) Sample.previous_nested []
               = Ok ["./x/a/c"; "./x/b"]) by reflexivity.
  split; [exact Hd|]. split; [exact Hc|].
  apply (change_set_has_no_descendant unit Sample.tree_differ
           Sample.previous_nested Sample.latest_distinct _ _ _ Hd Hc);
    simpl; auto.
Defined.

(** C4, as stated, fails: with two children of x tagged a, the change set
    holds ./x/a and, before it, its descendant ./x/a/c. *)
Lemma nested_change_set_has_descendant :
  collect_not_found unit Sample.tree_differ (el_children Sample.latest_nested)
    Sample.previous_nested [] = Ok ["./x/a/c"; "./x/b"; "./x/a"]
  /\ descendant_path "./x/a" "./x/a/c".
Proof.
  split; [reflexivity|]. exists "c". reflexivity.
Qed.

(** ** A document compared with itself *)

Lemma selects_first_spec (s : string) (siblings : list element) (c : element) :
  selects_first s siblings c = true ->
  single_step s = true /\
  exists st others, XPath.parse_step s = Some st /\ XPath.select st siblings = c :: others.
Proof.
  unfold selects_first. intros H. apply andb_true_iff in H. destruct H as [Hs H].
  split; [exact Hs|].
  destruct (XPath.parse_step s) as [st|]; [|discriminate].
  destruct (XPath.select st siblings) as [|c' others] eqn:E; [discriminate|].
  apply element_eqb_eq in H. subst c'. exists st, others. auto.
Qed.

(** When [xp] resolves first to [el], the entry of a child that selects it
    first resolves first to that child. *)
Lemma xpath_child (doc el c : element) (others : list element) (xp s : string) :
  XPath.quote_state false xp = false ->
  xpath doc xp = Ok (el :: others) ->
  selects_first s (el_children el) c = true ->
  XPath.quote_state false (xp ++ "/" ++ s) = false /\
  exists others', xpath doc (xp ++ "/" ++ s) = Ok (c :: others').
Proof.
  intros Hx He Hs.
  destruct (selects_first_spec _ _ _ Hs) as [Hsingle [st [sel [Hp Hsel]]]].
  split; [apply closed_slash; assumption|].
  rewrite (xpath_slash _ _ _ _ Hx Hsingle He), Hp.
  unfold XPath.apply_step. cbn [flat_map]. rewrite Hsel.
  eexists. reflexivity.
Qed.

Lemma self_addressed_children (el : element) :
  self_addressed el = true ->
  check_children_are_list (el_children el) = false ->
  entries_select_first (el_children el) 1 (el_children el) = true /\
  forallb self_addressed (el_children el) = true.
Proof.
  destruct el as [t a tx cs tl]. cbn [self_addressed el_children].
  intros H Hl. rewrite Hl in H. apply andb_true_iff in H. destruct H as [H1 H2].
  split; [exact H1|]. clear H1 Hl.
  induction cs as [|c cs IH]; [reflexivity|].
  apply andb_true_iff in H2. destruct H2 as [Hc Hcs].
  cbn [forallb]. rewrite Hc. apply IH. exact Hcs.
Qed.

Section SelfDiff.

Variable Action : Type.
Variable diff_trees : element -> element -> list Action.
Variable random_int : nat -> nat.

(** xmldiff reports no difference between a tree and itself. *)
Hypothesis diff_trees_same : forall t, diff_trees t t = [].

Lemma self_children_unchanged (doc el : element) (others : list element) (xp : string)
      (es : list element) :
  XPath.quote_state false xp = false ->
  xpath doc xp = Ok (el :: others) ->
  Forall (fun e =>
            forall xp others nf,
              XPath.quote_state false xp = false ->
              xpath doc xp = Ok (e :: others) ->
              self_addressed e = true ->
              check_element Action diff_trees e xp doc nf = Ok nf) es ->
  forall index nf,
    entries_select_first (el_children el) index es = true ->
    forallb self_addressed es = true ->
    check_children Action diff_trees xp doc false es index nf = Ok nf.
Proof.
  intros Hx He. induction 1 as [|e es IHe _ IH]; intros index nf Hsel Hself.
  - reflexivity.
  - rewrite check_children_eq.
    cbn [entries_select_first] in Hsel. apply andb_true_iff in Hsel.
    destruct Hsel as [Hs Hrest].
    cbn [forallb] in Hself. apply andb_true_iff in Hself. destruct Hself as [Se Ses].
    destruct (path_entry false index e) as [s|]; [|discriminate].
    cbn [bind].
    destruct (xpath_child doc el e others xp s Hx He Hs) as [Hq [others' Hc]].
    rewrite (IHe _ _ [] Hq Hc Se). cbn [bind]. rewrite app_nil_r.
    apply IH; assumption.
Qed.

Lemma self_walk_unchanged (doc el : element) :
  forall xp others nf,
    XPath.quote_state false xp = false ->
    xpath doc xp = Ok (el :: others) ->
    self_addressed el = true ->
    check_element Action diff_trees el xp doc nf = Ok nf.
Proof.
  induction el as [t a tx cs tl IH] using element_rect'.
  intros xp others nf Hx He Hs.
  rewrite check_element_eq, He. cbn [bind el_children el_text].
  destruct (List.length cs =? 0)%nat.
  - rewrite text_eqb_refl. reflexivity.
  - destruct (check_children_are_list cs) eqn:Hl.
    + rewrite diff_trees_same. reflexivity.
    + destruct (self_addressed_children _ Hs Hl) as [Hsel Hself].
      exact (self_children_unchanged doc (Element t a tx cs tl) others xp cs Hx He IH
               1 nf Hsel Hself).
Qed.

Lemma self_collect_unchanged (doc : element) (cs : list element) :
  forallb (fun c => selects_first (el_tag c) (el_children doc) c && self_addressed c) cs
  = true ->
  forall acc, collect_not_found Action diff_trees cs doc acc = Ok acc.
Proof.
  induction cs as [|c cs IH]; intros H acc; [reflexivity|].
  cbn [forallb] in H. apply andb_true_iff in H. destruct H as [Hc Hcs].
  apply andb_true_iff in Hc. destruct Hc as [Hsel Hself].
  cbn [collect_not_found].
  destruct (xpath_child doc doc c [] "." (el_tag c) eq_refl eq_refl Hsel)
    as [Hq [others Hx]].
  rewrite (self_walk_unchanged doc c _ others [] Hq Hx Hself). cbn [bind].
  rewrite app_nil_r. apply IH. exact Hcs.
Qed.

(** C1, as amended.  Given that xmldiff reports no difference between a
    tree and itself: for every document in which, wherever the children of a
    node are not a list of identical tags, the path entry of each child is a
    valid XPath step that selects that child before its siblings, the diff
    of the document with itself returns the empty snippet list. *)
Theorem self_diff_is_empty (doc : element) :
  document_self_addressed doc = true ->
  generate_skillet_from_configs Action diff_trees random_int doc doc = Ok [].
Proof.
  intros H. unfold generate_skillet_from_configs.
  rewrite (self_collect_unchanged doc (el_children doc) H []). reflexivity.
Qed.

End SelfDiff.

Lemma tree_differ_same (t : element) : Sample.tree_differ t t = [].
Proof. unfold Sample.tree_differ. rewrite element_eqb_refl. reflexivity. Qed.

Lemma self_diff_is_empty_witness :
  document_self_addressed Sample.config_full = true
  /\ generate_skillet_from_configs unit Sample.tree_differ Sample.draws
       Sample.config_full Sample.config_full = Ok [].
Proof.
  assert (H : document_self_addressed Sample.config_full = true) by reflexivity.
  split; [exact H|].
  exact (self_diff_is_empty unit Sample.tree_differ Sample.draws tree_differ_same
           Sample.config_full H).
Defined.

(** C1, as stated, fails: the document whose node x has the children a, b
    and a again, compared with itself, yields a snippet for the first a. *)
Lemma repeated_tag_self_diff_not_empty :
  generate_skillet_from_configs unit Sample.tree_differ Sample.draws
    Sample.repeated_tag Sample.repeated_tag
  = Ok [ {| name := "a-4242";
            xpath_ := "/config/x";
            element_ := "<a>1</a>";
            full_xpath := "./x/a" |} ]
  /\ document_self_addressed Sample.repeated_tag = false.
Proof. split; reflexivity. Qed.

(** * Further properties *)

(** ** The layout of [__order_snippets] *)

Lemma extend_is_flat_map (snippets : list snippet) (prefixes : list string)
      (acc : list snippet) :
  fold_left (fun acc x => (acc ++ filter_snippets_by_xpath snippets x)%list) prefixes acc
  = (acc ++ flat_map (filter_snippets_by_xpath snippets) prefixes)%list.
Proof.
  revert acc. induction prefixes as [|x r IH]; intros acc; simpl.
  - symmetry. apply app_nil_r.
  - rewrite IH, app_assoc. reflexivity.
Qed.

Lemma in_classes (snippets : list snippet) (prefixes : list string) (s : snippet) :
  In s (flat_map (filter_snippets_by_xpath snippets) prefixes)
  <-> In s snippets /\ in_class prefixes s = true.
Proof.
  unfold in_class, filter_snippets_by_xpath.
  rewrite in_flat_map, existsb_exists. split.
  - intros [x [Hx Hs]]. apply filter_In in Hs. destruct Hs as [Hs Hc].
    split; [exact Hs|]. exists x. auto.
  - intros [Hs [x [Hx Hc]]]. exists x. split; [exact Hx|].
    apply filter_In. auto.
Qed.

Lemma snippet_in_classes (snippets : list snippet) (prefixes : list string) (s : snippet) :
  In s snippets ->
  snippet_in s (flat_map (filter_snippets_by_xpath snippets) prefixes)
  = in_class prefixes s.
Proof.
  intros Hs. apply eq_true_iff_eq. rewrite snippet_in_In, in_classes. tauto.
Qed.

Lemma snippet_in_app (s : snippet) (a b : list snippet) :
  snippet_in s (a ++ b) = snippet_in s a || snippet_in s b.
Proof. unfold snippet_in. apply existsb_app. Qed.

Lemma snippet_in_other (s t : snippet) (acc : list snippet) :
  s <> t -> snippet_in s (acc ++ [t]) = snippet_in s acc.
Proof.
  intros Hne. rewrite snippet_in_app. cbn [snippet_in existsb].
  destruct (snippet_eqb s t) eqn:E.
  - apply snippet_eqb_eq in E. contradiction.
  - rewrite !orb_false_r. reflexivity.
Qed.

(** The third loop on a list without repetitions: the snippets that are
    neither in [acc] nor in [post] are appended, in their order. *)
Lemma append_unplaced (post snippets : list snippet) :
  NoDup snippets ->
  forall acc,
    fold_left (fun acc s =>
                 if negb (snippet_in s acc) && negb (snippet_in s post)
                 then (acc ++ [s])%list else acc) snippets acc
    = (acc ++ filter (fun s => negb (snippet_in s acc) && negb (snippet_in s post))
                     snippets)%list.
Proof.
  induction 1 as [|s l Hs _ IH]; intros acc; simpl.
  - symmetry. apply app_nil_r.
  - rewrite IH.
    destruct (negb (snippet_in s acc) && negb (snippet_in s post)) eqn:E.
    + rewrite <- app_assoc. cbn [app]. do 2 f_equal.
      apply filter_ext_in. intros t Ht.
      rewrite snippet_in_other; [reflexivity|]. intros ->. contradiction.
    + reflexivity.
Qed.

(** The fourth loop, likewise. *)
Lemma append_deferred (post : list snippet) :
  NoDup post ->
  forall acc,
    fold_left (fun acc ps => if negb (snippet_in ps acc) then (acc ++ [ps])%list else acc)
              post acc
    = (acc ++ filter (fun ps => negb (snippet_in ps acc)) post)%list.
Proof.
  induction 1 as [|s l Hs _ IH]; intros acc; simpl.
  - symmetry. apply app_nil_r.
  - rewrite IH. destruct (negb (snippet_in s acc)) eqn:E.
    + rewrite <- app_assoc. cbn [app]. do 2 f_equal.
      apply filter_ext_in. intros t Ht.
      rewrite snippet_in_other; [reflexivity|]. intros ->. contradiction.
    + reflexivity.
Qed.

Lemma filter_filter (A : Type) (f g : A -> bool) (l : list A) :
  filter f (filter g l) = filter (fun x => g x && f x) l.
Proof.
  induction l as [|x l IH]; simpl; [reflexivity|].
  destruct (g x); simpl; [destruct (f x)|]; rewrite IH; reflexivity.
Qed.

Lemma order_snippets_eq (snippets : list snippet) :
  NoDup snippets ->
  order_snippets snippets
  = (flat_map (filter_snippets_by_xpath snippets) xpaths
     ++ filter (fun s => negb (in_class xpaths s) && negb (in_class post_xpaths s)) snippets
     ++ filter (fun s => negb (in_class xpaths s) && in_class post_xpaths s) snippets)%list.
Proof.
  intros Hnd. unfold order_snippets.
  rewrite !extend_is_flat_map. cbn [app].
  rewrite (append_unplaced _ snippets Hnd).
  assert (Hpost : flat_map (filter_snippets_by_xpath snippets) post_xpaths
                  = filter (fun s => Str.contains "/rulebase" (full_xpath s)) snippets).
  { unfold post_xpaths, filter_snippets_by_xpath. simpl. apply app_nil_r. }
  assert (Hmid : filter (fun s =>
                     negb (snippet_in s (flat_map (filter_snippets_by_xpath snippets) xpaths))
                     && negb (snippet_in s
                                (flat_map (filter_snippets_by_xpath snippets) post_xpaths)))
                   snippets
                 = filter (fun s => negb (in_class xpaths s) && negb (in_class post_xpaths s))
                     snippets).
  { apply filter_ext_in. intros s Hs. rewrite !snippet_in_classes by exact Hs. reflexivity. }
  rewrite Hmid, append_deferred.
  - rewrite <- app_assoc. do 2 f_equal.
    rewrite Hpost, filter_filter. apply filter_ext_in. intros s Hs.
    rewrite snippet_in_app, snippet_in_classes by exact Hs.
    assert (Hno : snippet_in s
                    (filter (fun s0 => negb (in_class xpaths s0) &&
                                       negb (in_class post_xpaths s0)) snippets)
                  = negb (in_class xpaths s) && negb (in_class post_xpaths s)).
    { apply eq_true_iff_eq. rewrite snippet_in_In, filter_In. tauto. }
    rewrite Hno.
    assert (Hc : in_class post_xpaths s = Str.contains "/rulebase" (full_xpath s)).
    { unfold in_class, post_xpaths. simpl. apply orb_false_r. }
    rewrite Hc.
    destruct (in_class xpaths s), (Str.contains "/rulebase" (full_xpath s)); reflexivity.
  - rewrite Hpost. apply NoDup_filter. exact Hnd.
Qed.

Lemma classes_disjoint (snippets : list snippet) (prefixes : list string) :
  NoDup snippets ->
  (forall s, In s snippets -> matching prefixes s <= 1) ->
  NoDup (flat_map (filter_snippets_by_xpath snippets) prefixes).
Proof.
  intros Hnd. induction prefixes as [|x r IH]; intros Hone; simpl; [constructor|].
  apply NoDup_app.
  - apply NoDup_filter. exact Hnd.
  - apply IH. intros s Hs. specialize (Hone s Hs). unfold matching in *. simpl in Hone.
    destruct (Str.contains x (full_xpath s)); simpl in Hone; lia.
  - intros s Hx Hr. apply filter_In in Hx. destruct Hx as [Hs Hc].
    apply in_classes in Hr. destruct Hr as [_ Hr].
    specialize (Hone s Hs). unfold matching in Hone. simpl in Hone. rewrite Hc in Hone.
    simpl in Hone. unfold in_class in Hr. apply existsb_exists in Hr.
    destruct Hr as [y [Hy Hcy]].
    assert (Hin : In y (filter (fun x0 => Str.contains x0 (full_xpath s)) r))
      by (apply filter_In; auto).
    destruct (filter (fun x0 => Str.contains x0 (full_xpath s)) r);
      [contradiction|simpl in Hone; lia].
Qed.

(** For a snippet list without repetitions, the output of the ordering is
    laid out in three parts: for each priority prefix in turn the snippets
    whose full path contains it, in input order; then the snippets that
    contain neither a priority prefix nor /rulebase; then those that contain
    /rulebase and no priority prefix.  If moreover no full path contains two
    priority prefixes, the output is a permutation of the input. *)
Theorem order_snippets_layout (snippets : list snippet) :
  NoDup snippets ->
  order_snippets snippets
  = (flat_map (filter_snippets_by_xpath snippets) xpaths
     ++ filter (fun s => negb (in_class xpaths s) && negb (in_class post_xpaths s)) snippets
     ++ filter (fun s => negb (in_class xpaths s) && in_class post_xpaths s) snippets)%list
  /\ ((forall s, In s snippets -> matching xpaths s <= 1) ->
      Permutation snippets (order_snippets snippets)).
Proof.
  intros Hnd. split; [apply order_snippets_eq; exact Hnd|].
  intros Hone. apply NoDup_Permutation; [exact Hnd| |].
  - rewrite order_snippets_eq by exact Hnd.
    apply NoDup_app; [apply classes_disjoint; assumption| |].
    + apply NoDup_app; [apply NoDup_filter; exact Hnd|apply NoDup_filter; exact Hnd|].
      intros s H1 H2. apply filter_In in H1, H2.
      destruct H1 as [_ H1], H2 as [_ H2].
      destruct (in_class xpaths s), (in_class post_xpaths s); discriminate.
    + intros s H1 H2. apply in_classes in H1. destruct H1 as [_ H1].
      apply in_app_or in H2. destruct H2 as [H2|H2]; apply filter_In in H2;
        destruct H2 as [_ H2]; rewrite H1 in H2; discriminate.
  - intros s. rewrite order_snippets_eq by exact Hnd.
    rewrite !in_app_iff, in_classes, !filter_In. split.
    + intros Hs.
      destruct (in_class xpaths s), (in_class post_xpaths s); simpl; tauto.
    + tauto.
Qed.

Lemma order_snippets_layout_witness :
  NoDup [Sample.rule_snippet; Sample.tag_snippet]
  /\ order_snippets [Sample.rule_snippet; Sample.tag_snippet]
     = [Sample.tag_snippet; Sample.rule_snippet]
  /\ Permutation [Sample.rule_snippet; Sample.tag_snippet]
       (order_snippets [Sample.rule_snippet; Sample.tag_snippet]).
Proof.
  assert (Hnd : NoDup [Sample.rule_snippet; Sample.tag_snippet]).
  { constructor; [|constructor; [intros []|constructor]].
    intros [H|[]]. discriminate H. }
  destruct (order_snippets_layout _ Hnd) as [Heq Hperm].
  split; [exact Hnd|]. split; [rewrite Heq; reflexivity|].
  apply Hperm. intros s [<-|[<-|[]]]; vm_compute; lia.
Defined.

Lemma append_unplaced_In (post snippets : list snippet) (t : snippet) :
  forall acc,
    In t (fold_left (fun acc s =>
                       if negb (snippet_in s acc) && negb (snippet_in s post)
                       then (acc ++ [s])%list else acc) snippets acc)
    <-> In t acc \/ (In t snippets /\ ~ In t post).
Proof.
  induction snippets as [|s l IH]; intros acc; simpl; [tauto|].
  rewrite IH. destruct (snippet_in s acc) eqn:Ea; destruct (snippet_in s post) eqn:Ep;
    cbn [negb andb]; try rewrite in_app_iff; simpl.
  - apply snippet_in_In in Ea. split; [tauto|].
    intros [H|[[<-|H] Hp]]; tauto.
  - apply snippet_in_In in Ea. split; [tauto|].
    intros [H|[[<-|H] Hp]]; tauto.
  - apply snippet_in_In in Ep. split; [tauto|].
    intros [H|[[<-|H] Hp]]; tauto.
  - assert (Hp : ~ In s post).
    { intros H. apply snippet_in_In in H. congruence. }
    split.
    + intros [[H|[<-|[]]]|H]; tauto.
    + intros [H|[[<-|H] Hq]]; tauto.
Qed.

Lemma append_deferred_In (post : list snippet) (t : snippet) :
  forall acc,
    In t (fold_left (fun acc ps =>
                       if negb (snippet_in ps acc) then (acc ++ [ps])%list else acc)
                    post acc)
    <-> In t acc \/ In t post.
Proof.
  induction post as [|s l IH]; intros acc; simpl; [tauto|].
  rewrite IH. destruct (snippet_in s acc) eqn:Ea; cbn [negb].
  - apply snippet_in_In in Ea. split; [tauto|]. intros [H|[<-|H]]; tauto.
  - rewrite in_app_iff. simpl. tauto.
Qed.

Lemma order_snippets_members (snippets : list snippet) (t : snippet) :
  In t (order_snippets snippets) <-> In t snippets.
Proof.
  unfold order_snippets. rewrite !extend_is_flat_map. cbn [app].
  rewrite append_deferred_In, append_unplaced_In, !in_classes.
  split.
  - tauto.
  - intros Ht. destruct (in_class post_xpaths t) eqn:Ep.
    + right. auto.
    + left. right. split; [exact Ht|]. intros [_ H]. discriminate.
Qed.

(** The ordering neither drops nor invents a snippet: a snippet is in the
    output exactly when it is in the input (whatever the input, repeated
    snippets included). *)
Theorem order_snippets_same_members (snippets : list snippet) (t : snippet) :
  In t (order_snippets snippets) <-> In t snippets.
Proof. apply order_snippets_members. Qed.

(** ** [__split_xpath], again *)

Lemma re_split_not_nil (cur s : string) : re_split cur s <> [].
Proof.
  revert cur. induction s as [|c r IH]; intros cur; simpl; [discriminate|].
  destruct (Ascii.eqb c "/" && Nat.even (Str.count Str.DQUOTE r)); [discriminate|].
  apply IH.
Qed.

Lemma join_cons (sep p : string) (l : list string) :
  l <> [] -> Str.join sep (p :: l) = p ++ sep ++ Str.join sep l.
Proof. destruct l; [contradiction|reflexivity]. Qed.

Lemma join_snoc (sep : string) (l : list string) (e : string) :
  l <> [] -> Str.join sep (l ++ [e]) = Str.join sep l ++ sep ++ e.
Proof.
  induction l as [|p l IH]; intros Hne; [contradiction|].
  destruct l as [|q l].
  - reflexivity.
  - change ((p :: q :: l) ++ [e])%list with (p :: ((q :: l) ++ [e]))%list.
    rewrite join_cons by (destruct l; discriminate).
    rewrite IH by discriminate.
    rewrite (join_cons sep p (q :: l)) by discriminate.
    rewrite !append_assoc. reflexivity.
Qed.

(** Joining the parts with slashes gives the string back. *)
Lemma re_split_join (s cur : string) : Str.join "/" (re_split cur s) = cur ++ s.
Proof.
  revert cur. induction s as [|c r IH]; intros cur; simpl.
  - rewrite append_nil_r. reflexivity.
  - destruct (Ascii.eqb c "/" && Nat.even (Str.count Str.DQUOTE r)) eqn:E.
    + apply andb_true_iff in E. destruct E as [E _]. apply Ascii.eqb_eq in E. subst c.
      rewrite join_cons by apply re_split_not_nil. rewrite IH. reflexivity.
    + rewrite IH, append_assoc. reflexivity.
Qed.

(** What [__split_xpath] returns can be put together again: either the
    path was not cut (the container is empty and the entry is the whole
    path), or the path is the container, a slash and the entry. *)
Theorem split_xpath_rejoins (x : string) :
  (fst (split_xpath x) = "" /\ snd (split_xpath x) = x /\ re_split "" x = [x])
  \/ x = fst (split_xpath x) ++ "/" ++ snd (split_xpath x).
Proof.
  unfold split_xpath. cbn [fst snd].
  pose proof (re_split_join x "") as J. simpl in J.
  destruct (exists_last (re_split_not_nil "" x)) as [init [e E]].
  rewrite E in *. rewrite removelast_last, last_last.
  destruct init as [|p init].
  - left. simpl in J. subst e. auto.
  - right. rewrite join_snoc in J by discriminate. symmetry. exact J.
Qed.

Lemma quote_state_parity (s : string) (inq : bool) :
  XPath.quote_state inq s = xorb inq (Nat.odd (Str.count Str.DQUOTE s)).
Proof.
  revert inq. induction s as [|c r IH]; intros inq; simpl.
  - destruct inq; reflexivity.
  - rewrite IH. destruct (Ascii.eqb c Str.DQUOTE); simpl.
    + rewrite Nat.odd_succ, <- Nat.negb_odd.
      destruct inq, (Nat.odd (Str.count Str.DQUOTE r)); reflexivity.
    + reflexivity.
Qed.

Lemma slash_is_not_quote : Ascii.eqb "/" Str.DQUOTE = false.
Proof. reflexivity. Qed.

(** On a string whose literals are all closed, the pattern of
    [__split_xpath] cuts exactly where the steps of the xpath end. *)
Lemma re_split_steps (s : string) :
  forall inq cur,
    XPath.quote_state inq s = false ->
    re_split cur s
    = match XPath.split_steps inq s with
      | h :: t => (cur ++ h) :: t
      | [] => [cur]
      end.
Proof.
  induction s as [|c r IH]; intros inq cur Hq.
  - simpl. rewrite append_nil_r. reflexivity.
  - cbn [XPath.quote_state] in Hq. cbn [re_split XPath.split_steps].
    destruct (Ascii.eqb c "/") eqn:Ec.
    + apply Ascii.eqb_eq in Ec. subst c. rewrite slash_is_not_quote in *.
      assert (Hev : Nat.even (Str.count Str.DQUOTE r) = negb inq).
      { rewrite quote_state_parity in Hq. rewrite <- Nat.negb_odd.
        destruct inq, (Nat.odd (Str.count Str.DQUOTE r)); simpl in *; congruence. }
      rewrite Hev. cbn [andb].
      destruct inq; cbn [negb].
      * rewrite (IH true _ Hq).
        destruct (XPath.split_steps true r) as [|h t] eqn:E.
        -- exfalso. exact (split_steps_not_nil _ _ E).
        -- rewrite append_assoc. reflexivity.
      * rewrite (IH false "" Hq), append_nil_r.
        destruct (XPath.split_steps false r) as [|h t] eqn:E.
        -- exfalso. exact (split_steps_not_nil _ _ E).
        -- reflexivity.
    + cbn [andb]. rewrite (IH _ _ Hq).
      destruct (XPath.split_steps (if Ascii.eqb c Str.DQUOTE then negb inq else inq) r)
        as [|h t] eqn:E.
      * exfalso. exact (split_steps_not_nil _ _ E).
      * rewrite append_assoc. reflexivity.
Qed.

Lemma re_split_closed (s : string) :
  XPath.quote_state false s = false -> re_split "" s = XPath.split_steps false s.
Proof.
  intros Hq. rewrite (re_split_steps s false "" Hq).
  destruct (XPath.split_steps false s) as [|h t] eqn:E; [|reflexivity].
  exfalso. exact (split_steps_not_nil _ _ E).
Qed.

Lemma split_xpath_slash (xp entry : string) :
  XPath.quote_state false xp = false ->
  single_step entry = true ->
  split_xpath (xp ++ "/" ++ entry) = (xp, entry).
Proof.
  intros Hx He. unfold split_xpath.
  rewrite (re_split_closed _ (closed_slash _ _ Hx He)).
  rewrite (split_steps_slash _ _ _ Hx).
  destruct (single_step_spec _ He) as [-> _].
  rewrite removelast_last, last_last.
  rewrite <- (re_split_closed _ Hx).
  pose proof (re_split_join xp "") as J. simpl in J. rewrite J. reflexivity.
Qed.

(** ** Path entries of elements with plain names *)

Lemma no_cut_append (a b : string) (inq : bool) :
  no_cut inq (a ++ b) = no_cut inq a && no_cut (XPath.quote_state inq a) b.
Proof.
  revert inq. induction a as [|c a IH]; intros inq; simpl; [reflexivity|].
  rewrite IH, andb_assoc. reflexivity.
Qed.

Lemma no_cut_steps (s : string) (inq : bool) :
  no_cut inq s = true -> XPath.split_steps inq s = [s].
Proof.
  revert inq. induction s as [|c r IH]; intros inq H; simpl in *; [reflexivity|].
  apply andb_true_iff in H. destruct H as [Hc Hr].
  apply negb_true_iff in Hc. rewrite Hc, (IH _ Hr). reflexivity.
Qed.

Lemma piece_single_step (s : string) : piece s -> single_step s = true.
Proof.
  intros [Hc Hq]. unfold single_step.
  rewrite (no_cut_steps _ _ Hc), String.eqb_refl, Hq. reflexivity.
Qed.

Lemma piece_append (a b : string) : piece a -> piece b -> piece (a ++ b).
Proof.
  intros [Ca Qa] [Cb Qb]. split.
  - rewrite no_cut_append, Ca, Qa, Cb. reflexivity.
  - rewrite quote_state_append, Qa. exact Qb.
Qed.

Lemma mild_scan (s : string) (inq : bool) :
  all_chars mild_char s = true ->
  no_cut inq s = true /\ XPath.quote_state inq s = inq.
Proof.
  revert inq. induction s as [|c r IH]; intros inq H; simpl in *; [auto|].
  apply andb_true_iff in H. destruct H as [Hc Hr].
  unfold mild_char in Hc. apply andb_true_iff in Hc. destruct Hc as [H1 H2].
  apply negb_true_iff in H1, H2. rewrite H1, H2. cbn [andb negb].
  apply IH. exact Hr.
Qed.

Lemma piece_mild (s : string) : all_chars mild_char s = true -> piece s.
Proof. intros H. exact (mild_scan s false H). Qed.

Lemma all_chars_weaken (p q : ascii -> bool) (s : string) :
  (forall c, p c = true -> q c = true) ->
  all_chars p s = true -> all_chars q s = true.
Proof.
  intros Hpq. induction s as [|c r IH]; simpl; [auto|].
  intros H. apply andb_true_iff in H. destruct H as [Hc Hr].
  rewrite (Hpq c Hc), (IH Hr). reflexivity.
Qed.

Lemma plain_is_mild (s : string) :
  all_chars plain_char s = true -> all_chars mild_char s = true.
Proof.
  apply all_chars_weaken. intros c H. unfold plain_char in H.
  do 3 (apply andb_true_iff in H; destruct H as [H _]). exact H.
Qed.

Lemma value_inside_literal (v : string) :
  all_chars value_char v = true ->
  no_cut true v = true /\ XPath.quote_state true v = true.
Proof.
  induction v as [|c r IH]; simpl; [auto|].
  intros H. apply andb_true_iff in H. destruct H as [Hc Hr].
  unfold value_char in Hc. apply andb_true_iff in Hc. destruct Hc as [H1 _].
  apply negb_true_iff in H1. rewrite H1. cbn [negb]. rewrite andb_false_r. cbn [negb andb].
  apply IH. exact Hr.
Qed.

Lemma piece_literal (v : string) :
  all_chars value_char v = true -> piece (Str.dq ++ v ++ Str.dq).
Proof.
  intros H. destruct (value_inside_literal v H) as [Hc Hq].
  unfold piece, Str.dq. cbn [append no_cut XPath.quote_state].
  change (Ascii.eqb Str.DQUOTE "/") with false.
  change (Ascii.eqb Str.DQUOTE Str.DQUOTE) with true. cbn [negb andb].
  rewrite no_cut_append, quote_state_append, Hc, Hq. split; reflexivity.
Qed.

Lemma all_chars_lstrip (p : ascii -> bool) (s : string) :
  all_chars p s = true -> all_chars p (Str.lstrip s) = true.
Proof.
  induction s as [|c r IH]; simpl; [auto|]. intros H.
  destruct (Str.isspace c); [|exact H].
  apply andb_true_iff in H. apply IH. tauto.
Qed.

Lemma all_chars_rstrip (p : ascii -> bool) (s : string) :
  all_chars p s = true -> all_chars p (Str.rstrip s) = true.
Proof.
  induction s as [|c r IH]; simpl; [auto|]. intros H.
  apply andb_true_iff in H. destruct H as [Hc Hr]. specialize (IH Hr).
  destruct (Str.rstrip r) as [|d r'].
  - destruct (Str.isspace c); simpl; [reflexivity|]. rewrite Hc. reflexivity.
  - cbn [all_chars]. rewrite Hc. exact IH.
Qed.

Lemma all_chars_strip (p : ascii -> bool) (s : string) :
  all_chars p s = true -> all_chars p (Str.strip s) = true.
Proof. intros H. apply all_chars_rstrip, all_chars_lstrip, H. Qed.

Lemma digits_of_uint (p : ascii -> bool) (d : Decimal.uint) :
  (forall c, Str.is_digit c = true -> p c = true) ->
  all_chars p (NilEmpty.string_of_uint d) = true.
Proof.
  intros Hp. induction d; simpl; try reflexivity;
    rewrite IHd, andb_true_r; apply Hp; reflexivity.
Qed.

Lemma digit_is_plain (c : ascii) : Str.is_digit c = true -> plain_char c = true.
Proof.
  destruct c as [[] [] [] [] [] [] [] []]; intros H; try discriminate H; reflexivity.
Qed.

Lemma of_nat_plain (n : nat) : all_chars plain_char (Str.of_nat n) = true.
Proof. apply digits_of_uint, digit_is_plain. Qed.

Lemma piece_join (l : list string) :
  Forall piece l -> piece (Str.join " " l).
Proof.
  induction 1 as [|p l Hp Hl IH]; [split; reflexivity|].
  destruct l as [|q l]; [exact Hp|].
  rewrite join_cons by discriminate.
  apply piece_append; [exact Hp|].
  apply piece_append; [split; reflexivity|exact IH].
Qed.

Lemma attribs_are_pieces (attrib : list (string * string)) :
  forallb (fun kv => all_chars plain_char (fst kv) && all_chars value_char (snd kv))
          attrib = true ->
  Forall piece (attribs_of attrib).
Proof.
  induction attrib as [|[k v] r IH]; cbn [attribs_of forallb fst snd]; intros H;
    [constructor|].
  apply andb_true_iff in H. destruct H as [Hkv Hr].
  apply andb_true_iff in Hkv. destruct Hkv as [Hk Hv].
  destruct (negb (String.eqb k "uuid")); [|exact (IH Hr)].
  constructor; [|exact (IH Hr)].
  apply (piece_append "@"); [split; reflexivity|].
  apply (piece_append k); [apply piece_mild, plain_is_mild, Hk|].
  apply (piece_append "="); [split; reflexivity|].
  apply piece_literal, Hv.
Qed.

(** The path entry of an element with plain names is one XPath step. *)
Lemma path_entry_piece (is_list : bool) (index : nat) (e : element) (s : string) :
  plain_names e = true ->
  path_entry is_list index e = Ok s ->
  piece s.
Proof.
  unfold plain_names, path_entry. intros H.
  apply andb_true_iff in H. destruct H as [H Ht].
  apply andb_true_iff in H. destruct H as [Htag Hattr].
  assert (Ptag : piece (el_tag e)) by (apply piece_mild, plain_is_mild, Htag).
  destruct (el_attrib e) as [|kv r] eqn:Ea.
  - destruct is_list.
    + destruct (el_text e) as [t|]; [|discriminate].
      destruct (negb (String.eqb (Str.strip t) "")); intros [= <-].
      * apply (piece_append (el_tag e)); [exact Ptag|].
        apply (piece_append "[text()="); [split; reflexivity|].
        assert (E : Str.dq ++ Str.strip t ++ Str.dq ++ "]"
                    = (Str.dq ++ Str.strip t ++ Str.dq) ++ "]")
          by (rewrite !append_assoc; reflexivity).
        change (piece (Str.dq ++ Str.strip t ++ Str.dq ++ "]")). rewrite E.
        apply piece_append; [|split; reflexivity].
        apply piece_literal, all_chars_strip, Ht.
      * apply (piece_append (el_tag e)); [exact Ptag|].
        apply (piece_append "["); [split; reflexivity|].
        apply (piece_append (Str.of_nat index)); [|split; reflexivity].
        apply piece_mild, plain_is_mild, of_nat_plain.
    + intros [= <-]. exact Ptag.
  - intros [= <-].
    apply (piece_append (el_tag e)); [exact Ptag|].
    apply (piece_append "["); [split; reflexivity|].
    apply piece_append; [|split; reflexivity].
    apply (piece_join (attribs_of (kv :: r))), (attribs_are_pieces (kv :: r)).
    exact Hattr.
Qed.

(** For an element with plain names, [__split_xpath] applied to the xpath
    the walk builds for it gives back the xpath of the parent and the path
    entry of the element, whatever slashes its attribute values or text
    contain. *)
Theorem split_xpath_recovers_entry (is_list : bool) (index : nat) (e : element)
        (xp s : string) :
  plain_names e = true ->
  XPath.quote_state false xp = false ->
  path_entry is_list index e = Ok s ->
  split_xpath (xp ++ "/" ++ s) = (xp, s).
Proof.
  intros Hn Hx Hs. apply split_xpath_slash; [exact Hx|].
  apply piece_single_step. exact (path_entry_piece _ _ _ _ Hn Hs).
Qed.

Lemma split_xpath_recovers_entry_witness :
  plain_names Fixture.slash_entry = true
  /\ path_entry false 1 Fixture.slash_entry
     = Ok ("entry[@name=" ++ Str.dq ++ "net/24" ++ Str.dq ++ "]")
  /\ split_xpath ("./address" ++ "/" ++ ("entry[@name=" ++ Str.dq ++ "net/24" ++ Str.dq ++ "]"))
     = ("./address", "entry[@name=" ++ Str.dq ++ "net/24" ++ Str.dq ++ "]").
Proof.
  assert (Hn : plain_names Fixture.slash_entry = true) by reflexivity.
  assert (Hs : path_entry false 1 Fixture.slash_entry
               = Ok ("entry[@name=" ++ Str.dq ++ "net/24" ++ Str.dq ++ "]"))
    by reflexivity.
  split; [exact Hn|]. split; [exact Hs|].
  exact (split_xpath_recovers_entry false 1 Fixture.slash_entry "./address" _
           Hn eq_refl Hs).
Defined.

(** ** The name of a snippet *)

Lemma all_chars_append (p : ascii -> bool) (a b : string) :
  all_chars p (a ++ b) = all_chars p a && all_chars p b.
Proof.
  induction a as [|c a IH]; simpl; [reflexivity|]. rewrite IH, andb_assoc. reflexivity.
Qed.

Lemma all_chars_join (p : ascii -> bool) (l : list string) :
  p " "%char = true ->
  Forall (fun s => all_chars p s = true) l ->
  all_chars p (Str.join " " l) = true.
Proof.
  intros Hsp. induction 1 as [|x l Hx Hl IH]; [reflexivity|].
  destruct l as [|y l]; [exact Hx|].
  rewrite join_cons by discriminate.
  rewrite !all_chars_append, Hx, IH. simpl. rewrite Hsp. reflexivity.
Qed.

Lemma plain_not_newline (s : string) :
  all_chars plain_char s = true -> all_chars not_newline s = true.
Proof.
  apply all_chars_weaken. intros c H. unfold plain_char in H.
  apply andb_true_iff in H. destruct H as [_ H]. exact H.
Qed.

Lemma value_not_newline (s : string) :
  all_chars value_char s = true -> all_chars not_newline s = true.
Proof.
  apply all_chars_weaken. intros c H. unfold value_char in H.
  apply andb_true_iff in H. destruct H as [_ H]. exact H.
Qed.

Lemma attribs_one_line (attrib : list (string * string)) :
  forallb (fun kv => all_chars plain_char (fst kv) && all_chars value_char (snd kv))
          attrib = true ->
  Forall (fun s => all_chars not_newline s = true) (attribs_of attrib).
Proof.
  induction attrib as [|[k v] r IH]; cbn [attribs_of forallb fst snd]; intros H;
    [constructor|].
  apply andb_true_iff in H. destruct H as [Hkv Hr].
  apply andb_true_iff in Hkv. destruct Hkv as [Hk Hv].
  destruct (negb (String.eqb k "uuid")); [|exact (IH Hr)].
  constructor; [|exact (IH Hr)].
  change (all_chars not_newline ("@" ++ k ++ "=" ++ Str.dq ++ v ++ Str.dq) = true).
  rewrite !all_chars_append, (plain_not_newline _ Hk), (value_not_newline _ Hv).
  reflexivity.
Qed.

(** The span of the pattern after an opening bracket, when the rest of the
    line ends with the closing bracket. *)
Lemma bracket_span_line (inner : string) :
  all_chars not_newline inner = true ->
  bracket_span (inner ++ "]") = S (String.length inner).
Proof.
  induction inner as [|c r IH]; intros H; [reflexivity|].
  cbn [all_chars] in H. apply andb_true_iff in H. destruct H as [Hc Hr].
  change (String c r ++ "]") with (String c (r ++ "]")).
  cbn [bracket_span String.length]. unfold not_newline in Hc.
  apply negb_true_iff in Hc. rewrite Hc, (IH Hr). reflexivity.
Qed.

Lemma skip_all (s : string) : sub_brackets_from (String.length s) s = "".
Proof. induction s as [|c r IH]; [reflexivity|exact IH]. Qed.

Lemma sub_brackets_entry (tag inner : string) :
  all_chars plain_char tag = true ->
  all_chars not_newline inner = true ->
  sub_brackets (tag ++ "[" ++ inner ++ "]") = tag.
Proof.
  intros Ht Hi. unfold sub_brackets. induction tag as [|c r IH].
  - change ("" ++ "[" ++ inner ++ "]") with (String "[" (inner ++ "]")).
    cbn [sub_brackets_from]. change (Ascii.eqb "[" "[") with true. cbv iota.
    rewrite (bracket_span_line _ Hi).
    change (S (String.length inner)) with (String.length (String "x" inner)).
    replace (String.length (String "x" inner)) with (String.length (inner ++ "]"))
      by (rewrite append_length; simpl; lia).
    apply skip_all.
  - cbn [all_chars] in Ht. apply andb_true_iff in Ht. destruct Ht as [Hc Hr].
    change (String c r ++ "[" ++ inner ++ "]") with (String c (r ++ "[" ++ inner ++ "]")).
    cbn [sub_brackets_from].
    assert (Eb : Ascii.eqb c "[" = false).
    { unfold plain_char in Hc. do 2 (apply andb_true_iff in Hc; destruct Hc as [Hc _]).
      apply andb_true_iff in Hc. destruct Hc as [_ Hc]. apply negb_true_iff. exact Hc. }
    rewrite Eb, (IH Hr). reflexivity.
Qed.

Lemma sub_brackets_plain (tag : string) :
  all_chars plain_char tag = true -> sub_brackets tag = tag.
Proof.
  unfold sub_brackets. induction tag as [|c r IH]; intros Ht; [reflexivity|].
  cbn [all_chars] in Ht. apply andb_true_iff in Ht. destruct Ht as [Hc Hr].
  cbn [sub_brackets_from].
  assert (Eb : Ascii.eqb c "[" = false).
  { unfold plain_char in Hc. do 2 (apply andb_true_iff in Hc; destruct Hc as [Hc _]).
    apply andb_true_iff in Hc. destruct Hc as [_ Hc]. apply negb_true_iff. exact Hc. }
  rewrite Eb, (IH Hr). reflexivity.
Qed.

Lemma path_entry_tag (is_list : bool) (index : nat) (e : element) (s : string) :
  plain_names e = true ->
  path_entry is_list index e = Ok s ->
  sub_brackets s = el_tag e.
Proof.
  unfold plain_names, path_entry. intros H.
  apply andb_true_iff in H. destruct H as [H Ht].
  apply andb_true_iff in H. destruct H as [Htag Hattr].
  destruct (el_attrib e) as [|kv r] eqn:Ea.
  - destruct is_list.
    + destruct (el_text e) as [t|]; [|discriminate].
      destruct (negb (String.eqb (Str.strip t) "")); intros [= <-].
      * assert (E : el_tag e ++ "[text()=" ++ Str.dq ++ Str.strip t ++ Str.dq ++ "]"
                    = el_tag e ++ "[" ++ ("text()=" ++ Str.dq ++ Str.strip t ++ Str.dq) ++ "]")
          by (rewrite !append_assoc; reflexivity).
        change (sub_brackets (el_tag e ++ "[text()=" ++ Str.dq ++ Str.strip t ++ Str.dq ++ "]")
                = el_tag e).
        rewrite E. apply sub_brackets_entry; [exact Htag|].
        rewrite !all_chars_append.
        rewrite (value_not_newline _ (all_chars_strip _ _ Ht)). reflexivity.
      * apply (sub_brackets_entry (el_tag e) (Str.of_nat index)); [exact Htag|].
        apply plain_not_newline, of_nat_plain.
    + intros [= <-]. apply sub_brackets_plain. exact Htag.
  - intros [= <-].
    apply (sub_brackets_entry (el_tag e) (Str.join " " (attribs_of (kv :: r))));
      [exact Htag|].
    apply (all_chars_join not_newline (attribs_of (kv :: r))); [reflexivity|].
    apply (attribs_one_line (kv :: r)). exact Hattr.
Qed.

(** ** Elements with several attributes *)

Lemma cut_append (c : ascii) (a r : string) :
  all_chars (fun x => negb (Ascii.eqb x c)) a = true ->
  Str.cut c (a ++ String c r) = Some (a, r).
Proof.
  induction a as [|x a IH]; intros H.
  - simpl. rewrite Ascii.eqb_refl. reflexivity.
  - cbn [all_chars] in H. apply andb_true_iff in H. destruct H as [Hx Ha].
    apply negb_true_iff in Hx.
    change (String x a ++ String c r) with (String x (a ++ String c r)).
    cbn [Str.cut]. rewrite Hx, (IH Ha). reflexivity.
Qed.

Lemma without_last_snoc (c : ascii) (x : string) :
  XPath.without_last c (x ++ String c "") = Some x.
Proof.
  induction x as [|a r IH].
  - simpl. rewrite Ascii.eqb_refl. reflexivity.
  - change (String a r ++ String c "") with (String a (r ++ String c "")).
    cbn [XPath.without_last]. rewrite IH.
    destruct r; reflexivity.
Qed.

Lemma plain_without (c : ascii) (s : string) :
  plain_char c = false ->
  all_chars plain_char s = true ->
  all_chars (fun x => negb (Ascii.eqb x c)) s = true.
Proof.
  intros Hc. apply all_chars_weaken. intros x Hx.
  destruct (Ascii.eqb_spec x c) as [->|_]; [congruence|reflexivity].
Qed.

Lemma value_without_quote (s : string) :
  all_chars value_char s = true ->
  all_chars (fun x => negb (Ascii.eqb x Str.DQUOTE)) s = true.
Proof.
  apply all_chars_weaken. intros x Hx. unfold value_char in Hx.
  apply andb_true_iff in Hx. tauto.
Qed.

Lemma attribs_shape (attrib : list (string * string)) :
  forallb (fun kv => all_chars plain_char (fst kv) && all_chars value_char (snd kv))
          attrib = true ->
  Forall (fun a => exists k v,
              a = "@" ++ k ++ "=" ++ Str.dq ++ v ++ Str.dq /\
              all_chars plain_char k = true /\ all_chars value_char v = true)
         (attribs_of attrib).
Proof.
  induction attrib as [|[k v] r IH]; cbn [attribs_of forallb fst snd]; intros H;
    [constructor|].
  apply andb_true_iff in H. destruct H as [Hkv Hr].
  apply andb_true_iff in Hkv. destruct Hkv as [Hk Hv].
  destruct (negb (String.eqb k "uuid")); [|exact (IH Hr)].
  constructor; [|exact (IH Hr)]. exists k, v. auto.
Qed.

(** Two attribute tests side by side are not a predicate. *)
Lemma parse_predicate_two (k v more : string) :
  all_chars plain_char k = true ->
  all_chars value_char v = true ->
  XPath.parse_predicate (("@" ++ k ++ "=" ++ Str.dq ++ v ++ Str.dq) ++ " " ++ more) = None.
Proof.
  intros Hk Hv.
  assert (E : ("@" ++ k ++ "=" ++ Str.dq ++ v ++ Str.dq) ++ " " ++ more
              = String "@" (k ++ String "=" (String Str.DQUOTE
                                               (v ++ String Str.DQUOTE (" " ++ more))))).
  { unfold Str.dq. rewrite !append_assoc. reflexivity. }
  rewrite E. cbn [XPath.parse_predicate].
  rewrite (cut_append "=" k _ (plain_without "=" k eq_refl Hk)).
  destruct k as [|c k]; [reflexivity|].
  cbn [XPath.parse_literal]. rewrite Ascii.eqb_refl.
  rewrite (cut_append Str.DQUOTE v _ (value_without_quote v Hv)).
  reflexivity.
Qed.

Lemma parse_predicate_join_two (a1 a2 : string) (rest : list string) :
  (exists k v,
      a1 = "@" ++ k ++ "=" ++ Str.dq ++ v ++ Str.dq /\
      all_chars plain_char k = true /\ all_chars value_char v = true) ->
  XPath.parse_predicate (Str.join " " (a1 :: a2 :: rest)) = None.
Proof.
  intros [k [v [E [Hk Hv]]]]. rewrite join_cons by discriminate. rewrite E.
  apply parse_predicate_two; assumption.
Qed.

Lemma parse_step_bad_predicate (tag inner : string) :
  all_chars plain_char tag = true ->
  XPath.parse_predicate inner = None ->
  XPath.parse_step (tag ++ "[" ++ inner ++ "]") = None.
Proof.
  intros Ht Hp. unfold XPath.parse_step.
  change (tag ++ "[" ++ inner ++ "]") with (tag ++ String "[" (inner ++ String "]" "")).
  rewrite (cut_append "[" tag _ (plain_without "[" tag eq_refl Ht)).
  destruct tag; [reflexivity|].
  rewrite without_last_snoc, Hp. reflexivity.
Qed.

Lemma eval_steps_raises (steps : list string) (nodes : list element) (e : exn) :
  XPath.eval_steps steps nodes = Raise e -> e = XPathEvalError.
Proof.
  revert nodes. induction steps as [|s r IH]; intros nodes; simpl; [discriminate|].
  destruct (XPath.parse_step s); [apply IH|]. intros [= <-]. reflexivity.
Qed.

Lemma xpath_bad_step (doc : element) (xp s : string) :
  XPath.quote_state false xp = false ->
  single_step s = true ->
  XPath.parse_step s = None ->
  xpath doc (xp ++ "/" ++ s) = Raise XPathEvalError.
Proof.
  intros Hx Hs Hp. unfold xpath.
  rewrite (split_steps_slash _ _ _ Hx).
  destruct (single_step_spec _ Hs) as [-> _].
  destruct (XPath.split_steps false xp) as [|h t] eqn:E.
  - exfalso. exact (split_steps_not_nil _ _ E).
  - cbn [app].
    destruct (String.eqb_spec h ".") as [->|Hne].
    + rewrite eval_steps_app.
      destruct (XPath.eval_steps t [doc]) as [r|e] eqn:Ee; cbn [bind].
      * simpl. rewrite Hp. reflexivity.
      * rewrite (eval_steps_raises _ _ _ Ee). reflexivity.
    + destruct h as [|c h]; [reflexivity|].
      destruct c as [[] [] [] [] [] [] [] []]; try reflexivity.
      destruct h; [contradiction|reflexivity].
Qed.

(** An element with plain names that carries attributes, of which none or
    more than one is not a uuid, is given a path entry that lxml refuses:
    checking it raises XPathEvalError, whatever the previous document. *)
Theorem attributes_make_xpath_invalid (is_list : bool) (index : nat) (e : element)
        (xp : string) :
  plain_names e = true ->
  el_attrib e <> [] ->
  List.length (attribs_of (el_attrib e)) <> 1 ->
  XPath.quote_state false xp = false ->
  exists s,
    path_entry is_list index e = Ok s /\
    forall (Action : Type) (diff_trees : element -> element -> list Action)
           (pc : element) (nf : list string),
      check_element Action diff_trees e (xp ++ "/" ++ s) pc nf = Raise XPathEvalError.
Proof.
  intros Hn Ha Hlen Hx.
  assert (Hentry : path_entry is_list index e
                   = Ok (el_tag e ++ "[" ++ Str.join " " (attribs_of (el_attrib e)) ++ "]")).
  { unfold path_entry. destruct (el_attrib e); [contradiction|reflexivity]. }
  exists (el_tag e ++ "[" ++ Str.join " " (attribs_of (el_attrib e)) ++ "]").
  split; [exact Hentry|]. intros Action diff_trees pc nf.
  rewrite check_element_eq, xpath_bad_step; [reflexivity|exact Hx| |].
  - apply piece_single_step. exact (path_entry_piece _ _ _ _ Hn Hentry).
  - unfold plain_names in Hn.
    apply andb_true_iff in Hn. destruct Hn as [Hn _].
    apply andb_true_iff in Hn. destruct Hn as [Htag Hattr].
    apply parse_step_bad_predicate; [exact Htag|].
    pose proof (attribs_shape _ Hattr) as Hshape.
    destruct (attribs_of (el_attrib e)) as [|a1 [|a2 rest]].
    + reflexivity.
    + simpl in Hlen. contradiction.
    + apply parse_predicate_join_two. exact (Forall_inv Hshape).
Qed.

Lemma attributes_make_xpath_invalid_witness :
  plain_names Fixture.dirty_entry = true
  /\ exists s,
       path_entry false 1 Fixture.dirty_entry = Ok s /\
       forall (Action : Type) (diff_trees : element -> element -> list Action)
              (pc : element) (nf : list string),
         check_element Action diff_trees Fixture.dirty_entry ("./rulebase" ++ "/" ++ s) pc nf
         = Raise XPathEvalError.
Proof.
  assert (Hn : plain_names Fixture.dirty_entry = true) by reflexivity.
  split; [exact Hn|].
  apply (attributes_make_xpath_invalid false 1 Fixture.dirty_entry "./rulebase" Hn).
  - discriminate.
  - simpl. lia.
  - reflexivity.
Defined.

(** ** The accumulator of [__check_element] *)

Section Accumulator.

Variable Action : Type.
Variable diff_trees : element -> element -> list Action.

Lemma check_children_appends (xp : string) (pc : element) (is_list : bool)
      (es : list element) :
  forall index nf,
    check_children Action diff_trees xp pc is_list es index nf
    = (new <- check_children Action diff_trees xp pc is_list es index [] ;;
       Ok (nf ++ new)%list).
Proof.
  induction es as [|e es IH]; intros index nf.
  - simpl. rewrite app_nil_r. reflexivity.
  - rewrite !check_children_eq.
    destruct (path_entry is_list index e) as [s|]; [|reflexivity]. cbn [bind].
    destruct (check_element Action diff_trees e (xp ++ "/" ++ s) pc []) as [r1|];
      [|reflexivity].
    cbn [bind app]. rewrite (IH (index + 1) (nf ++ r1)%list), (IH (index + 1) r1).
    destruct (check_children Action diff_trees xp pc is_list es (index + 1) []);
      [|reflexivity].
    cbn [bind]. rewrite app_assoc. reflexivity.
Qed.

(** The paths found so far are only added to: a call with the list
    [not_founds] raises exactly when the call with an empty list does, and
    otherwise returns [not_founds] followed by what that call returns. *)
Theorem check_element_appends (el : element) (xp : string) (pc : element)
        (nf : list string) :
  check_element Action diff_trees el xp pc nf
  = (new <- check_element Action diff_trees el xp pc [] ;; Ok (nf ++ new)%list).
Proof.
  rewrite !check_element_eq.
  destruct (xpath pc xp) as [[|f o]|]; cbn [bind]; [reflexivity| |reflexivity].
  destruct (List.length (el_children el) =? 0)%nat.
  - destruct (negb (text_eqb (el_text f) (el_text el))); cbn [bind]; [reflexivity|].
    rewrite app_nil_r. reflexivity.
  - destruct (check_children_are_list (el_children el)).
    + destruct (List.length (diff_trees f el) =? 0)%nat.
      * cbn [bind]. rewrite app_nil_r. reflexivity.
      * apply check_children_appends.
    + apply check_children_appends.
Qed.

End Accumulator.

(** ** Nodes directly under the root *)

Lemma cut_none (c : ascii) (s : string) :
  all_chars (fun x => negb (Ascii.eqb x c)) s = true -> Str.cut c s = None.
Proof.
  induction s as [|x r IH]; intros H; [reflexivity|].
  cbn [all_chars] in H. apply andb_true_iff in H. destruct H as [Hx Hr].
  apply negb_true_iff in Hx. cbn [Str.cut]. rewrite Hx, (IH Hr). reflexivity.
Qed.

Lemma parse_step_tag (tag : string) :
  all_chars plain_char tag = true ->
  tag <> "" ->
  XPath.parse_step tag = Some (XPath.Step tag XPath.NoPredicate).
Proof.
  intros Ht Hne. unfold XPath.parse_step.
  rewrite (cut_none "[" tag (plain_without "[" tag eq_refl Ht)).
  destruct (String.eqb_spec tag ""); [contradiction|reflexivity].
Qed.

Lemma xpath_root_child (doc : element) (tag : string) :
  all_chars plain_char tag = true ->
  tag <> "" ->
  xpath doc ("." ++ "/" ++ tag)
  = Ok (filter (fun c => String.eqb (el_tag c) tag) (el_children doc)).
Proof.
  intros Ht Hne.
  rewrite (xpath_slash doc "." tag [doc] eq_refl
             (piece_single_step _ (piece_mild _ (plain_is_mild _ Ht))) eq_refl).
  rewrite (parse_step_tag tag Ht Hne).
  unfold XPath.apply_step, XPath.select. cbn [flat_map XPath.step_pred XPath.step_tag].
  rewrite app_nil_r. f_equal.
  induction (filter (fun c => String.eqb (el_tag c) tag) (el_children doc)) as [|c l IH];
    [reflexivity|].
  simpl. rewrite IH. reflexivity.
Qed.

Lemma no_child_tagged (l : list element) (tag : string) :
  (forall p, In p l -> el_tag p <> tag) ->
  filter (fun p => String.eqb (el_tag p) tag) l = [].
Proof.
  induction l as [|p ps IH]; intros H; [reflexivity|].
  simpl. destruct (String.eqb_spec (el_tag p) tag) as [Ep|_].
  - exfalso. exact (H p (or_introl eq_refl) Ep).
  - apply IH. intros q Hq. apply H. right. exact Hq.
Qed.

Section RootChildren.

Variable Action : Type.
Variable diff_trees : element -> element -> list Action.

(** Children of the latest root whose tag (a plain name) no child of the
    previous root has are reported whole: the change set holds one xpath per
    such child, its tag after the root marker, and nothing from below it;
    the container path computed for each is the bare root marker. *)
Theorem new_root_children_reported_whole (previous_doc : element) (cs : list element)
        (acc : list string) :
  (forall c, In c cs ->
             all_chars plain_char (el_tag c) = true /\ el_tag c <> "" /\
             forall p, In p (el_children previous_doc) -> el_tag p <> el_tag c) ->
  collect_not_found Action diff_trees cs previous_doc acc
  = Ok (acc ++ map (fun c => ("." ++ "/" ++ el_tag c)%string) cs)%list
  /\ Forall (fun c => container_path ("." ++ "/" ++ el_tag c) = ".") cs.
Proof.
  intros H. split.
  - revert acc. induction cs as [|c cs IH]; intros acc.
    + simpl. rewrite app_nil_r. reflexivity.
    + destruct (H c (or_introl eq_refl)) as [Ht [Hne Hno]].
      cbn [collect_not_found map]. rewrite check_element_eq.
      rewrite (xpath_root_child previous_doc (el_tag c) Ht Hne).
      rewrite (no_child_tagged _ _ Hno). cbn [bind app].
      rewrite IH by (intros c' Hc'; apply H; right; exact Hc').
      rewrite <- app_assoc. reflexivity.
  - apply Forall_forall. intros c Hc. destruct (H c Hc) as [Ht _].
    unfold container_path.
    rewrite (split_xpath_slash "." (el_tag c) eq_refl
               (piece_single_step _ (piece_mild _ (plain_is_mild _ Ht)))).
    reflexivity.
Qed.

End RootChildren.

Lemma new_root_children_reported_whole_witness :
  (forall c, In c (el_children Fixture.two_nodes) ->
             all_chars plain_char (el_tag c) = true /\ el_tag c <> "" /\
             forall p, In p (el_children Fixture.empty_config) -> el_tag p <> el_tag c)
  /\ collect_not_found unit Sample.tree_differ (el_children Fixture.two_nodes)
       Fixture.empty_config [] = Ok ["./shared"; "./devices"]
  /\ Forall (fun c => container_path ("." ++ "/" ++ el_tag c) = ".")
       (el_children Fixture.two_nodes).
Proof.
  assert (H : forall c, In c (el_children Fixture.two_nodes) ->
              all_chars plain_char (el_tag c) = true /\ el_tag c <> "" /\
              forall p, In p (el_children Fixture.empty_config) -> el_tag p <> el_tag c).
  { simpl. intros c [<-|[<-|[]]]; repeat split; try discriminate; intros p []. }
  split; [exact H|].
  exact (new_root_children_reported_whole unit Sample.tree_differ
           Fixture.empty_config _ [] H).
Defined.

(** ** Container paths of the emitted snippets *)

Lemma path_from_snoc (init : list string) (xp last : string) :
  path_from xp (init ++ [last]) = path_from xp init ++ "/" ++ last.
Proof.
  revert xp. induction init as [|s r IH]; intros xp; [reflexivity|].
  cbn [app path_from]. apply IH.
Qed.

Lemma path_from_prefix (steps : list string) (xp : string) :
  exists rest, path_from xp steps = xp ++ rest.
Proof.
  revert xp. induction steps as [|s r IH]; intros xp.
  - exists "". rewrite append_nil_r. reflexivity.
  - cbn [path_from]. destruct (IH (xp ++ "/" ++ s)) as [rest ->].
    exists ("/" ++ s ++ rest). rewrite !append_assoc. reflexivity.
Qed.

Lemma container_of_steps (s : string) (steps : list string) :
  forallb single_step (s :: steps) = true ->
  container_path (path_from "." (s :: steps)) = "." \/
  String.prefix "/config/" (container_path (path_from "." (s :: steps))) = true.
Proof.
  intros H.
  destruct (@exists_last _ (s :: steps)) as [init [last E]]; [discriminate|].
  rewrite E in *. rewrite forallb_app in H. apply andb_true_iff in H.
  destruct H as [Hinit Hlast]. cbn [forallb] in Hlast. rewrite andb_true_r in Hlast.
  rewrite path_from_snoc. unfold container_path.
  destruct (split_steps_path_from init "." eq_refl Hinit) as [_ Hq].
  rewrite (split_xpath_slash _ _ Hq Hlast). cbn [fst].
  destruct init as [|i1 r].
  - left. reflexivity.
  - right. cbn [path_from]. destruct (path_from_prefix r ("." ++ "/" ++ i1)) as [rest ->].
    change (("." ++ "/" ++ i1) ++ rest) with (String "." (String "/" (i1 ++ rest))).
    cbn. destruct (i1 ++ rest); reflexivity.
Qed.

Lemma plain_descendants_child (el c : element) :
  forallb plain_names (descendants el) = true ->
  In c (el_children el) ->
  forallb plain_names (descendants c) = true.
Proof.
  intros H Hc. apply forallb_forall. intros x Hx.
  rewrite forallb_forall in H. apply H.
  apply descendants_child with c; assumption.
Qed.


(** ** [__clean_uuid], in general *)

Lemma get_pop_uuid (k : string) (attrib : list (string * string)) :
  XPath.get k (pop_uuid attrib)
  = if String.eqb k "uuid" then None else XPath.get k attrib.
Proof.
  induction attrib as [|[k' v] r IH].
  - cbn. destruct (String.eqb k "uuid"); reflexivity.
  - unfold pop_uuid in *. cbn [filter fst XPath.get].
    destruct (String.eqb_spec k' "uuid") as [->|Hne]; cbn [negb XPath.get].
    + rewrite IH. destruct (String.eqb_spec k "uuid") as [->|Hk]; [reflexivity|].
      destruct (String.eqb_spec "uuid" k); [congruence|reflexivity].
    + rewrite IH. destruct (String.eqb_spec k' k) as [->|_].
      * destruct (String.eqb_spec k "uuid"); [contradiction|reflexivity].
      * reflexivity.
Qed.

Lemma descendants_pop_uuid (e : element) :
  descendants (pop_uuid_deep e)
  = map (fun d => Element (el_tag d) (pop_uuid (el_attrib d)) (el_text d)
                          (map pop_uuid_deep (el_children d)) (el_tail d))
        (descendants e).
Proof.
  induction e as [t a x cs tl IH] using element_rect'.
  cbn [pop_uuid_deep descendants map el_tag el_attrib el_text el_children el_tail].
  f_equal. induction IH as [|c r Hc _ IHr]; [reflexivity|].
  cbn [map flat_map]. rewrite map_app, Hc, IHr. reflexivity.
Qed.

(** What [__clean_uuid] does to a node: the node keeps its tag, text and
    all of its own attributes (a uuid of its own included); below it the
    elements are the same in number and order, with the same tags and
    texts, none has a uuid attribute any more, and every other attribute
    reads as before. *)
Theorem clean_uuid_cleans_below (e : element) :
  exists e',
    clean_uuid (Some e) = Some e' /\
    el_tag e' = el_tag e /\ el_text e' = el_text e /\ el_attrib e' = el_attrib e /\
    map el_tag (descendants e') = map el_tag (descendants e) /\
    map el_text (descendants e') = map el_text (descendants e) /\
    Forall (fun d => XPath.get "uuid" (el_attrib d) = None)
           (flat_map descendants (el_children e')) /\
    forall k, k <> "uuid" ->
              map (fun d => XPath.get k (el_attrib d)) (descendants e')
              = map (fun d => XPath.get k (el_attrib d)) (descendants e).
Proof.
  destruct e as [t a x cs tl].
  exists (Element t a x (map pop_uuid_deep cs) tl).
  split; [reflexivity|]. split; [reflexivity|]. split; [reflexivity|].
  split; [reflexivity|].
  assert (D : flat_map descendants (map pop_uuid_deep cs)
              = map (fun d => Element (el_tag d) (pop_uuid (el_attrib d)) (el_text d)
                                      (map pop_uuid_deep (el_children d)) (el_tail d))
                    (flat_map descendants cs)).
  { induction cs as [|c r IH]; [reflexivity|].
    cbn [map flat_map]. rewrite map_app, descendants_pop_uuid, IH. reflexivity. }
  cbn [descendants map el_tag el_text el_attrib el_children]. rewrite D, !map_map.
  cbn [el_tag el_text el_attrib].
  split; [reflexivity|]. split; [reflexivity|]. split.
  - apply Forall_forall. intros d Hd. apply in_map_iff in Hd.
    destruct Hd as [d0 [<- _]]. cbn [el_attrib]. rewrite get_pop_uuid. reflexivity.
  - intros k Hk. f_equal. rewrite map_map. apply map_ext. intros d.
    cbn [el_attrib]. rewrite get_pop_uuid.
    destruct (String.eqb_spec k "uuid"); [contradiction|reflexivity].
Qed.

(** ** [sanitize_element] *)

(** With a pattern of one character the replacement goes character by
    character. *)
Lemma remove_newlines_step (c : ascii) (r : string) :
  Str.replace Str.nl "" (String c r)
  = if Ascii.eqb c Str.NEWLINE then Str.replace Str.nl "" r
    else String c (Str.replace Str.nl "" r).
Proof.
  unfold Str.replace, Str.nl. cbn [Str.replace_from String.prefix String.length].
  destruct (ascii_dec Str.NEWLINE c) as [E|E].
  - subst c. rewrite Ascii.eqb_refl. destruct r; reflexivity.
  - destruct (Ascii.eqb_spec c Str.NEWLINE) as [E'|_]; [congruence|reflexivity].
Qed.

Lemma remove_newlines_none (s : string) :
  Str.count Str.NEWLINE (Str.replace Str.nl "" s) = 0.
Proof.
  induction s as [|c r IH]; [reflexivity|].
  rewrite remove_newlines_step. destruct (Ascii.eqb c Str.NEWLINE) eqn:E; [exact IH|].
  cbn [Str.count]. rewrite E, IH. reflexivity.
Qed.

Lemma remove_newlines_same (s : string) :
  Str.count Str.NEWLINE s = 0 -> Str.replace Str.nl "" s = s.
Proof.
  induction s as [|c r IH]; intros H; [reflexivity|].
  rewrite remove_newlines_step. cbn [Str.count] in H.
  destruct (Ascii.eqb c Str.NEWLINE); [discriminate|].
  rewrite IH by exact H. reflexivity.
Qed.

Lemma remove_newlines_append (a b : string) :
  Str.replace Str.nl "" (a ++ b) = Str.replace Str.nl "" a ++ Str.replace Str.nl "" b.
Proof.
  induction a as [|c r IH]; [reflexivity|].
  change (String c r ++ b) with (String c (r ++ b)).
  rewrite !remove_newlines_step, IH. destruct (Ascii.eqb c Str.NEWLINE); reflexivity.
Qed.

Lemma remove_newlines_keep (p : ascii -> bool) (s : string) :
  p Str.NEWLINE = false ->
  keep p (Str.replace Str.nl "" s) = keep p s.
Proof.
  intros Hp. induction s as [|c r IH]; [reflexivity|].
  rewrite remove_newlines_step. destruct (Ascii.eqb_spec c Str.NEWLINE) as [->|_].
  - cbn [keep]. rewrite Hp. exact IH.
  - cbn [keep]. rewrite IH. reflexivity.
Qed.

Lemma drop_runs_keep (s : string) (dropping : bool) :
  keep (fun c => negb (Str.isspace c)) (drop_newline_runs dropping s)
  = keep (fun c => negb (Str.isspace c)) s.
Proof.
  revert dropping. induction s as [|c r IH]; intros dropping; [reflexivity|].
  cbn [drop_newline_runs keep].
  destruct (dropping && Str.isspace c) eqn:E1.
  - apply andb_true_iff in E1. destruct E1 as [_ E1]. rewrite E1. cbn [negb]. apply IH.
  - destruct (Ascii.eqb c Str.NEWLINE && starts_with_space r) eqn:E2.
    + apply andb_true_iff in E2. destruct E2 as [E2 _]. apply Ascii.eqb_eq in E2. subst c.
      change (Str.isspace Str.NEWLINE) with true. cbn [negb]. apply IH.
    + cbn [keep]. rewrite IH. reflexivity.
Qed.

Lemma drop_runs_same (s : string) :
  Str.count Str.NEWLINE s = 0 -> drop_newline_runs false s = s.
Proof.
  induction s as [|c r IH]; intros H; [reflexivity|].
  cbn [Str.count] in H. cbn [drop_newline_runs andb].
  destruct (Ascii.eqb c Str.NEWLINE); [discriminate|].
  cbn [andb]. rewrite IH by exact H. reflexivity.
Qed.

Lemma drop_runs_prefix (a t : string) :
  Str.count Str.NEWLINE a = 0 ->
  drop_newline_runs false (a ++ t) = a ++ drop_newline_runs false t.
Proof.
  induction a as [|c r IH]; intros H; [reflexivity|].
  cbn [Str.count] in H.
  change (String c r ++ t) with (String c (r ++ t)).
  cbn [drop_newline_runs andb append].
  destruct (Ascii.eqb c Str.NEWLINE); [discriminate|].
  cbn [andb]. rewrite IH by exact H. reflexivity.
Qed.

Lemma drop_runs_resume (b : string) :
  starts_with_space b = false ->
  drop_newline_runs true b = drop_newline_runs false b.
Proof.
  destruct b as [|c r]; [reflexivity|]. cbn [starts_with_space]. intros H.
  cbn [drop_newline_runs]. rewrite H. reflexivity.
Qed.

Lemma drop_runs_space (ws b : string) :
  all_chars Str.isspace ws = true ->
  starts_with_space b = false ->
  drop_newline_runs true (ws ++ b) = drop_newline_runs false b.
Proof.
  intros Hws Hb. induction ws as [|c r IH].
  - apply drop_runs_resume. exact Hb.
  - cbn [all_chars] in Hws. apply andb_true_iff in Hws. destruct Hws as [Hc Hr].
    change (String c r ++ b) with (String c (r ++ b)).
    cbn [drop_newline_runs]. rewrite Hc. cbn [andb]. apply IH. exact Hr.
Qed.

(** The sanitised element has no line feed; nothing but white space was
    removed from the element (its other characters are all there, in
    order); sanitising it again changes nothing. *)
Theorem sanitize_element_removes_white_space (element : string) :
  Str.count Str.NEWLINE (sanitize_element element) = 0
  /\ keep (fun c => negb (Str.isspace c)) (sanitize_element element)
     = keep (fun c => negb (Str.isspace c)) element
  /\ sanitize_element (sanitize_element element) = sanitize_element element.
Proof.
  assert (H0 : Str.count Str.NEWLINE (sanitize_element element) = 0)
    by apply remove_newlines_none.
  split; [exact H0|]. split.
  - unfold sanitize_element. rewrite remove_newlines_keep by reflexivity.
    apply drop_runs_keep.
  - unfold sanitize_element at 1.
    rewrite (drop_runs_same _ H0). apply remove_newlines_same. exact H0.
Qed.

(** An element without line feed is left as it is.  A line feed with the
    white space that follows it (the indentation of the next line) goes
    away: a line without line feed, a line feed, white space and a rest
    that does not start with white space sanitise to the line followed by
    the sanitised rest. *)
Theorem sanitize_element_joins_lines (line ws rest : string) :
  Str.count Str.NEWLINE line = 0 ->
  all_chars Str.isspace ws = true ->
  starts_with_space rest = false ->
  sanitize_element line = line
  /\ sanitize_element (line ++ Str.nl ++ ws ++ rest) = line ++ sanitize_element rest.
Proof.
  intros Hl Hws Hr. split.
  - unfold sanitize_element. rewrite (drop_runs_same _ Hl). apply remove_newlines_same, Hl.
  - unfold sanitize_element. rewrite (drop_runs_prefix _ _ Hl).
    rewrite remove_newlines_append, (remove_newlines_same _ Hl). f_equal.
    change (Str.nl ++ ws ++ rest) with (String Str.NEWLINE (ws ++ rest)).
    cbn [drop_newline_runs andb]. rewrite Ascii.eqb_refl. cbn [andb].
    destruct ws as [|c w].
    + cbn [append]. rewrite Hr. rewrite remove_newlines_step, Ascii.eqb_refl.
      reflexivity.
    + cbn [all_chars] in Hws. apply andb_true_iff in Hws. destruct Hws as [Hc Hw].
      change (String c w ++ rest) with (String c (w ++ rest)).
      cbn [starts_with_space]. rewrite Hc.
      change (String c (w ++ rest)) with (String c w ++ rest).
      rewrite drop_runs_space; [reflexivity| |exact Hr].
      cbn [all_chars]. rewrite Hc, Hw. reflexivity.
Qed.

Lemma sanitize_element_joins_lines_witness :
  Str.count Str.NEWLINE "<entry>" = 0
  /\ sanitize_element "<entry>" = "<entry>"
  /\ sanitize_element ("<entry>" ++ Str.nl ++ "    " ++ "<ip>10.0.0.1</ip>")
     = "<entry>" ++ sanitize_element "<ip>10.0.0.1</ip>".
Proof.
  assert (H : Str.count Str.NEWLINE "<entry>" = 0) by reflexivity.
  split; [exact H|].
  exact (sanitize_element_joins_lines "<entry>" "    " "<ip>10.0.0.1</ip>"
           H eq_refl eq_refl).
Defined.

(** ** [check_content_updates] *)

Section ContentUpdatesProperties.

Variable int : string -> option Z.

Lemma consider_returns (st st1 : latest) (entry : element) :
  consider int st entry = Return st1 ->
  exists a b v,
    version_numbers int entry = Some (a, b)
    /\ entry_version entry = Some v
    /\ find_child "current" entry <> None
    /\ (((a > latest_version_first st)%Z /\ (b > latest_version_second st)%Z
         /\ st1 = Latest v a b (entry_current entry))
        \/ (((a <= latest_version_first st)%Z \/ (b <= latest_version_second st)%Z)
            /\ st1 = st)).
Proof.
  unfold consider, version_numbers, entry_version, entry_current.
  destruct (find_child "version" entry) as [ve|]; [|discriminate].
  destruct (find_child "current" entry) as [ce|]; [|discriminate].
  destruct (el_text ve) as [v|]; [|discriminate].
  destruct (split_on "-" v) as [|first [|second rest]]; cbn [hd tl].
  - destruct (int ""); discriminate.
  - destruct (int first); discriminate.
  - destruct (int first) as [a|]; [|discriminate].
    destruct (int second) as [b|]; [|discriminate].
    intros H. exists a, b, v. repeat split; try discriminate.
    destruct (a >? latest_version_first st)%Z eqn:Ea;
      destruct (b >? latest_version_second st)%Z eqn:Eb;
      cbn [andb] in H; injection H as <-.
    + left. apply Z.gtb_lt in Ea, Eb. repeat split; try lia.
    + right. split; [|reflexivity]. right.
      rewrite Z.gtb_ltb in Eb. apply Z.ltb_ge in Eb. exact Eb.
    + right. split; [|reflexivity]. left.
      rewrite Z.gtb_ltb in Ea. apply Z.ltb_ge in Ea. exact Ea.
    + right. split; [|reflexivity]. left.
      rewrite Z.gtb_ltb in Ea. apply Z.ltb_ge in Ea. exact Ea.
Qed.

Lemma consider_raises (st : latest) (entry : element) :
  version_numbers int entry = None \/ find_child "current" entry = None ->
  exists e, consider int st entry = Throw e.
Proof.
  unfold consider, version_numbers.
  destruct (find_child "version" entry) as [ve|]; [|eauto].
  destruct (find_child "current" entry) as [ce|]; [|eauto].
  destruct (el_text ve) as [v|]; [|eauto].
  destruct (split_on "-" v) as [|first [|second rest]]; cbn [hd tl].
  - destruct (int ""); eauto.
  - destruct (int first); eauto.
  - destruct (int first) as [a|]; [|eauto].
    destruct (int second) as [b|]; [|eauto].
    intros [H|H]; discriminate.
Qed.

(** What the loop keeps true of the version it holds. *)
Lemma scan_entries_keeps (entries : list element) (st st1 : latest) :
  scan_entries int entries st = Return st1 ->
  (latest_version_first st <= latest_version_first st1)%Z
  /\ (latest_version_second st <= latest_version_second st1)%Z
  /\ unsurpassed int entries (latest_version_first st1) (latest_version_second st1)
  /\ (forall e, In e entries -> version_numbers int e <> None)
  /\ ((st1 = st
       /\ unsurpassed int entries (latest_version_first st) (latest_version_second st))
      \/ exists e, In e entries
           /\ version_numbers int e
              = Some (latest_version_first st1, latest_version_second st1)
           /\ (latest_version_first st < latest_version_first st1)%Z
           /\ (latest_version_second st < latest_version_second st1)%Z
           /\ entry_version e = Some (latest_version st1)
           /\ entry_current e = latest_version_current st1).
Proof.
  revert st. induction entries as [|entry rest IH]; intros st H.
  - injection H as <-. repeat split; try lia.
    + intros e a b [].
    + intros e [].
    + left. split; [reflexivity|]. intros e a b [].
  - cbn [scan_entries] in H.
    destruct (consider int st entry) as [st'|ex] eqn:E; [|discriminate].
    destruct (consider_returns _ _ _ E) as (a & b & v & Hn & Hv & _ & Hcase).
    destruct (IH _ H) as (M1 & M2 & U & T & O).
    assert (M : (latest_version_first st <= latest_version_first st')%Z
                /\ (latest_version_second st <= latest_version_second st')%Z
                /\ ((a <= latest_version_first st')%Z
                    \/ (b <= latest_version_second st')%Z)).
    { destruct Hcase as [(Ha & Hb & ->)|[Hle ->]]; cbn; lia. }
    destruct M as (N1 & N2 & N3).
    split; [lia|]. split; [lia|]. split; [|split].
    + intros e a' b' [<-|Hin] He.
      * rewrite Hn in He. injection He as <- <-. lia.
      * exact (U e a' b' Hin He).
    + intros e [<-|Hin]; [rewrite Hn; discriminate|exact (T e Hin)].
    + destruct O as [[-> U']|(e & Hin & Hnum & L1 & L2 & O)].
      * destruct Hcase as [(Ha & Hb & ->)|[Hle ->]].
        -- right. exists entry. cbn. repeat split; auto; lia.
        -- left. split; [reflexivity|]. intros e a' b' [<-|Hin] He.
           ++ rewrite Hn in He. injection He as <- <-. exact Hle.
           ++ exact (U' e a' b' Hin He).
      * right. exists e. split; [right; exact Hin|]. split; [exact Hnum|].
        split; [lia|]. split; [lia|exact O].
Qed.

(** When [check_content_updates] returns after a successful request, every
    entry of the answer had a version of two numbers, and one of two things
    holds.  Either no entry has two positive numbers, and the empty string
    is returned.  Or some entry has two positive numbers that no entry
    exceeds both; then None is returned if that entry is marked as
    current, and else its version. *)
Theorem check_content_updates_choice (er : element) (r : option string) :
  check_content_updates int (Some (Some er)) = Return r ->
  let entries := findall_below "entry" er in
  (forall e, In e entries -> version_numbers int e <> None)
  /\ ((unsurpassed int entries 0 0 /\ r = Some "")
      \/ exists e a b v,
           In e entries
           /\ version_numbers int e = Some (a, b)
           /\ (0 < a)%Z /\ (0 < b)%Z
           /\ unsurpassed int entries a b
           /\ entry_version e = Some v
           /\ ((entry_current e = Some "yes" /\ r = None)
               \/ (entry_current e <> Some "yes" /\ r = Some v))).
Proof.
  intros H entries. cbn [check_content_updates] in H. fold entries in H.
  destruct (scan_entries int entries no_version) as [st|ex] eqn:E; [|discriminate].
  destruct (scan_entries_keeps _ _ _ E) as (_ & _ & U & T & O).
  split; [exact T|].
  destruct O as [[-> U0]|(e & Hin & Hn & L1 & L2 & Hv & Hc)].
  - left. split; [exact U0|]. cbn in H. injection H as <-. reflexivity.
  - right. exists e, (latest_version_first st), (latest_version_second st),
                  (latest_version st).
    cbn in L1, L2. repeat (split; [assumption|]).
    destruct (text_eqb (latest_version_current st) (Some "yes")) eqn:Ec;
      injection H as <-.
    + left. apply text_eqb_eq in Ec. split; [congruence|reflexivity].
    + right. split; [|reflexivity]. rewrite Hc. intros C.
      rewrite C in Ec. discriminate.
Qed.

Lemma scan_entries_raises (entries : list element) (entry : element) (st : latest) :
  In entry entries ->
  version_numbers int entry = None \/ find_child "current" entry = None ->
  exists e, scan_entries int entries st = Throw e.
Proof.
  intros Hin Hbad. revert st. induction entries as [|x rest IH]; intros st; [destruct Hin|].
  cbn [scan_entries]. destruct (consider int st x) as [st'|ex] eqn:E; [|eauto].
  destruct Hin as [->|Hin].
  - destruct (consider_raises st entry Hbad) as [ex Hex]. congruence.
  - apply IH. exact Hin.
Qed.

(** One entry of the answer without version, without two numbers in its
    version, or without current child makes the whole call raise, wherever
    the entry stands in the answer. *)
Theorem check_content_updates_raises (er entry : element) :
  In entry (findall_below "entry" er) ->
  version_numbers int entry = None \/ find_child "current" entry = None ->
  exists e, check_content_updates int (Some (Some er)) = Throw e.
Proof.
  intros Hin Hbad. cbn [check_content_updates].
  destruct (scan_entries_raises _ _ no_version Hin Hbad) as [ex ->].
  exists ex. reflexivity.
Qed.

End ContentUpdatesProperties.

Lemma check_content_updates_choice_witness :
  (check_content_updates Fixture.int_of_digits (Some (Some Fixture.updates)) = Return None
   /\ ((unsurpassed Fixture.int_of_digits (findall_below "entry" Fixture.updates) 0 0
        /\ None = Some "")
       \/ exists e a b v,
            In e (findall_below "entry" Fixture.updates)
            /\ version_numbers Fixture.int_of_digits e = Some (a, b)
            /\ (0 < a)%Z /\ (0 < b)%Z
            /\ unsurpassed Fixture.int_of_digits (findall_below "entry" Fixture.updates) a b
            /\ entry_version e = Some v
            /\ ((entry_current e = Some "yes" /\ @None string = None)
                \/ (entry_current e <> Some "yes" /\ None = Some v))))
  /\ (check_content_updates Fixture.int_of_digits (Some (Some Fixture.new_updates))
      = Return (Some "8320-6300")
      /\ ((unsurpassed Fixture.int_of_digits (findall_below "entry" Fixture.new_updates) 0 0
           /\ Some "8320-6300" = Some "")
          \/ exists e a b v,
               In e (findall_below "entry" Fixture.new_updates)
               /\ version_numbers Fixture.int_of_digits e = Some (a, b)
               /\ (0 < a)%Z /\ (0 < b)%Z
               /\ unsurpassed Fixture.int_of_digits
                    (findall_below "entry" Fixture.new_updates) a b
               /\ entry_version e = Some v
               /\ ((entry_current e = Some "yes" /\ Some "8320-6300" = None)
                   \/ (entry_current e <> Some "yes" /\ Some "8320-6300" = Some v))))
  /\ (check_content_updates Fixture.int_of_digits (Some (Some Fixture.no_updates))
      = Return (Some "")
      /\ ((unsurpassed Fixture.int_of_digits (findall_below "entry" Fixture.no_updates) 0 0
           /\ Some "" = Some "")
          \/ exists e a b v,
               In e (findall_below "entry" Fixture.no_updates)
               /\ version_numbers Fixture.int_of_digits e = Some (a, b)
               /\ (0 < a)%Z /\ (0 < b)%Z
               /\ unsurpassed Fixture.int_of_digits
                    (findall_below "entry" Fixture.no_updates) a b
               /\ entry_version e = Some v
               /\ ((entry_current e = Some "yes" /\ Some "" = None)
                   \/ (entry_current e <> Some "yes" /\ Some "" = Some v)))).
Proof.
  assert (H1 : check_content_updates Fixture.int_of_digits (Some (Some Fixture.updates))
               = Return None) by reflexivity.
  assert (H2 : check_content_updates Fixture.int_of_digits (Some (Some Fixture.new_updates))
               = Return (Some "8320-6300")) by reflexivity.
  assert (H3 : check_content_updates Fixture.int_of_digits (Some (Some Fixture.no_updates))
               = Return (Some "")) by reflexivity.
  split; [|split].
  - split; [exact H1|].
    exact (proj2 (check_content_updates_choice Fixture.int_of_digits
                    Fixture.updates None H1)).
  - split; [exact H2|].
    exact (proj2 (check_content_updates_choice Fixture.int_of_digits
                    Fixture.new_updates (Some "8320-6300") H2)).
  - split; [exact H3|].
    exact (proj2 (check_content_updates_choice Fixture.int_of_digits
                    Fixture.no_updates (Some "") H3)).
Defined.

Lemma check_content_updates_raises_witness :
  In (Element "entry" [] None [Element "current" [] (Some "no") [] None] None)
     (findall_below "entry" Fixture.broken_updates)
  /\ exists e, check_content_updates Fixture.int_of_digits
                 (Some (Some Fixture.broken_updates)) = Throw e.
Proof.
  assert (H : In (Element "entry" [] None [Element "current" [] (Some "no") [] None] None)
                 (findall_below "entry" Fixture.broken_updates))
    by (right; left; reflexivity).
  split; [exact H|].
  exact (check_content_updates_raises Fixture.int_of_digits Fixture.broken_updates
           _ H (or_introl eq_refl)).
Defined.

(** ** [wait_for_job] and [wait_for_device_ready] *)

Section WaitingProperties.

Variable time : Type.
Variable later : time -> time -> bool.

(** While the device answers with success and a status other than FIN,
    [wait_for_job] goes on: the clock is not looked at in such a pass, so a
    job that does not finish is waited for beyond the timeout, whatever
    the readings of the clock. *)
Theorem wait_for_job_outlasts_timeout (timeout_mark : time) (passes : list (job_pass time)) :
  forallb (@job_running time) passes = true ->
  wait_for_job time later timeout_mark passes = None.
Proof.
  induction passes as [|p rest IH]; intros H; [reflexivity|].
  cbn [forallb] in H. apply andb_true_iff in H. destruct H as [Hp Hr].
  destruct p as [|status [job_element|] now]; cbn [job_running] in Hp; try discriminate.
  apply andb_true_iff in Hp. destruct Hp as [Hs Hf].
  cbn [wait_for_job]. rewrite Hs.
  destruct (find_below "status" job_element) as [st|]; [|discriminate].
  apply negb_true_iff in Hf. rewrite Hf. apply IH. exact Hr.
Qed.

(** [wait_for_job] returns True only after a pass in which the device
    answered with success and a job whose first status is FIN. *)
Theorem wait_for_job_true_is_finished (timeout_mark : time) (passes : list (job_pass time)) :
  wait_for_job time later timeout_mark passes = Some (Return true) ->
  exists job_element now job_status_element,
    In (JobAnswer time "success" (Some job_element) now) passes
    /\ find_below "status" job_element = Some job_status_element
    /\ el_text job_status_element = Some "FIN".
Proof.
  induction passes as [|p rest IH]; intros H; [discriminate|].
  assert (Hrest : wait_for_job time later timeout_mark rest = Some (Return true) ->
                  exists job_element now job_status_element,
                    In (JobAnswer time "success" (Some job_element) now) (p :: rest)
                    /\ find_below "status" job_element = Some job_status_element
                    /\ el_text job_status_element = Some "FIN").
  { intros H'. destruct (IH H') as (j & n & s & Hin & Hj). exists j, n, s.
    split; [right; exact Hin|exact Hj]. }
  destruct p as [|status element_result now]; cbn [wait_for_job] in H; [discriminate|].
  destruct (String.eqb_spec status "success") as [->|_].
  - destruct element_result as [job_element|]; [|discriminate].
    destruct (find_below "status" job_element) as [st|] eqn:Ef; [|discriminate].
    destruct (text_eqb (el_text st) (Some "FIN")) eqn:Et.
    + apply text_eqb_eq in Et. exists job_element, now, st.
      split; [left; reflexivity|]. split; [exact Ef|exact Et].
    + apply Hrest, H.
  - destruct (later now timeout_mark); [discriminate|]. apply Hrest, H.
Qed.

(** [wait_for_device_ready] has returned by the end of the first pass that
    reads the clock after the timeout mark: what follows that pass does
    not matter. *)
Theorem wait_for_device_ready_stops (timeout_mark now : time)
    (before : list (ready_pass time)) (p : ready_pass time) :
  ready_clock time p = Some now ->
  later now timeout_mark = true ->
  exists r, forall after,
    wait_for_device_ready time later timeout_mark (before ++ p :: after)%list = Some r.
Proof.
  intros Hc Hl.
  assert (Hp : exists r, forall after,
             wait_for_device_ready time later timeout_mark (p :: after) = Some r).
  { destruct p as [|now'|status resp now']; cbn [ready_clock] in Hc; try discriminate;
      injection Hc as ->; cbn [wait_for_device_ready]; rewrite Hl.
    - eauto.
    - destruct (String.eqb status "success"); [|eauto].
      destruct resp as [r|]; [|eauto].
      destruct (String.eqb (Str.strip r) "yes"); eauto. }
  induction before as [|q rest IH]; [exact Hp|].
  destruct IH as [r IH].
  change ((q :: rest) ++ p :: ?a)%list with (q :: (rest ++ p :: a))%list.
  destruct q as [|now'|status resp now']; cbn [wait_for_device_ready].
  - eauto.
  - destruct (later now' timeout_mark); eauto.
  - destruct (String.eqb status "success").
    + destruct resp as [x|]; [|eauto].
      destruct (String.eqb (Str.strip x) "yes"); [eauto|].
      destruct (later now' timeout_mark); eauto.
    + destruct (later now' timeout_mark); eauto.
Qed.

(** [wait_for_device_ready] returns True only after a pass in which the
    device answered with success and, white space apart, yes. *)
Theorem wait_for_device_ready_true_is_yes (timeout_mark : time)
    (passes : list (ready_pass time)) :
  wait_for_device_ready time later timeout_mark passes = Some (Return true) ->
  exists resp now,
    In (ReadyAnswer time "success" (Some resp) now) passes /\ Str.strip resp = "yes".
Proof.
  induction passes as [|p rest IH]; intros H; [discriminate|].
  assert (Hrest : wait_for_device_ready time later timeout_mark rest = Some (Return true) ->
                  exists resp now,
                    In (ReadyAnswer time "success" (Some resp) now) (p :: rest)
                    /\ Str.strip resp = "yes").
  { intros H'. destruct (IH H') as (x & n & Hin & Hx). exists x, n.
    split; [right; exact Hin|exact Hx]. }
  destruct p as [|now|status resp now]; cbn [wait_for_device_ready] in H; [discriminate| |].
  - destruct (later now timeout_mark); [discriminate|]. apply Hrest, H.
  - destruct (String.eqb_spec status "success") as [->|_].
    + destruct resp as [x|]; [|discriminate].
      destruct (String.eqb_spec (Str.strip x) "yes") as [E|_].
      * exists x, now. split; [left; reflexivity|exact E].
      * destruct (later now timeout_mark); [discriminate|]. apply Hrest, H.
    + destruct (later now timeout_mark); [discriminate|]. apply Hrest, H.
Qed.

End WaitingProperties.

Lemma wait_for_job_outlasts_timeout_witness :
  forallb (@job_running nat)
    [JobAnswer nat "success" (Some (Fixture.job "ACT")) 10;
     JobAnswer nat "success" (Some (Fixture.job "PEND")) 700] = true
  /\ wait_for_job nat (fun a b => (b <? a)%nat) 600
       [JobAnswer nat "success" (Some (Fixture.job "ACT")) 10;
        JobAnswer nat "success" (Some (Fixture.job "PEND")) 700] = None.
Proof.
  assert (H : forallb (@job_running nat)
                [JobAnswer nat "success" (Some (Fixture.job "ACT")) 10;
                 JobAnswer nat "success" (Some (Fixture.job "PEND")) 700] = true)
    by reflexivity.
  split; [exact H|].
  exact (wait_for_job_outlasts_timeout nat (fun a b => (b <? a)%nat) 600 _ H).
Defined.

Lemma wait_for_job_true_is_finished_witness :
  wait_for_job nat (fun a b => (b <? a)%nat) 600
    [JobAnswer nat "success" (Some (Fixture.job "ACT")) 10;
     JobAnswer nat "success" (Some (Fixture.job "FIN")) 20] = Some (Return true)
  /\ exists job_element now job_status_element,
       In (JobAnswer nat "success" (Some job_element) now)
          [JobAnswer nat "success" (Some (Fixture.job "ACT")) 10;
           JobAnswer nat "success" (Some (Fixture.job "FIN")) 20]
       /\ find_below "status" job_element = Some job_status_element
       /\ el_text job_status_element = Some "FIN".
Proof.
  assert (H : wait_for_job nat (fun a b => (b <? a)%nat) 600
                [JobAnswer nat "success" (Some (Fixture.job "ACT")) 10;
                 JobAnswer nat "success" (Some (Fixture.job "FIN")) 20]
              = Some (Return true)) by reflexivity.
  split; [exact H|].
  exact (wait_for_job_true_is_finished nat (fun a b => (b <? a)%nat) 600 _ H).
Defined.

Lemma wait_for_device_ready_stops_witness :
  ready_clock nat (ReadyAnswer nat "success" (Some "no") 601) = Some 601
  /\ exists r, forall after,
       wait_for_device_ready nat (fun a b => (b <? a)%nat) 600
         ([ReadyOpRaises nat 30; ReadyAnswer nat "error" None 60]
          ++ ReadyAnswer nat "success" (Some "no") 601 :: after)%list = Some r.
Proof.
  split; [reflexivity|].
  exact (wait_for_device_ready_stops nat (fun a b => (b <? a)%nat) 600 601
           [ReadyOpRaises nat 30; ReadyAnswer nat "error" None 60]
           (ReadyAnswer nat "success" (Some "no") 601) eq_refl eq_refl).
Defined.

Lemma wait_for_device_ready_true_is_yes_witness :
  wait_for_device_ready nat (fun a b => (b <? a)%nat) 600
    [ReadyOpRaises nat 30; ReadyAnswer nat "success" (Some " yes ") 60] = Some (Return true)
  /\ exists resp now,
       In (ReadyAnswer nat "success" (Some resp) now)
          [ReadyOpRaises nat 30; ReadyAnswer nat "success" (Some " yes ") 60]
       /\ Str.strip resp = "yes".
Proof.
  assert (H : wait_for_device_ready nat (fun a b => (b <? a)%nat) 600
                [ReadyOpRaises nat 30; ReadyAnswer nat "success" (Some " yes ") 60]
              = Some (Return true)) by reflexivity.
  split; [exact H|].
  exact (wait_for_device_ready_true_is_yes nat (fun a b => (b <? a)%nat) 600 _ H).
Defined.

(** ** The snippets that [generate_skillet_from_configs] returns *)

Lemma reported_prefix (pc el : element) (xp q : string) :
  reported pc el xp q -> exists rest, q = xp ++ rest.
Proof.
  induction 1 as [el xp _ | el xp f o _ _ _ | el xp f o i c s q _ _ _ _ [rest ->]].
  - exists "". rewrite append_nil_r. reflexivity.
  - exists "". rewrite append_nil_r. reflexivity.
  - exists ("/" ++ s ++ rest). rewrite !append_assoc. reflexivity.
Qed.

Lemma reported_built (pc el : element) (xp q : string) :
  reported pc el xp q -> exists leaf, built el xp leaf q.
Proof.
  induction 1 as [el xp _ | el xp f o _ _ _ | el xp f o i c s q _ Hi Hs _ [leaf IH]].
  - exists el. constructor.
  - exists el. constructor.
  - exists leaf. exact (built_below el xp i c s leaf q Hi Hs IH).
Qed.

(** The full path of a change that starts at the root marker is the
    change itself. *)
Lemma full_path_of_change (rest : string) :
  Str.sub_prefix "/config/" "\./" ("." ++ rest) = "." ++ rest.
Proof. reflexivity. Qed.



Lemma plain_tag_step (c : element) :
  plain_names c = true -> single_step (el_tag c) = true.
Proof.
  intros H. apply piece_single_step, piece_mild, plain_is_mild.
  unfold plain_names in H. do 2 (apply andb_true_iff in H; destruct H as [H _]).
  exact H.
Qed.

Lemma plain_tag_chars (c : element) :
  plain_names c = true -> all_chars plain_char (el_tag c) = true.
Proof.
  intros H. unfold plain_names in H.
  do 2 (apply andb_true_iff in H; destruct H as [H _]). exact H.
Qed.

(** Along the walk the last step of the xpath built for an element reads,
    without its bracketed part, as the tag of the element. *)
Lemma built_entry_tag (el leaf : element) (xp q : string) :
  built el xp leaf q ->
  forallb plain_names (descendants el) = true ->
  XPath.quote_state false xp = false ->
  sub_brackets (snd (split_xpath xp)) = el_tag el ->
  sub_brackets (snd (split_xpath q)) = el_tag leaf.
Proof.
  induction 1 as [el xp | el xp i c s leaf q Hi Hs _ IH]; intros Hp Hx Ht; [exact Ht|].
  assert (Hc : In c (el_children el)) by (apply nth_error_In with i; exact Hi).
  assert (Hpc : forallb plain_names (descendants c) = true)
    by exact (plain_descendants_child _ _ Hp Hc).
  assert (Hn : plain_names c = true).
  { rewrite forallb_forall in Hpc. apply Hpc, descendants_self. }
  assert (Hstep : single_step s = true)
    by exact (piece_single_step _ (path_entry_piece _ _ c s Hn Hs)).
  apply IH; [exact Hpc|exact (closed_slash _ _ Hx Hstep)|].
  rewrite (split_xpath_slash _ _ Hx Hstep). cbn [snd].
  exact (path_entry_tag _ _ c s Hn Hs).
Qed.

Section Output.

Variable Action : Type.
Variable diff_trees : element -> element -> list Action.
Variable random_int : nat -> nat.

(** The names the second loop gives: the last step of the change without
    its bracketed part, a dash and one of the random numbers. *)
Lemma assemble_names (latest_doc : element) (xs : list string) :
  Forall (fun x => exists nodes, xpath latest_doc x = Ok nodes) xs ->
  forall draws acc,
  exists out,
    assemble random_int latest_doc xs draws acc = Ok (acc ++ out)%list /\
    Forall (fun s => exists x k,
                In x xs /\
                full_xpath s = Str.sub_prefix "/config/" "\./" x /\
                name s = sub_brackets (snd (split_xpath x)) ++ "-"
                         ++ Str.of_nat (random_int k)) out.
Proof.
  induction 1 as [|x xs [nodes Hx] _ IH]; intros draws acc.
  - exists []. rewrite app_nil_r. split; [reflexivity|constructor].
  - assert (W : forall out,
               Forall (fun s => exists x' k,
                          In x' xs /\
                          full_xpath s = Str.sub_prefix "/config/" "\./" x' /\
                          name s = sub_brackets (snd (split_xpath x')) ++ "-"
                                   ++ Str.of_nat (random_int k)) out ->
               Forall (fun s => exists x' k,
                          In x' (x :: xs) /\
                          full_xpath s = Str.sub_prefix "/config/" "\./" x' /\
                          name s = sub_brackets (snd (split_xpath x')) ++ "-"
                                   ++ Str.of_nat (random_int k)) out).
    { intros out. apply Forall_impl. intros s (x' & k & Hin & Hs).
      exists x', k. split; [right; exact Hin|exact Hs]. }
    cbn [assemble]. destruct (split_xpath x) as [set_xpath entry] eqn:Es.
    destruct (existsb (String.eqb (Str.sub_prefix "./" "/config/" set_xpath))
                ignored_xpaths).
    + destruct (IH draws acc) as [out [E F]]. exists out. split; [exact E|exact (W _ F)].
    + rewrite Hx. cbn [bind]. destruct nodes as [|changed others].
      * destruct (IH draws acc) as [out [E F]]. exists out.
        split; [exact E|exact (W _ F)].
      * destruct (IH (draws + 1)
                    (acc ++ [ {| name := sub_brackets entry ++ "-"
                                         ++ Str.of_nat (random_int draws);
                                 xpath_ := Str.sub_prefix "./" "/config/" set_xpath;
                                 element_ := Str.strip (Serialize.tostring changed);
                                 full_xpath := Str.sub_prefix "/config/" "\./" x |} ])%list)
          as [out [E F]].
        eexists (_ :: out). split.
        -- rewrite E, <- app_assoc. reflexivity.
        -- constructor; [|exact (W _ F)].
           exists x, draws. split; [left; reflexivity|]. split; [reflexivity|].
           rewrite Es. reflexivity.
Qed.

(** What a call that returns went through: the change set of the walk,
    made of reported paths; the snippets of the second loop; their
    ordering. *)
Lemma changes_to_snippets (previous_doc latest_doc : element) (changes : list string) :
  collect_not_found Action diff_trees (el_children latest_doc) previous_doc [] = Ok changes ->
  Forall (fun q => exists i c,
              nth_error (el_children latest_doc) i = Some c /\
              reported previous_doc c ("." ++ "/" ++ el_tag c) q) changes
  /\ Forall (fun x => exists nodes, xpath latest_doc x = Ok nodes) changes
  /\ exists out,
       assemble random_int latest_doc changes 0 [] = Ok out /\
       map snippet_body out
       = map (expected_body latest_doc) (filter (emitted latest_doc) changes) /\
       Forall (fun s => exists x k,
                   In x changes /\
                   full_xpath s = Str.sub_prefix "/config/" "\./" x /\
                   name s = sub_brackets (snd (split_xpath x)) ++ "-"
                            ++ Str.of_nat (random_int k)) out /\
       generate_skillet_from_configs Action diff_trees random_int previous_doc latest_doc
       = Ok (order_snippets out).
Proof.
  intros Hc.
  destruct (collect_reported _ _ _ _ _ _ Hc) as [new [-> F]]. cbn [app] in *.
  assert (V : Forall (fun x => exists nodes, xpath latest_doc x = Ok nodes) new).
  { eapply Forall_impl; [|exact F]. intros q [i [c [_ Hq]]].
    destruct (reported_valid _ _ _ _ Hq) as [nodes Hn].
    exact (xpath_valid _ latest_doc _ _ Hn). }
  split; [exact F|]. split; [exact V|].
  destruct (assemble_emits random_int latest_doc new V 0 []) as [out [E M]].
  destruct (assemble_names latest_doc new V 0 []) as [out' [E' N]].
  cbn [app] in E, E'. assert (out' = out) by congruence. subst out'.
  exists out. split; [exact E|]. split; [exact M|]. split; [exact N|].
  unfold generate_skillet_from_configs. rewrite Hc. cbn [bind]. rewrite E. reflexivity.
Qed.

Lemma generate_collects (previous_doc latest_doc : element) (result : list snippet) :
  generate_skillet_from_configs Action diff_trees random_int previous_doc latest_doc
  = Ok result ->
  exists changes,
    collect_not_found Action diff_trees (el_children latest_doc) previous_doc []
    = Ok changes.
Proof.
  unfold generate_skillet_from_configs.
  destruct (collect_not_found Action diff_trees (el_children latest_doc) previous_doc [])
    as [changes|]; [eauto|discriminate].
Qed.

Lemma change_at_root (previous_doc latest_doc : element) (changes : list string) (x : string) :
  Forall (fun q => exists i c,
              nth_error (el_children latest_doc) i = Some c /\
              reported previous_doc c ("." ++ "/" ++ el_tag c) q) changes ->
  In x changes ->
  Str.sub_prefix "/config/" "\./" x = x.
Proof.
  intros F Hx. rewrite Forall_forall in F. destruct (F x Hx) as (i & c & _ & Hq).
  destruct (reported_prefix _ _ _ _ Hq) as [rest ->].
  rewrite <- !append_assoc. apply full_path_of_change.
Qed.

(** C8.  Whenever the walk returns a change set, the call returns a list
    of snippets and raises nothing: every change resolves, without error,
    to a list of nodes of the latest document.  A change whose container
    path is that of the built-in admin account, or which resolves to no
    node, has no snippet in that list.  Every other change has one: a
    snippet with the change as its full path, the container path of the
    change, and the stripped serialisation of the first node the change
    resolves to.  No snippet is there for anything but a change. *)
Theorem assembly_skips_and_emits (previous_doc latest_doc : element)
        (changes : list string) :
  collect_not_found Action diff_trees (el_children latest_doc) previous_doc [] = Ok changes ->
  exists result,
    generate_skillet_from_configs Action diff_trees random_int previous_doc latest_doc
    = Ok result
    /\ (forall x, In x changes ->
          exists nodes,
            xpath latest_doc x = Ok nodes
            /\ (container_path x = admin_account_path \/ nodes = [] ->
                forall s, In s result -> full_xpath s <> x)
            /\ (container_path x <> admin_account_path ->
                forall node others, nodes = node :: others ->
                exists s, In s result
                          /\ full_xpath s = x
                          /\ xpath_ s = container_path x
                          /\ element_ s = Str.strip (Serialize.tostring node)))
    /\ (forall s, In s result -> In (full_xpath s) changes).
Proof.
  intros Hc.
  destruct (changes_to_snippets _ _ _ Hc) as (F & V & out & _ & M & _ & G).
  exists (order_snippets out). split; [exact G|].
  assert (Hfrom : forall s, In s (order_snippets out) ->
            exists x, In x changes /\ emitted latest_doc x = true
                      /\ expected_body latest_doc x = snippet_body s /\ full_xpath s = x).
  { intros s Hs. rewrite order_snippets_members in Hs.
    assert (Hb : In (snippet_body s)
                    (map (expected_body latest_doc) (filter (emitted latest_doc) changes))).
    { rewrite <- M. apply in_map. exact Hs. }
    apply in_map_iff in Hb. destruct Hb as [x [Ex Hx]].
    apply filter_In in Hx. destruct Hx as [Hx He].
    exists x. split; [exact Hx|]. split; [exact He|]. split; [exact Ex|].
    unfold snippet_body, expected_body in Ex. injection Ex as _ _ Ef.
    rewrite <- Ef. exact (change_at_root _ _ _ _ F Hx). }
  split.
  - intros x Hx. rewrite Forall_forall in V. destruct (V x Hx) as [nodes Hn].
    exists nodes. split; [exact Hn|]. split.
    + intros Hskip s Hs Hfull. destruct (Hfrom s Hs) as (x' & _ & He & _ & Hf).
      assert (E : x' = x) by congruence. rewrite E in He.
      unfold emitted in He. apply andb_true_iff in He. destruct He as [Hi Hr].
      destruct Hskip as [Hadmin | ->].
      * rewrite Hadmin in Hi. discriminate.
      * rewrite Hn in Hr. discriminate.
    + intros Hadmin node others ->.
      assert (He : emitted latest_doc x = true).
      { unfold emitted. rewrite Hn. rewrite andb_true_r. apply negb_true_iff.
        unfold ignored_xpaths. cbn [existsb]. rewrite orb_false_r.
        apply String.eqb_neq. exact Hadmin. }
      assert (Hb : In (expected_body latest_doc x) (map snippet_body out)).
      { rewrite M. apply in_map. apply filter_In. split; [exact Hx|exact He]. }
      apply in_map_iff in Hb. destruct Hb as [s [Es Hs]].
      exists s. split; [rewrite order_snippets_members; exact Hs|].
      unfold snippet_body, expected_body in Es. rewrite Hn in Es.
      injection Es as E1 E2 E3.
      rewrite E1, E2, E3. rewrite (change_at_root _ _ _ _ F Hx). auto.
  - intros s Hs. destruct (Hfrom s Hs) as (x & Hx & _ & _ & Hf). rewrite Hf. exact Hx.
Qed.

(** When every element of the latest document has plain names, removing
    the bracketed part from the path entry of any of them gives its tag,
    and the name of every snippet returned is a tag, a dash and one of the
    random numbers: the tag of an element of the latest document for which
    the walk built the full path of the snippet. *)
Theorem snippet_name_is_tag (previous_doc latest_doc : element) :
  forallb plain_names (descendants latest_doc) = true ->
  (forall e is_list index entry,
      In e (descendants latest_doc) ->
      path_entry is_list index e = Ok entry ->
      sub_brackets entry = el_tag e)
  /\ forall result s,
       generate_skillet_from_configs Action diff_trees random_int previous_doc latest_doc
       = Ok result ->
       In s result ->
       exists leaf k,
         xpath_built_for latest_doc leaf (full_xpath s)
         /\ name s = el_tag leaf ++ "-" ++ Str.of_nat (random_int k).
Proof.
  intros Hp. split.
  - intros e is_list index entry He Hs. rewrite forallb_forall in Hp.
    exact (path_entry_tag is_list index e entry (Hp e He) Hs).
  - intros result s Hg Hs.
    destruct (generate_collects _ _ _ Hg) as [changes Hc].
    destruct (changes_to_snippets _ _ _ Hc) as (F & _ & out & _ & _ & N & G).
    rewrite G in Hg. injection Hg as <-.
    rewrite order_snippets_members in Hs.
    rewrite Forall_forall in N. destruct (N s Hs) as (x & k & Hx & Hf & Hname).
    rewrite (change_at_root _ _ _ _ F Hx) in Hf.
    rewrite Forall_forall in F. destruct (F x Hx) as (i & c & Hi & Hq).
    assert (Hin : In c (el_children latest_doc)) by (apply nth_error_In with i; exact Hi).
    assert (Hpc : forallb plain_names (descendants c) = true)
      by exact (plain_descendants_child _ _ Hp Hin).
    assert (Hn : plain_names c = true).
    { rewrite forallb_forall in Hpc. apply Hpc, descendants_self. }
    destruct (reported_built _ _ _ _ Hq) as [leaf Hb].
    exists leaf, k. split.
    + rewrite Hf. exists c. split; [exact Hin|exact Hb].
    + rewrite Hname. f_equal.
      apply (built_entry_tag c leaf ("." ++ "/" ++ el_tag c) x Hb Hpc).
      * exact (closed_slash "." (el_tag c) eq_refl (plain_tag_step c Hn)).
      * rewrite (split_xpath_slash "." (el_tag c) eq_refl (plain_tag_step c Hn)).
        cbn [snd]. apply sub_brackets_plain. exact (plain_tag_chars c Hn).
Qed.


End Output.

Lemma assembly_skips_and_emits_witness :
  collect_not_found unit Sample.tree_differ (el_children Sample.latest_skips)
    Sample.previous_skips [] = Ok Sample.changes_skips
  /\ exists result,
       generate_skillet_from_configs unit Sample.tree_differ Sample.draws
         Sample.previous_skips Sample.latest_skips = Ok result
       /\ (forall x, In x Sample.changes_skips ->
             exists nodes,
               xpath Sample.latest_skips x = Ok nodes
               /\ (container_path x = admin_account_path \/ nodes = [] ->
                   forall s, In s result -> full_xpath s <> x)
               /\ (container_path x <> admin_account_path ->
                   forall node others, nodes = node :: others ->
                   exists s, In s result
                             /\ full_xpath s = x
                             /\ xpath_ s = container_path x
                             /\ element_ s = Str.strip (Serialize.tostring node)))
       /\ (forall s, In s result -> In (full_xpath s) Sample.changes_skips).
Proof.
  assert (Hc : collect_not_found unit Sample.tree_differ
                 (el_children Sample.latest_skips) Sample.previous_skips []
               = Ok Sample.changes_skips) by reflexivity.
  split; [exact Hc|].
  exact (assembly_skips_and_emits unit Sample.tree_differ Sample.draws
           Sample.previous_skips Sample.latest_skips _ Hc).
Defined.

(** On these documents the three changes are of the three kinds: the
    first has the container path of the admin account, the second resolves
    to no node of the latest document, and only the third is returned. *)
Lemma skipped_changes_of_a_walk :
  map container_path Sample.changes_skips
  = [admin_account_path; "/config/x"; "/config/shared"]
  /\ xpath Sample.latest_skips ("./x/m[text()=" ++ Str.dq ++ "c" ++ Str.dq ++ "]") = Ok []
  /\ generate_skillet_from_configs unit Sample.tree_differ Sample.draws
       Sample.previous_skips Sample.latest_skips
     = Ok [ {| name := "tag-4242";
               xpath_ := "/config/shared";
               element_ := "<tag>t</tag>";
               full_xpath := "./shared/tag" |} ].
Proof. repeat split. Qed.

Lemma snippet_name_is_tag_witness :
  forallb plain_names (descendants Sample.latest_skips) = true
  /\ sub_brackets ("entry[@name=" ++ Str.dq ++ "admin" ++ Str.dq ++ "]") = "entry"
  /\ exists leaf k,
       xpath_built_for Sample.latest_skips leaf "./shared/tag"
       /\ "tag-4242" = el_tag leaf ++ "-" ++ Str.of_nat (Sample.draws k).
Proof.
  assert (Hp : forallb plain_names (descendants Sample.latest_skips) = true)
    by reflexivity.
  split; [exact Hp|].
  destruct (snippet_name_is_tag unit Sample.tree_differ Sample.draws
              Sample.previous_skips Sample.latest_skips Hp) as [Hentry Hname].
  split.
  - apply (Hentry (Sample.entry "admin" [Sample.leaf "phash" "new"]) false 1).
    + right. right. right. left. reflexivity.
    + reflexivity.
  - exact (Hname _ {| name := "tag-4242";
                      xpath_ := "/config/shared";
                      element_ := "<tag>t</tag>";
                      full_xpath := "./shared/tag" |}
             eq_refl (or_introl eq_refl)).
Defined.

